(** * SurveyLensAI: the survey pipeline of [app.component.ts] and
    [gemini.service.ts], embedded in Rocq.

    The development follows the source files function by function:
    the CSV reader and writer ([parseCsv], [escapeCsvCell], [exportToCsv]),
    the date normaliser ([parseDate]), the classification queue
    ([startAnalysis], [processAnalysisQueue]), the filter
    ([filteredAnalysisResults]) and the aggregations ([getCounts],
    [topicTree], [trendData]); then the rest of the component: the upload
    ([handleFileUpload]), the handlers of the mapping and results views,
    the other computed signals ([availableFilters], [minDate], [maxDate],
    the counts and the two topic charts, [intentMap]),
    [dateToInputFormat], the chatbot and the recommendations with the text
    functions of the service, and the pipe of [safe-html.pipe.ts].

    Conventions of the embedding.
    - A JavaScript string is a [string]: a sequence of code units, of which
      the embedding covers the ones below 256.
    - A JavaScript object used as a dictionary (a survey row, the [counts]
      table, the [root] table of the topic tree) is a finite map or an
      insertion-ordered association list. A read of a property name that
      objects inherit from [Object.prototype] is outside the embedding:
      the statements about tables keyed by free text exclude such names
      ([ownNames]).
    - A number held by a record is the rational it stands for ([Q]); where
      the program divides and multiplies numbers, the arithmetic is the
      engine's, on its own type of numbers. A [Date] is its time value in
      milliseconds ([Z]), and an invalid date is [None].
    - What the program obtains from outside is a field of a class or record
      that the functions take: the JavaScript engine ([Engine]: [Date.parse],
      the local time zone, the arithmetic of numbers), d3's calendar floors
      ([D3Time]) and the language model behind [GeminiService]. *)

From Stdlib Require Import ZArith QArith Qround Qabs Lqa Ascii String List Bool Lia.
From Stdlib Require Import Sorting.Sorted Permutation Floats.
From stdpp Require Import gmap strings list fin_maps.

Local Open Scope string_scope.
Local Open Scope Z_scope.
Local Open Scope list_scope.

(** ** JavaScript strings *)

Module JsString.

Definition DQUOTE : ascii := "034"%char.
Definition COMMA : ascii := ","%char.
Definition LF : ascii := "010"%char.
Definition CR : ascii := "013"%char.
Definition PIPE : ascii := "|"%char.

(** [WhiteSpace] and [LineTerminator] code points below 256: TAB, LF, VT, FF,
    CR, SP and NBSP. *)
Definition isWhiteSpace (c : ascii) : bool :=
  let n := nat_of_ascii c in
  (((9 <=? n)%nat && (n <=? 13)%nat) || (n =? 32)%nat || (n =? 160)%nat)%bool.

Fixpoint trimStart (s : string) : string :=
  match s with
  | EmptyString => EmptyString
  | String c r => if isWhiteSpace c then trimStart r else s
  end.

Fixpoint trimEnd (s : string) : string :=
  match s with
  | EmptyString => EmptyString
  | String c r =>
      match trimEnd r with
      | EmptyString => if isWhiteSpace c then EmptyString else String c EmptyString
      | r' => String c r'
      end
  end.

(** [String.prototype.trim] *)
Definition trim (s : string) : string := trimEnd (trimStart s).

(** [s.includes(c)] for a one-character needle *)
Fixpoint includes (s : string) (c : ascii) : bool :=
  match s with
  | EmptyString => false
  | String d r => (Ascii.eqb d c || includes r c)%bool
  end.

(** [s += c] *)
Fixpoint push (s : string) (c : ascii) : string :=
  match s with
  | EmptyString => String c EmptyString
  | String d r => String d (push r c)
  end.

(** [xs.join(sep)] *)
Fixpoint join (sep : string) (xs : list string) : string :=
  match xs with
  | [] => EmptyString
  | [x] => x
  | x :: rest => x +:+ sep +:+ join sep rest
  end.

(** [s.replace(/DQUOTE/g, DQUOTE DQUOTE)]: every double quote is doubled. *)
Fixpoint doubleQuotes (s : string) : string :=
  match s with
  | EmptyString => EmptyString
  | String c r =>
      if Ascii.eqb c DQUOTE then String DQUOTE (String DQUOTE (doubleQuotes r))
      else String c (doubleQuotes r)
  end.

(** [s.split(/\r\n|\n/)]: [cur] is the line being read. *)
Fixpoint splitLines (s : string) (cur : string) : list string :=
  match s with
  | EmptyString => [cur]
  | String c r =>
      if Ascii.eqb c LF then cur :: splitLines r EmptyString
      else if Ascii.eqb c CR then
        match r with
        | String c' r' =>
            if Ascii.eqb c' LF then cur :: splitLines r' EmptyString
            else splitLines r (push cur c)
        | EmptyString => splitLines r (push cur c)
        end
      else splitLines r (push cur c)
  end.

(** Truthiness of a string: only the empty string is falsy. *)
Definition nonEmpty (s : string) : bool :=
  match s with EmptyString => false | _ => true end.

(** The order of [<] on strings: code unit by code unit. *)
Fixpoint ltb (a b : string) : bool :=
  match a, b with
  | _, EmptyString => false
  | EmptyString, String _ _ => true
  | String c a', String d b' =>
      if (nat_of_ascii c <? nat_of_ascii d)%nat then true
      else if (nat_of_ascii d <? nat_of_ascii c)%nat then false
      else ltb a' b'
  end.

End JsString.

Import JsString.

(** ** Values and records ([gemini.service.ts]) *)

(** The [analysis] object of [AnalysisResult], with the fields the response
    schema requires. *)
Record Analysis := mkAnalysis {
  sentiment : string;
  sentiment_score : Q;
  intent : string;
  emotions : list string;
  topics : list string;
  explanation : string;
  confidence : Q;
  redacted_excerpt : string
}.

(** What [analyzeSurveyResponse] resolves to: the parsed classification, or
    the object [{ error: message }] built in its [catch]. *)
Inductive AnalyzerReply :=
| Classified (a : Analysis)
| ErrorReply (message : string).

(** The values a property of a survey record can hold. A [Date] held by a
    record is always a valid one: [parseDate] returns no other. *)
Inductive Value :=
| VUndefined
| VString (s : string)
| VNumber (x : Q)
| VArray (xs : list string)
| VDate (t : Z)
| VObject (o : AnalyzerReply).

(** [SurveyResponse] and [AnalysisResult]: [rowId], [date], [analysis] and
    [error] live in the same object as the columns of the row. *)
Abbreviation SurveyResponse := (gmap string Value).
Abbreviation AnalysisResult := (gmap string Value).

(** [r[key]]: a property that is not there reads as [undefined]. *)
Definition get (r : gmap string Value) (key : string) : Value :=
  default VUndefined (r !! key).

(** [row[i]] on a parsed row *)
Definition cell (row : list string) (i : nat) : Value :=
  match row !! i with
  | Some s => VString s
  | None => VUndefined
  end.

(** ToBoolean *)
Definition truthy (v : Value) : bool :=
  match v with
  | VUndefined => false
  | VString s => nonEmpty s
  | VNumber x => negb (Qeq_bool x 0)
  | VArray _ | VDate _ | VObject _ => true
  end.

(** [v === s] against a string *)
Definition strictEqString (v : Value) (s : string) : bool :=
  match v with
  | VString t => String.eqb t s
  | _ => false
  end.

(** [o[name]] for the property names the program reads off an [analysis]
    value. *)
Definition getProp (v : Value) (name : string) : Value :=
  match v with
  | VObject (Classified a) =>
      if String.eqb name "sentiment" then VString (sentiment a)
      else if String.eqb name "sentiment_score" then VNumber (sentiment_score a)
      else if String.eqb name "intent" then VString (intent a)
      else if String.eqb name "emotions" then VArray (emotions a)
      else if String.eqb name "topics" then VArray (topics a)
      else if String.eqb name "explanation" then VString (explanation a)
      else if String.eqb name "confidence" then VNumber (confidence a)
      else if String.eqb name "redacted_excerpt" then VString (redacted_excerpt a)
      else VUndefined
  | VObject (ErrorReply m) =>
      if String.eqb name "error" then VString m else VUndefined
  | _ => VUndefined
  end.

(** What the engine provides. *)
Class Engine := {
  (** [new Date(s).getTime()], [None] for [NaN] *)
  Date_parse : string -> option Z;
  (** the offset of local time from UTC at a local time value *)
  LocalTZA : Z -> Z;
  (** [String(x)] on a number and on a [Date] *)
  Number_toString : Q -> string;
  Date_toString : Z -> string;
  (** [s < d] and [s > d] for a string [s] and a [Date] of time value [d]:
      the comparison goes through the engine's StringToNumber *)
  String_ltDate : string -> Z -> bool;
  String_gtDate : string -> Z -> bool;
  (** the Number type: the number an integer converts to, [x / y], [x * y],
      and the rational a finite number stands for *)
  Number : Type;
  Number_of_Z : Z -> Number;
  Number_div : Number -> Number -> Number;
  Number_mul : Number -> Number -> Number;
  Number_value : Number -> Q
}.

(** ** The component's signals ([app.component.ts]) *)

Inductive AppState := upload | mapping | analyzing | results.
Inductive GroupBy := bySentiment | byIntent | byTopics.
Inductive Period := day | week | month.

(** The signals the pipeline reads and writes. A bound of the date filter
    is a valid date: the handlers build it from the value of a date input. *)
Record Component := mkComponent {
  appState : AppState;
  error : string;
  rawCsvData : list (list string);
  mappedTextColumn : string;
  mappedDateColumn : string;
  analysisResults : list AnalysisResult;
  analysisProgress : Z;
  isAnalyzing : bool;
  filters : gmap string string;
  dateFilterStart : option Z;
  dateFilterEnd : option Z;
  trendChartGroupBy : GroupBy;
  trendChartPeriod : Period
}.

(** The signals as the class initialises them. *)
Definition initialComponent : Component := {|
  appState := upload;
  error := "";
  rawCsvData := [];
  mappedTextColumn := "";
  mappedDateColumn := "";
  analysisResults := [];
  analysisProgress := 0;
  isAnalyzing := false;
  filters := ∅;
  dateFilterStart := None;
  dateFilterEnd := None;
  trendChartGroupBy := bySentiment;
  trendChartPeriod := day
|}.

(** [headers = computed(() => this.rawCsvData()[0] || [])] *)
Definition headers (st : Component) : list string :=
  match rawCsvData st with
  | [] => []
  | h :: _ => h
  end.

(** [rows = computed(() => this.rawCsvData().slice(1))] *)
Definition rows (st : Component) : list (list string) :=
  match rawCsvData st with
  | [] => []
  | _ :: rest => rest
  end.

(** ** CsvCodec: [parseCsv] *)

(** The inner [for] loop of [parseCsv] over one line; [line] is what is left
    from index [i] on. *)
Fixpoint scanLine (line : string) (fields : list string)
    (currentField : string) (inQuotes : bool) : list string :=
  match line with
  | EmptyString => fields ++ [trim currentField]
  | String char rest =>
      if Ascii.eqb char DQUOTE then
        match inQuotes, rest with
        | true, String next rest' =>
            if Ascii.eqb next DQUOTE
            then scanLine rest' fields (push currentField DQUOTE) inQuotes
            else scanLine rest fields currentField (negb inQuotes)
        | _, _ => scanLine rest fields currentField (negb inQuotes)
        end
      else if (Ascii.eqb char COMMA && negb inQuotes)%bool
      then scanLine rest (fields ++ [trim currentField]) EmptyString inQuotes
      else scanLine rest fields (push currentField char) inQuotes
  end.

Definition parseCsv (text : string) : list (list string) :=
  let lines :=
    List.filter (fun line => nonEmpty (trim line)) (splitLines text EmptyString) in
  match lines with
  | [] => []
  | _ => List.map (fun line => scanLine line [] EmptyString false) lines
  end.

(** The condition under which [parseCsv] logs its warning. *)
Definition inconsistentColumns (data : list (list string)) : bool :=
  match data with
  | [] => false
  | h :: _ => negb (forallb (fun row => (length row =? length h)%nat) data)
  end.

(** ** TemporalNormalizer: [parseDate] *)

Module JsDate.

Definition msPerDay : Z := 86400000.

Definition DaysInYear (y : Z) : Z :=
  if negb (y mod 4 =? 0) then 365
  else if negb (y mod 100 =? 0) then 366
  else if negb (y mod 400 =? 0) then 365
  else 366.

Definition DayFromYear (y : Z) : Z :=
  365 * (y - 1970) + (y - 1969) / 4 - (y - 1901) / 100 + (y - 1601) / 400.

Definition InLeapYear (y : Z) : Z :=
  if DaysInYear y =? 366 then 1 else 0.

(** The day within the year on which month [mn] (0 to 11) starts. *)
Definition DayWithinYearOfMonth (y mn : Z) : Z :=
  let leap := InLeapYear y in
  if mn =? 0 then 0
  else if mn =? 1 then 31
  else if mn =? 2 then 59 + leap
  else if mn =? 3 then 90 + leap
  else if mn =? 4 then 120 + leap
  else if mn =? 5 then 151 + leap
  else if mn =? 6 then 181 + leap
  else if mn =? 7 then 212 + leap
  else if mn =? 8 then 243 + leap
  else if mn =? 9 then 273 + leap
  else if mn =? 10 then 304 + leap
  else 334 + leap.

(** MakeDay on integral arguments: a month outside 0..11 carries into the
    year, a date outside the month carries into the following days. *)
Definition MakeDay (year month date : Z) : Z :=
  let ym := year + month / 12 in
  let mn := month mod 12 in
  DayFromYear ym + DayWithinYearOfMonth ym mn + date - 1.

Definition MakeDate (day time : Z) : Z := day * msPerDay + time.

Definition UTC `{Engine} (t : Z) : Z := t - LocalTZA t.

Definition TimeClip (t : Z) : option Z :=
  if Z.abs t >? 8640000000000000 then None else Some t.

(** [new Date(year, month, date).getTime()] on integers, [None] for [NaN]. *)
Definition construct `{Engine} (year month date : Z) : option Z :=
  let yr := if ((0 <=? year) && (year <=? 99))%bool then 1900 + year else year in
  TimeClip (UTC (MakeDate (MakeDay yr month date) 0)).

End JsDate.

Definition isDigit (c : ascii) : bool :=
  let n := nat_of_ascii c in ((48 <=? n)%nat && (n <=? 57)%nat)%bool.

Definition isDateSeparator (c : ascii) : bool :=
  (Ascii.eqb c "/"%char || Ascii.eqb c "-"%char)%bool.

(** Exactly [k] digits at the start of [s], and what follows them. *)
Fixpoint takeDigits (k : nat) (s : string) : option (string * string) :=
  match k with
  | O => Some (EmptyString, s)
  | S k' =>
      match s with
      | String c r =>
          if isDigit c then
            match takeDigits k' r with
            | Some (ds, rest) => Some (String c ds, rest)
            | None => None
            end
          else None
      | EmptyString => None
      end
  end.

(** A separator at the start of [s], and what follows it. *)
Definition takeSeparator (s : string) : option string :=
  match s with
  | String c r => if isDateSeparator c then Some r else None
  | EmptyString => None
  end.

(** [(\d{1,2})[/-](\d{4})] at the start of [s], the quantifier greedy: two
    digits are tried before one. *)
Definition matchSecondAndYear (s : string) : option (string * string) :=
  let try (k : nat) :=
    match takeDigits k s with
    | Some (g2, r) =>
        match takeSeparator r with
        | Some r' =>
            match takeDigits 4 r' with
            | Some (g3, _) => Some (g2, g3)
            | None => None
            end
        | None => None
        end
    | None => None
    end in
  match try 2%nat with
  | Some m => Some m
  | None => try 1%nat
  end.

(** The whole pattern [(\d{1,2})[/-](\d{1,2})[/-](\d{4})] at the start of [s]. *)
Definition matchDateHere (s : string) : option (string * string * string) :=
  let try (k : nat) :=
    match takeDigits k s with
    | Some (g1, r) =>
        match takeSeparator r with
        | Some r' =>
            match matchSecondAndYear r' with
            | Some (g2, g3) => Some (g1, g2, g3)
            | None => None
            end
        | None => None
        end
    | None => None
    end in
  match try 2%nat with
  | Some m => Some m
  | None => try 1%nat
  end.

(** [dateStr.match(...)]: the leftmost position at which the pattern matches. *)
Fixpoint matchDate (s : string) : option (string * string * string) :=
  match matchDateHere s with
  | Some m => Some m
  | None =>
      match s with
      | String _ r => matchDate r
      | EmptyString => None
      end
  end.

(** [parseInt] on a string of decimal digits. *)
Definition parseInt (s : string) : Z :=
  fold_left (fun acc c => 10 * acc + (Z.of_nat (nat_of_ascii c) - 48))
            (list_ascii_of_string s) 0.

(** [parseDate]: [None] is [undefined]; the argument is [None] when the cell
    of the date column is missing from a short row. *)
Definition parseDate `{Engine} (dateStr : option string) : option Z :=
  match dateStr with
  | None => None
  | Some s =>
      if negb (nonEmpty s) then None
      else
        match Date_parse s with
        | Some d => Some d
        | None =>
            match matchDate s with
            | Some (p1, p2, p3) =>
                match JsDate.construct (parseInt p3) (parseInt p1 - 1) (parseInt p2) with
                | Some d2 => Some d2
                | None =>
                    match JsDate.construct (parseInt p3) (parseInt p2 - 1) (parseInt p1) with
                    | Some d3 => Some d3
                    | None => None
                    end
                end
            | None => None
            end
        end
  end.

(** ** GeminiService: [analyzeSurveyResponse] *)

(** What a call of [generateContent] followed by [JSON.parse] can raise: an
    object with a [message] property (an empty [message] stands for a falsy
    or missing one), a string, or anything else. *)
Inductive Thrown :=
| ThrownError (message : string)
| ThrownString (s : string)
| ThrownOther.

Inductive ApiOutcome :=
| ApiReturns (a : Analysis)
| ApiThrows (e : Thrown).

(** The client behind [this.ai]: the outcome of a call depends on how many
    calls came before it and on the text sent. *)
Abbreviation Client := (nat -> Value -> ApiOutcome).

Record GeminiService := mkGeminiService { ai : option Client }.

(** [hay.includes(needle)] *)
Fixpoint includesStr (hay needle : string) : bool :=
  (String.prefix needle hay ||
   match hay with
   | EmptyString => false
   | String _ r => includesStr r needle
   end)%bool.

Definition rateLimitMessage : string :=
  "API rate limit was reached. The process is being slowed down automatically. If this persists, please try a smaller file.".
Definition modelNotFoundMessage : string :=
  "The specified model was not found. Please ensure you are using a valid Gemini model name.".

(** The [catch] block of [analyzeSurveyResponse]. *)
Definition errorMessage (e : Thrown) : string :=
  match e with
  | ThrownError m =>
      if nonEmpty m then
        if includesStr m "429" then rateLimitMessage
        else if includesStr m "404" then modelNotFoundMessage
        else m
      else "Failed to analyze response."
  | ThrownString s => s
  | ThrownOther => "Failed to analyze response."
  end.

(** [analyzeSurveyResponse]: [None] when it throws (no client), otherwise the
    value it resolves to. [call] counts the calls made before this one. *)
Definition analyzeSurveyResponse (svc : GeminiService) (call : nat)
    (responseText : Value) : option AnalyzerReply :=
  match ai svc with
  | None => None
  | Some client =>
      Some match client call responseText with
           | ApiReturns a => Classified a
           | ApiThrows e => ErrorReply (errorMessage e)
           end
  end.

(** ** ClassificationQueue: [startAnalysis] and [processAnalysisQueue] *)

(** [Math.round]: the nearest integer, halves upwards. *)
Definition Math_round (x : Q) : Z := Qfloor (x + (1 # 2)).

(** [Math.round((processedCount / totalToProcess) * 100)], the division and
    the multiplication in the engine's arithmetic. *)
Definition progressOf `{Engine} (processedCount totalToProcess : nat) : Z :=
  Math_round
    (Number_value
       (Number_mul
          (Number_div (Number_of_Z (Z.of_nat processedCount))
                      (Number_of_Z (Z.of_nat totalToProcess)))
          (Number_of_Z 100))).

(** [xs.indexOf(x)], counting from [i]. *)
Fixpoint indexOf (xs : list string) (x : string) (i : Z) : Z :=
  match xs with
  | [] => -1
  | y :: rest => if String.eqb y x then i else indexOf rest x (i + 1)
  end.

(** [hdrs[i]] used as a property key: out of range it is [undefined], whose
    key is the string of that name. *)
Definition keyAt (hdrs : list string) (i : Z) : string :=
  if i <? 0 then "undefined"
  else default "undefined" (hdrs !! Z.to_nat i).

(** The [forEach] of [startAnalysis] that copies the row into the response,
    from column [i] on. *)
Fixpoint assignColumns (hdrs : list string) (i : nat) (row : list string)
    (response : SurveyResponse) : SurveyResponse :=
  match hdrs with
  | [] => response
  | header :: rest => assignColumns rest (S i) row (<[header := cell row i]> response)
  end.

Definition toSurveyResponse (hdrs : list string) (row : list string) (index : nat)
    : SurveyResponse :=
  assignColumns hdrs 0 row {[ "rowId" := VNumber (inject_Z (Z.of_nat index + 2)) ]}.

(** [this.rows().map((row, index) => ...)], from [index] on. *)
Fixpoint mapRows (hdrs : list string) (rws : list (list string)) (index : nat)
    : list SurveyResponse :=
  match rws with
  | [] => []
  | row :: rest => toSurveyResponse hdrs row index :: mapRows hdrs rest (S index)
  end.

Definition dataToAnalyze (st : Component) : list SurveyResponse :=
  mapRows (headers st) (rows st) 0.

(** The cell handed to [parseDate]: a column of an item holds a string or
    [undefined]. *)
Definition asDateStr (v : Value) : option string :=
  match v with
  | VString s => Some s
  | _ => None
  end.

Definition dateValue (d : option Z) : Value :=
  match d with
  | Some t => VDate t
  | None => VUndefined
  end.

Definition setProgressAndAppend (st : Component) (progress : Z) (result : AnalysisResult)
    : Component :=
  {| appState := appState st;
     error := error st;
     rawCsvData := rawCsvData st;
     mappedTextColumn := mappedTextColumn st;
     mappedDateColumn := mappedDateColumn st;
     analysisResults := analysisResults st ++ [result];
     analysisProgress := progress;
     isAnalyzing := isAnalyzing st;
     filters := filters st;
     dateFilterStart := dateFilterStart st;
     dateFilterEnd := dateFilterEnd st;
     trendChartGroupBy := trendChartGroupBy st;
     trendChartPeriod := trendChartPeriod st |}.

Definition setPhase (st : Component) (phase : AppState) (err : string)
    (running : bool) (progress : Z) : Component :=
  {| appState := phase;
     error := err;
     rawCsvData := rawCsvData st;
     mappedTextColumn := mappedTextColumn st;
     mappedDateColumn := mappedDateColumn st;
     analysisResults := analysisResults st;
     analysisProgress := progress;
     isAnalyzing := running;
     filters := filters st;
     dateFilterStart := dateFilterStart st;
     dateFilterEnd := dateFilterEnd st;
     trendChartGroupBy := trendChartGroupBy st;
     trendChartPeriod := trendChartPeriod st |}.

(** The record [processItem] builds from an item and the analyzer's reply. *)
Definition resultOf `{Engine} (hdrs : list string) (dateIndex : Z)
    (item : SurveyResponse) (analysis : AnalyzerReply) : AnalysisResult :=
  let result : AnalysisResult := item in
  let result :=
    if truthy (getProp (VObject analysis) "error")
    then <["error" := getProp (VObject analysis) "error"]> result
    else <["analysis" := VObject analysis]> result in
  if dateIndex >? -1
  then <["date" := dateValue (parseDate (asDateStr (get item (keyAt hdrs dateIndex))))]> result
  else result.

(** [processItem]: [None] when the analyzer throws, otherwise the new value
    of [processedCount] and the component after the two signal writes. *)
Definition processItem `{Engine} (svc : GeminiService) (textIndex dateIndex : Z)
    (totalToProcess : nat) (item : SurveyResponse) (processedCount : nat)
    (st : Component) : option (nat * Component) :=
  match analyzeSurveyResponse svc processedCount (get item (keyAt (headers st) textIndex)) with
  | None => None
  | Some analysis =>
      let result := resultOf (headers st) dateIndex item analysis in
      let processedCount := S processedCount in
      Some (processedCount,
            setProgressAndAppend st (progressOf processedCount totalToProcess) result)
  end.

Inductive Settlement := NotStarted | Fulfilled | Rejected.

(** A run of the queue: the component as it is after each completed
    [processItem], how the run ended, and the component at the end. No other
    handler of the component runs in between. *)
Record Run := mkRun {
  observed : list Component;
  settled : Settlement;
  final : Component
}.

(** The [for ... of] loop of [processAnalysisQueue] and what follows it. *)
Fixpoint forOf `{Engine} (svc : GeminiService) (textIndex dateIndex : Z)
    (totalToProcess : nat) (queue : list SurveyResponse) (processedCount : nat)
    (st : Component) : Run :=
  match queue with
  | [] =>
      {| observed := [];
         settled := Fulfilled;
         final := setPhase st results (error st) false (analysisProgress st) |}
  | item :: rest =>
      match processItem svc textIndex dateIndex totalToProcess item processedCount st with
      | None => {| observed := []; settled := Rejected; final := st |}
      | Some (processedCount', st') =>
          let run := forOf svc textIndex dateIndex totalToProcess rest processedCount' st' in
          {| observed := st' :: observed run; settled := settled run; final := final run |}
      end
  end.

Definition processAnalysisQueue `{Engine} (svc : GeminiService) (st : Component)
    (queue : list SurveyResponse) (textIndex dateIndex : Z) : Run :=
  forOf svc textIndex dateIndex (length queue) queue 0 st.

Definition startAnalysis `{Engine} (svc : GeminiService) (st : Component) : Run :=
  if negb (nonEmpty (mappedTextColumn st)) then
    {| observed := [];
       settled := NotStarted;
       final := setPhase st (appState st) "Please select the column for response text."
                         (isAnalyzing st) (analysisProgress st) |}
  else
    let st := setPhase st analyzing "" true 0 in
    let textColumnIndex := indexOf (headers st) (mappedTextColumn st) 0 in
    let dateColumnIndex :=
      if nonEmpty (mappedDateColumn st)
      then indexOf (headers st) (mappedDateColumn st) 0
      else -1 in
    processAnalysisQueue svc st (dataToAnalyze st) textColumnIndex dateColumnIndex.

(** ** FilterEngine: [filteredAnalysisResults] *)

(** [v < d] and [v > d] for a [Date] of time value [d]. A value that
    converts to [NaN] compares false both ways. *)
Definition ltDate `{Engine} (v : Value) (d : Z) : bool :=
  match v with
  | VDate t => t <? d
  | VNumber x => Qle_bool x (inject_Z d) && negb (Qeq_bool x (inject_Z d))
  | VString s => String_ltDate s d
  | VArray xs => String_ltDate (join "," xs) d
  | VUndefined | VObject _ => false
  end.

Definition gtDate `{Engine} (v : Value) (d : Z) : bool :=
  match v with
  | VDate t => d <? t
  | VNumber x => Qle_bool (inject_Z d) x && negb (Qeq_bool x (inject_Z d))
  | VString s => String_gtDate s d
  | VArray xs => String_gtDate (join "," xs) d
  | VUndefined | VObject _ => false
  end.

(** [activeFilters[key]] *)
Definition filterValue (activeFilters : gmap string string) (key : string) : string :=
  default "" (activeFilters !! key).

(** [Object.keys(activeFilters).filter(key => activeFilters[key] &&
    activeFilters[key] !== 'all')] *)
Definition filterKeys (activeFilters : gmap string string) : list string :=
  List.filter
    (fun key => nonEmpty (filterValue activeFilters key)
                && negb (String.eqb (filterValue activeFilters key) "all"))
    (List.map fst (map_to_list activeFilters)).

(** The callback of [results.filter]. *)
Definition keepResult `{Engine} (activeFilters : gmap string string)
    (keys : list string) (startDate endDate : option Z) (r : AnalysisResult) : bool :=
  let dimensionMatch :=
    forallb (fun key => strictEqString (get r key) (filterValue activeFilters key)) keys in
  if negb dimensionMatch then false
  else if match startDate with
          | Some s => negb (truthy (get r "date")) || ltDate (get r "date") s
          | None => false
          end
  then false
  else if match endDate with
          | Some e => negb (truthy (get r "date")) || gtDate (get r "date") e
          | None => false
          end
  then false
  else true.

Definition applyFilters `{Engine} (rs : list AnalysisResult)
    (activeFilters : gmap string string) (startDate endDate : option Z)
    : list AnalysisResult :=
  let keys := filterKeys activeFilters in
  if ((length keys =? 0)%nat && negb (bool_decide (is_Some startDate))
      && negb (bool_decide (is_Some endDate)))%bool
  then rs
  else List.filter (keepResult activeFilters keys startDate endDate) rs.

Definition filteredAnalysisResults `{Engine} (st : Component) : list AnalysisResult :=
  applyFilters (analysisResults st) (filters st) (dateFilterStart st) (dateFilterEnd st).

(** ** CsvCodec, export path: [escapeCsvCell] and [exportToCsv] *)

(** [String(cell)], and [cell.join('|')] on an array. *)
Definition cellText `{Engine} (c : Value) : string :=
  match c with
  | VUndefined => ""
  | VString s => s
  | VNumber x => Number_toString x
  | VArray xs => join "|" xs
  | VDate t => Date_toString t
  | VObject _ => "[object Object]"
  end.

Definition escapeCsvCell `{Engine} (c : Value) : string :=
  match c with
  | VUndefined => ""
  | _ =>
      let str := cellText c in
      if (includes str COMMA || includes str DQUOTE || includes str LF)%bool
      then String DQUOTE (doubleQuotes str +:+ String DQUOTE EmptyString)
      else str
  end.

Definition analysisHeaders : list string :=
  ["sentiment"; "sentiment_score"; "intent"; "emotions"; "topics"; "explanation";
   "confidence"; "redacted_excerpt"].

(** The cells of one exported row. *)
Definition rowData (allHeaders : list string) (res : AnalysisResult) : list Value :=
  [get res "rowId"]
  ++ List.map (fun h => get res h) allHeaders
  ++ List.map (fun ah => if truthy (get res "analysis")
                         then getProp (get res "analysis") ah
                         else VString "")
              analysisHeaders.

(** [exportToCsv]: the text handed to the download, [None] when the function
    returns before building any. *)
Definition exportToCsv `{Engine} (st : Component) : option string :=
  let rs := filteredAnalysisResults st in
  if (length rs =? 0)%nat then None
  else
    let allHeaders := headers st in
    let hdrs := (["rowId"] ++ allHeaders ++ analysisHeaders)%list in
    let csvRows :=
      ([join "," hdrs]
       ++ List.map (fun res => join "," (List.map escapeCsvCell (rowData allHeaders res))) rs)%list in
    Some (join (String LF EmptyString) csvRows).

(** ** AggregationEngine: [getCounts] *)

(** An object used as a table of counters: its properties in the order in
    which they were created. *)
Abbreviation Counts := (list (string * nat)).

(** [counts[key] || 0] *)
Fixpoint countOf (counts : Counts) (key : string) : nat :=
  match counts with
  | [] => 0%nat
  | (k, n) :: rest => if String.eqb k key then n else countOf rest key
  end.

(** [counts[key] = n]: an existing property keeps its place, a new one goes
    last. *)
Fixpoint setCount (counts : Counts) (key : string) (n : nat) : Counts :=
  match counts with
  | [] => [(key, n)]
  | (k, m) :: rest =>
      if String.eqb k key then (k, n) :: rest else (k, m) :: setCount rest key n
  end.

(** The names every object inherits from [Object.prototype]. Under such a
    name a table that starts as [{}] reads the inherited member, not a
    counter. *)
Definition inheritedName (key : string) : bool :=
  existsb (String.eqb key)
    ["constructor"; "hasOwnProperty"; "isPrototypeOf"; "propertyIsEnumerable";
     "toLocaleString"; "toString"; "valueOf"; "__proto__"; "__defineGetter__";
     "__defineSetter__"; "__lookupGetter__"; "__lookupSetter__"].

(** [counts[key] = (counts[key] || 0) + 1], for a [key] that is not an
    [inheritedName]: the table then holds numbers only, and [countOf] and
    [setCount] are its own properties. *)
Definition bump (counts : Counts) (key : string) : Counts :=
  setCount counts key (countOf counts key + 1).

(** A property name that is an array index: the canonical decimal form of an
    integer below 2^32 - 1. *)
Definition isArrayIndex (s : string) : bool :=
  match s with
  | EmptyString => false
  | String c r =>
      (forallb isDigit (list_ascii_of_string s)
       && (negb (Ascii.eqb c "0"%char) || negb (nonEmpty r))
       && (parseInt s <? 4294967295))%bool
  end.

Fixpoint insertByIndex (e : string * nat) (l : Counts) : Counts :=
  match l with
  | [] => [e]
  | y :: rest =>
      if parseInt (fst e) <? parseInt (fst y) then e :: l else y :: insertByIndex e rest
  end.

(** [Object.entries(counts)]: array-index names first, in ascending numeric
    order, then the other names in creation order. *)
Definition Object_entries (counts : Counts) : Counts :=
  fold_right insertByIndex [] (List.filter (fun e => isArrayIndex (fst e)) counts)
  ++ List.filter (fun e => negb (isArrayIndex (fst e))) counts.

(** [xs.sort((a, b) => key(b) - key(a))]: descending by [key]; the sort is
    stable, so elements of equal key keep their order. *)
Fixpoint insertDesc {A} (key : A -> nat) (e : A) (l : list A) : list A :=
  match l with
  | [] => [e]
  | y :: rest =>
      if (key y <=? key e)%nat then e :: l else y :: insertDesc key e rest
  end.

Definition sortDesc {A} (key : A -> nat) (l : list A) : list A :=
  fold_right (insertDesc key) [] l.

(** [Array.from(new Set(xs))]: the first occurrence of every element, in
    order; [seen] holds the elements met so far. *)
Fixpoint dedupe (seen : list string) (xs : list string) : list string :=
  match xs with
  | [] => []
  | x :: rest =>
      if existsb (String.eqb x) seen then dedupe seen rest
      else x :: dedupe (x :: seen) rest
  end.

(** [xs.slice(0, end)] *)
Definition slice0 {A} (xs : list A) (stop : Z) : list A :=
  let len := Z.of_nat (length xs) in
  let k := if stop <? 0 then Z.max (len + stop) 0 else Z.min stop len in
  firstn (Z.to_nat k) xs.

Inductive Field := FSentiment | FIntent | FTopics.

Definition fieldName (f : Field) : string :=
  match f with
  | FSentiment => "sentiment"
  | FIntent => "intent"
  | FTopics => "topics"
  end.

(** The callback of [results.forEach] in [getCounts]. *)
Definition countResult (field : Field) (counts : Counts) (r : AnalysisResult) : Counts :=
  if negb (truthy (get r "analysis")) then counts
  else
    match field with
    | FTopics =>
        match getProp (get r "analysis") "topics" with
        | VArray ts => fold_left bump ts counts
        | _ => counts
        end
    | _ =>
        match getProp (get r "analysis") (fieldName field) with
        | VString value => if nonEmpty value then bump counts value else counts
        | _ => counts
        end
    end.

(** [getCounts]; [slice] is [None] when the argument is left out. *)
Definition getCounts (rs : list AnalysisResult) (field : Field) (slice : option Z)
    : Counts :=
  let counts := fold_left (countResult field) rs [] in
  let sorted := sortDesc snd (Object_entries counts) in
  match slice with
  | Some n => if n =? 0 then sorted else rev (slice0 sorted n)
  | None => sorted
  end.

(** ** AggregationEngine: [topicTree] *)

Module Topics.

(** [TopicNode]. Every node object is a property of the one table [root],
    under its name, and is never replaced there: a reference to a node (an
    element of [subTopics]) is the name it is stored under. *)
Record TopicNode := mkTopicNode {
  name : string;
  count : nat;
  responses : list AnalysisResult;
  subTopics : list string;
  expanded : bool
}.

Definition newNode (topicName : string) : TopicNode :=
  {| name := topicName; count := 0; responses := []; subTopics := []; expanded := false |}.

(** [parentNode.subTopics.push(child)] unless a sub-topic of that name is
    there already. *)
Definition registerChild (child : string) (parent : TopicNode) : TopicNode :=
  if existsb (fun st => String.eqb st child) (subTopics parent) then parent
  else {| name := name parent; count := count parent; responses := responses parent;
          subTopics := subTopics parent ++ [child]; expanded := expanded parent |}.

(** [node.count++; node.responses.push(r)] *)
Definition touch (r : AnalysisResult) (node : TopicNode) : TopicNode :=
  {| name := name node; count := S (count node); responses := responses node ++ [r];
     subTopics := subTopics node; expanded := expanded node |}.

(** The callback of [r.analysis.topics.forEach]. [currentLevel] is [root]
    throughout: the source never assigns it again. The state is the table
    and [parentNode]. *)
Definition visitTopic (r : AnalysisResult)
    (state : gmap string TopicNode * option string) (topicName : string)
    : gmap string TopicNode * option string :=
  let '(currentLevel, parentNode) := state in
  let currentLevel :=
    match currentLevel !! topicName with
    | Some _ => currentLevel
    | None =>
        let created := <[topicName := newNode topicName]> currentLevel in
        match parentNode with
        | Some p => alter (registerChild topicName) p created
        | None => created
        end
    end in
  (alter (touch r) topicName currentLevel, Some topicName).

(** The callback of [results.forEach]. *)
Definition visitResult (root : gmap string TopicNode) (r : AnalysisResult)
    : gmap string TopicNode :=
  if negb (truthy (get r "analysis")) then root
  else
    match getProp (get r "analysis") "topics" with
    | VArray [] => root
    | VArray ts => fst (fold_left (visitTopic r) ts (root, None))
    | _ => root
    end.

Definition buildRoot (rs : list AnalysisResult) : gmap string TopicNode :=
  fold_left visitResult rs ∅.

(** [r.analysis?.topics[0]]: [None] when reading index 0 of [undefined]
    raises a TypeError. *)
Definition firstTopic (r : AnalysisResult) : option Value :=
  match get r "analysis" with
  | VUndefined => Some VUndefined
  | a =>
      match getProp a "topics" with
      | VArray (t :: _) => Some (VString t)
      | VArray [] => Some VUndefined
      | _ => None
      end
  end.

(** [results.map(r => r.analysis?.topics[0])] *)
Fixpoint firstTopics (rs : list AnalysisResult) : option (list Value) :=
  match rs with
  | [] => Some []
  | r :: rest =>
      match firstTopic r, firstTopics rest with
      | Some v, Some vs => Some (v :: vs)
      | _, _ => None
      end
  end.

(** The strings among the truthy values of a list. *)
Definition truthyStrings (vs : list Value) : list string :=
  flat_map (fun v => match v with
                     | VString s => if nonEmpty s then [s] else []
                     | _ => []
                     end) vs.

(** [topicTree] over the filtered results [rs]: the root-level nodes, or
    [None] when the computation throws. *)
Definition topicTree (rs : list AnalysisResult) : option (list TopicNode) :=
  let root := buildRoot rs in
  match firstTopics rs with
  | None => None
  | Some firsts =>
      let topLevelTopics := dedupe [] (truthyStrings firsts) in
      Some (sortDesc count
              (flat_map (fun topicName => match root !! topicName with
                                          | Some node => [node]
                                          | None => []
                                          end) topLevelTopics))
  end.

End Topics.

(** ** AggregationEngine: [trendData] *)

(** d3's calendar floors [d3.timeDay], [d3.timeWeek] and [d3.timeMonth], on
    time values. *)
Class D3Time := { timeFloor : Period -> Z -> Z }.

Module Trend.

(** [!!r.date && !!r.analysis] *)
Definition hasDateAndAnalysis (r : AnalysisResult) : bool :=
  truthy (get r "date") && truthy (get r "analysis").

(** The truthy values [r.analysis[groupBy]] contributes to [allKeys]. *)
Definition groupValues (groupBy : Field) (r : AnalysisResult) : list string :=
  if negb (truthy (get r "analysis")) then []
  else
    match getProp (get r "analysis") (fieldName groupBy) with
    | VArray xs => List.filter nonEmpty xs
    | VString s => if nonEmpty s then [s] else []
    | _ => []
    end.

Fixpoint insertString (x : string) (l : list string) : list string :=
  match l with
  | [] => [x]
  | y :: rest => if JsString.ltb x y then x :: l else y :: insertString x rest
  end.

(** [allKeys.sort()] *)
Definition sortStrings (l : list string) : list string :=
  fold_right insertString [] l.

(** The key of a record's bucket: [periodFunc.floor(d.date)]. A [date] that
    is not a [Date] object (a column of that name that was not mapped as the
    date column) is gathered under [None]. *)
Definition bucketOf `{D3Time} (p : Period) (r : AnalysisResult) : option Z :=
  match get r "date" with
  | VDate t => Some (timeFloor p t)
  | _ => None
  end.

(** The grouping step of [d3.rollup]: groups in the order in which their
    keys are first met, records in input order within a group. *)
Fixpoint addToGroup (k : option Z) (r : AnalysisResult)
    (groups : list (option Z * list AnalysisResult))
    : list (option Z * list AnalysisResult) :=
  match groups with
  | [] => [(k, [r])]
  | (k', rs) :: rest =>
      if bool_decide (k = k') then (k', rs ++ [r]) :: rest
      else (k', rs) :: addToGroup k r rest
  end.

Definition groupByBucket `{D3Time} (p : Period) (rs : list AnalysisResult)
    : list (option Z * list AnalysisResult) :=
  fold_left (fun groups r => addToGroup (bucketOf p r) r groups) rs [].

(** [counts.has(key)] *)
Definition hasKey (counts : Counts) (key : string) : bool :=
  existsb (fun e => String.eqb (fst e) key) counts.

Definition increment (counts : Counts) (key : string) : Counts :=
  if hasKey counts key then setCount counts key (countOf counts key + 1) else counts.

(** The callback of [v.forEach] inside the reducer of [d3.rollup]. *)
Definition tally (groupBy : Field) (counts : Counts) (d : AnalysisResult) : Counts :=
  if negb (truthy (get d "analysis")) then counts
  else
    match getProp (get d "analysis") (fieldName groupBy) with
    | VArray values => fold_left increment values counts
    | VString value => if nonEmpty value then increment counts value else counts
    | _ => counts
    end.

(** The reducer of [d3.rollup]. *)
Definition reduceGroup (groupBy : Field) (allKeys : list string)
    (v : list AnalysisResult) : Counts :=
  fold_left (tally groupBy) v (List.map (fun key => (key, 0%nat)) allKeys).

(** [d3.ascending] on two bucket keys, as the [<] of a sort. *)
Definition keyLtb (a b : option Z) : bool :=
  match a, b with
  | Some x, Some y => x <? y
  | _, _ => false
  end.

Fixpoint insertKey (k : option Z) (l : list (option Z)) : list (option Z) :=
  match l with
  | [] => [k]
  | y :: rest => if keyLtb k y then k :: l else y :: insertKey k rest
  end.

Definition sortKeys (l : list (option Z)) : list (option Z) :=
  fold_right insertKey [] l.

(** [dataByDate.get(date)] *)
Fixpoint lookupBucket (k : option Z) (data : list (option Z * Counts)) : option Counts :=
  match data with
  | [] => None
  | (k', c) :: rest => if bool_decide (k = k') then Some c else lookupBucket k rest
  end.

(** A property of an entry of [stackedData]: the date of the bucket, or the
    count of a key. *)
Inductive StackValue :=
| StackDate (date : option Z)
| StackCount (value : nat).

(** [entry[key] = value] on the entry, an object literal: a key named
    [date] takes the place of the date; [__proto__] is the inherited
    setter, which does nothing with a number. *)
Definition setEntry (entry : gmap string StackValue) (kv : string * nat)
    : gmap string StackValue :=
  if String.eqb (fst kv) "__proto__" then entry
  else <[fst kv := StackCount (snd kv)]> entry.

(** [{ date }] followed by [counts.forEach((value, key) => { entry[key] =
    value; })]. *)
Definition stackEntry (date : option Z) (counts : Counts) : gmap string StackValue :=
  fold_left setEntry counts {[ "date" := StackDate date ]}.

Record TrendData := mkTrendData {
  series : list (string * list (option Z * nat));
  dates : list (option Z);
  keys : list string;
  stackedData : list (gmap string StackValue)
}.

(** The records [trendData] works on. *)
Definition included `{Engine} (st : Component) : list AnalysisResult :=
  List.filter hasDateAndAnalysis (filteredAnalysisResults st).

(** The buckets of [d3.rollup], each with the records gathered in it. *)
Definition buckets `{Engine} `{D3Time} (st : Component)
    : list (option Z * list AnalysisResult) :=
  groupByBucket (trendChartPeriod st) (included st).

Definition groupByField (g : GroupBy) : Field :=
  match g with
  | bySentiment => FSentiment
  | byIntent => FIntent
  | byTopics => FTopics
  end.

(** [trendData]; [None] is [null]. *)
Definition trendData `{Engine} `{D3Time} (st : Component) : option TrendData :=
  if negb (nonEmpty (mappedDateColumn st)) then None
  else
    let rs := included st in
    if (length rs =? 0)%nat then None
    else
      let groupBy := groupByField (trendChartGroupBy st) in
      let allKeys := sortStrings (dedupe [] (flat_map (groupValues groupBy) rs)) in
      let dataByDate :=
        List.map (fun g => (fst g, reduceGroup groupBy allKeys (snd g))) (buckets st) in
      let sortedDates := sortKeys (List.map fst dataByDate) in
      let stacked :=
        List.map (fun date => stackEntry date (default [] (lookupBucket date dataByDate)))
                 sortedDates in
      let srs :=
        List.map (fun key =>
                    (key, List.map (fun date =>
                                      (date, match lookupBucket date dataByDate with
                                             | Some counts => countOf counts key
                                             | None => 0%nat
                                             end)) sortedDates)) allKeys in
      Some {| series := srs; dates := sortedDates; keys := allKeys; stackedData := stacked |}.

End Trend.

(** ** Engines for the examples *)

(** Decimal digits of a natural number, most significant first; [fuel]
    bounds the number of digits. *)
Fixpoint digitsOf (fuel : nat) (n : N) (acc : string) : string :=
  match fuel with
  | O => acc
  | S fuel' =>
      let acc' := String (ascii_of_N (48 + n mod 10)) acc in
      if (n <? 10)%N then acc' else digitsOf fuel' (n / 10) acc'
  end.

(** An engine in the UTC time zone whose [Date.parse] accepts no string,
    which prints the integers in decimal, for which a string compared with a
    date converts to [NaN], and whose arithmetic is exact. *)
Definition utcEngine : Engine := {|
  Date_parse := fun _ => None;
  LocalTZA := fun _ => 0;
  Number_toString := fun x =>
    (if Qnum x <? 0 then "-" else "") +:+ digitsOf 40 (Z.to_N (Z.abs (Qfloor x))) "";
  Date_toString := fun t => digitsOf 40 (Z.to_N (Z.abs t)) "";
  String_ltDate := fun _ _ => false;
  String_gtDate := fun _ _ => false;
  Number := Q;
  Number_of_Z := inject_Z;
  Number_div := Qdiv;
  Number_mul := Qmult;
  Number_value := fun x => x
|}.

(** The rational a binary64 number stands for (0 for an infinity or NaN). *)
Definition valueOfDouble (x : PrimFloat.float) : Q :=
  match Prim2SF x with
  | S754_finite sign m e =>
      let num := if sign then Z.neg m else Z.pos m in
      if 0 <=? e then inject_Z (num * 2 ^ e) else num # (2 ^ Z.to_pos (- e))
  | _ => 0
  end.

(** The binary64 number of an integer (exact below 2^53). *)
Definition doubleOfZ (z : Z) : PrimFloat.float :=
  if z <? 0 then PrimFloat.opp (PrimFloat.of_uint63 (Uint63.of_Z (- z)))
  else PrimFloat.of_uint63 (Uint63.of_Z z).

(** The same engine with the arithmetic of binary64 numbers, as JavaScript
    has it. *)
Definition doubleEngine : Engine := {|
  Date_parse := fun _ => None;
  LocalTZA := fun _ => 0;
  Number_toString := fun x =>
    (if Qnum x <? 0 then "-" else "") +:+ digitsOf 40 (Z.to_N (Z.abs (Qfloor x))) "";
  Date_toString := fun t => digitsOf 40 (Z.to_N (Z.abs t)) "";
  String_ltDate := fun _ _ => false;
  String_gtDate := fun _ _ => false;
  Number := PrimFloat.float;
  Number_of_Z := doubleOfZ;
  Number_div := PrimFloat.div;
  Number_mul := PrimFloat.mul;
  Number_value := valueOfDouble
|}.

(** Half a unit in the last place of a binary64 number, relative to it. *)
Definition doubleEpsilon : Q := 1 # (2 ^ 53).

(** The arithmetic is as accurate as that of binary64 numbers where the
    queue uses it: the quotient of two array lengths and a product with 100
    are the exact results rounded to a nearest number, so off by at most
    half a unit in the last place. *)
Definition accurateArithmetic (E : Engine) : Prop :=
  (forall a b : Z, 0 <= a <= b -> 0 < b < 2 ^ 32 ->
     (Qabs (Number_value (Number_div (Number_of_Z a) (Number_of_Z b))
            - inject_Z a / inject_Z b)
      <= inject_Z a / inject_Z b * doubleEpsilon)%Q)
  /\ (forall x : Number, (0 <= Number_value x <= 2)%Q ->
       (Qabs (Number_value (Number_mul x (Number_of_Z 100)) - Number_value x * 100)
        <= Number_value x * 100 * doubleEpsilon)%Q).

(** A classification, and a service whose client returns it on every call. *)
Definition sampleAnalysis : Analysis := {|
  sentiment := "negative";
  sentiment_score := -(1 # 2);
  intent := "complaint";
  emotions := ["frustration"];
  topics := ["Delivery & Logistics"; "Delivery speed"];
  explanation := "The parcel came late.";
  confidence := 90;
  redacted_excerpt := "Slow delivery"
|}.

Definition sampleService : GeminiService :=
  mkGeminiService (Some (fun _ _ => ApiReturns sampleAnalysis)).

(** A component after the upload of [data], with the column [textColumn]
    mapped as the response text and no date column. *)
Definition uploaded (data : list (list string)) (textColumn : string) : Component := {|
  appState := mapping;
  error := "";
  rawCsvData := data;
  mappedTextColumn := textColumn;
  mappedDateColumn := "";
  analysisResults := [];
  analysisProgress := 0;
  isAnalyzing := false;
  filters := ∅;
  dateFilterStart := None;
  dateFilterEnd := None;
  trendChartGroupBy := bySentiment;
  trendChartPeriod := day
|}.

(** d3's calendar floors in the UTC time zone: the start of the day, of the
    week (weeks start on Sunday; day 0 was a Thursday) and of the month. *)
Definition utcFloor (p : Period) (t : Z) : Z :=
  let d := t / JsDate.msPerDay in
  match p with
  | day => d * JsDate.msPerDay
  | week => (d - (d + 4) mod 7) * JsDate.msPerDay
  | month =>
      let z := d + 719468 in
      let era := z / 146097 in
      let doe := z - era * 146097 in
      let yoe := (doe - doe / 1460 + doe / 36524 - doe / 146096) / 365 in
      let doy := doe - (365 * yoe + yoe / 4 - yoe / 100) in
      let mp := (5 * doy + 2) / 153 in
      (d - (doy - (153 * mp + 2) / 5)) * JsDate.msPerDay
  end.

Definition utcTime : D3Time := {| timeFloor := utcFloor |}.

(** The first field of the first row [parseCsv] reads from [text]. *)
Definition parse_field (text : string) : option string :=
  match parseCsv text with
  | (f :: _) :: _ => Some f
  | _ => None
  end.

(** A string that [escapeCsvCell] puts in quotes. *)
Definition needsQuoting (S : string) : bool :=
  includes S COMMA || includes S DQUOTE || includes S LF.

(** The reply [analyzeSurveyResponse] resolves to when the client is there. *)
Definition replyOf (client : Client) (call : nat) (responseText : Value) : AnalyzerReply :=
  match client call responseText with
  | ApiReturns a => Classified a
  | ApiThrows e => ErrorReply (errorMessage e)
  end.

(** The records a run of the queue is expected to append, one per item and in
    the order of the queue, when [call] calls were made before. *)
Fixpoint expectedResults `{Engine} (client : Client) (hdrs : list string)
    (textIndex dateIndex : Z) (queue : list SurveyResponse) (call : nat)
    : list AnalysisResult :=
  match queue with
  | [] => []
  | item :: rest =>
      resultOf hdrs dateIndex item (replyOf client call (get item (keyAt hdrs textIndex)))
      :: expectedResults client hdrs textIndex dateIndex rest (S call)
  end.

(** The progress values a run emits, in order. *)
Definition progressTrace (run : Run) : list Z :=
  List.map analysisProgress (observed run).

(** A property that is populated: present and not [undefined]. *)
Definition populated (r : gmap string Value) (key : string) : bool :=
  match r !! key with
  | Some VUndefined | None => false
  | Some _ => true
  end.

(** The date of a record, when its [date] property holds one. *)
Definition dateOf (r : AnalysisResult) : option Z :=
  match r !! "date" with
  | Some (VDate t) => Some t
  | _ => None
  end.

(** A record whose [date] is as [AnalysisResult] declares it: a [Date], or
    missing. *)
Definition dateTyped (r : AnalysisResult) : Prop :=
  match r !! "date" with
  | None | Some VUndefined | Some (VDate _) => True
  | Some _ => False
  end.


(** The values by which a record adds to the counters of [getCounts]: every
    element of its topic list, or its one value of a single-valued field. *)
Definition countedValues (field : Field) (r : AnalysisResult) : list string :=
  if negb (truthy (get r "analysis")) then []
  else
    match field with
    | FTopics =>
        match getProp (get r "analysis") "topics" with
        | VArray ts => ts
        | _ => []
        end
    | _ =>
        match getProp (get r "analysis") (fieldName field) with
        | VString value => if nonEmpty value then [value] else []
        | _ => []
        end
    end.

(** How often [value] occurs among the counted values of the records. *)
Definition occurrences (field : Field) (rs : list AnalysisResult) (value : string) : nat :=
  count_occ string_dec (flat_map (countedValues field) rs) value.

(** A record that was classified, with the given topic list. *)
Definition classifiedWith (ts : list string) : AnalysisResult :=
  {[ "analysis" := VObject (Classified {|
       sentiment := "neutral"; sentiment_score := 0; intent := "feedback";
       emotions := []; topics := ts; explanation := ""; confidence := 80;
       redacted_excerpt := "" |}) ]}.

(** The records of the example: topic lists A X, A Y and B. *)
Definition topicsExample : list AnalysisResult :=
  [classifiedWith ["A"; "X"]; classifiedWith ["A"; "Y"]; classifiedWith ["B"]].

(** The order of [getCounts] without [slice]: descending by count. *)
Definition descending (a b : string * nat) : Prop := (snd b <= snd a)%nat.
Definition ascending (a b : string * nat) : Prop := (snd a <= snd b)%nat.

(** The count of the node stored under [topicName], 0 when there is none. *)
Definition nodeCount (root : gmap string Topics.TopicNode) (topicName : string) : nat :=
  match root !! topicName with
  | Some node => Topics.count node
  | None => 0%nat
  end.

(** Every node is stored under its own name. *)
Definition namedByKey (root : gmap string Topics.TopicNode) : Prop :=
  forall k node, root !! k = Some node -> Topics.name node = k.

(** The records whose first topic is [topicName]. *)
Definition firstTopicIs (topicName : string) (r : AnalysisResult) : bool :=
  match countedValues FTopics r with
  | t :: _ => String.eqb t topicName
  | [] => false
  end.

Definition recordsWithFirstTopic (rs : list AnalysisResult) (topicName : string) : nat :=
  length (List.filter (firstTopicIs topicName) rs).

(** The records that have at least one topic. *)
Definition recordsWithTopic (rs : list AnalysisResult) : nat :=
  length (List.filter (fun r => match countedValues FTopics r with
                                | [] => false
                                | _ => true
                                end) rs).

(** [topicName] is below the first place in the topic list of some record. *)
Definition occursBelowFirst (rs : list AnalysisResult) (topicName : string) : Prop :=
  exists r, In r rs /\ In topicName (tl (countedValues FTopics r)).

(** Two classified records: main topic with sub-topic, and the same
    sub-topic alone. *)
Definition subTopicAlone : list AnalysisResult :=
  [classifiedWith ["Delivery & Logistics"; "Delivery speed"];
   classifiedWith ["Delivery speed"]].

(** A component in the results view with a mapped date column and two
    records: one classified without a date, one dated whose classification
    failed. *)
Definition oneOfTwo : Component := {|
  appState := results;
  error := "";
  rawCsvData := [["text"; "when"]; ["Slow delivery"; "soon"]; ["Great"; "2024-01-05"]];
  mappedTextColumn := "text";
  mappedDateColumn := "when";
  analysisResults :=
    [ <["text" := VString "Slow delivery"]> (<["rowId" := VNumber 2]> (classifiedWith ["A"]));
      {[ "rowId" := VNumber 3; "text" := VString "Great";
         "date" := VDate 1704412800000; "error" := VString "Failed to analyze response." ]} ];
  analysisProgress := 100;
  isAnalyzing := false;
  filters := ∅;
  dateFilterStart := None;
  dateFilterEnd := None;
  trendChartGroupBy := byTopics;
  trendChartPeriod := week
|}.

(** The same view with two records that are both dated and classified. *)
Definition bothOfTwo : Component := {|
  appState := results;
  error := "";
  rawCsvData := [["text"; "when"]; ["Slow delivery"; "2024-01-01"]; ["Great"; "2024-01-03"]];
  mappedTextColumn := "text";
  mappedDateColumn := "when";
  analysisResults :=
    [ <["date" := VDate 1704067200000]> (<["rowId" := VNumber 2]> (classifiedWith ["A"; "X"]));
      <["date" := VDate 1704240000000]> (<["rowId" := VNumber 3]> (classifiedWith ["A"])) ];
  analysisProgress := 100;
  isAnalyzing := false;
  filters := ∅;
  dateFilterStart := None;
  dateFilterEnd := None;
  trendChartGroupBy := byTopics;
  trendChartPeriod := week
|}.

(** A record whose [analysis] is as [AnalysisResult] declares it: a
    classification, or missing. *)
Definition analysisTyped (r : AnalysisResult) : Prop :=
  match r !! "analysis" with
  | None | Some VUndefined | Some (VObject (Classified _)) => True
  | Some _ => False
  end.

(** The record has a date; the record has a classification. *)
Definition dated (r : AnalysisResult) : bool :=
  match dateOf r with
  | Some _ => true
  | None => false
  end.

Definition classified (r : AnalysisResult) : bool :=
  match r !! "analysis" with
  | Some (VObject (Classified _)) => true
  | _ => false
  end.

(** The filtered records that have both. *)
Definition datedAndClassified `{Engine} (st : Component) : list AnalysisResult :=
  List.filter (fun r => dated r && classified r) (filteredAnalysisResults st).

(** The date of the record falls in the bucket that starts at [d]. *)
Definition fallsIn `{D3Time} (p : Period) (d : Z) (r : AnalysisResult) : bool :=
  match dateOf r with
  | Some t => timeFloor p t =? d
  | None => false
  end.

(** No value the records add to the counters of [field] is a name that
    objects inherit. *)
Definition ownNames (field : Field) (rs : list AnalysisResult) : Prop :=
  Forall (fun value => inheritedName value = false) (flat_map (countedValues field) rs).

(** A string of [k] decimal digits. *)
Definition digitString (k : nat) (s : string) : Prop :=
  String.length s = k /\ forallb isDigit (list_ascii_of_string s) = true.

(** The time zone is within a day of UTC. *)
Definition boundedZone (E : Engine) : Prop :=
  forall t, Z.abs (LocalTZA t) <= JsDate.msPerDay.

(** The number whose rounding is the progress after [k] of [n] items. *)
Definition progressValue (E : Engine) (k n : nat) : Q :=
  Number_value
    (Number_mul (Number_div (Number_of_Z (Z.of_nat k)) (Number_of_Z (Z.of_nat n)))
                (Number_of_Z 100)).

(** ** The other signals of [AppComponent] *)

Inductive Sender := user | bot.

(** [ChatMessage] *)
Record ChatMessage := mkChatMessage {
  sender : Sender;
  text : string
}.

Inductive ChartType := lineChart | stackedBarChart | areaChart.

(** The component with all its signals: those of the pipeline, and the ones
    of the upload, the mapping of dimensions, the modal, the topic chart,
    the chatbot, the recommendations and the summary. [selectedTopic] is
    [None] for [null]; [recommendationFilterType] is one of the strings
    sentiment, intent and the empty string. *)
Record AppComponent := mkAppComponent {
  pipeline : Component;
  fileName : string;
  isParsing : bool;
  mappedDimensionColumns : list string;
  isModalOpen : bool;
  modalTitle : string;
  modalResponses : list AnalysisResult;
  selectedTopic : option string;
  chatHistory : list ChatMessage;
  isChatbotLoading : bool;
  recommendationFilterType : string;
  recommendationFilterValue : string;
  generatedRecommendations : string;
  isGeneratingRecommendations : bool;
  trendChartType : ChartType;
  executiveSummary : string;
  isGeneratingSummary : bool
}.

(** The signals as the class initialises them. *)
Definition initialAppComponent : AppComponent := {|
  pipeline := initialComponent;
  fileName := "";
  isParsing := false;
  mappedDimensionColumns := [];
  isModalOpen := false;
  modalTitle := "";
  modalResponses := [];
  selectedTopic := None;
  chatHistory := [];
  isChatbotLoading := false;
  recommendationFilterType := "";
  recommendationFilterValue := "";
  generatedRecommendations := "";
  isGeneratingRecommendations := false;
  trendChartType := lineChart;
  executiveSummary := "";
  isGeneratingSummary := false
|}.

(** Writes to groups of signals. *)
Definition withPipeline (app : AppComponent) (st : Component) : AppComponent :=
  {| pipeline := st;
     fileName := fileName app;
     isParsing := isParsing app;
     mappedDimensionColumns := mappedDimensionColumns app;
     isModalOpen := isModalOpen app;
     modalTitle := modalTitle app;
     modalResponses := modalResponses app;
     selectedTopic := selectedTopic app;
     chatHistory := chatHistory app;
     isChatbotLoading := isChatbotLoading app;
     recommendationFilterType := recommendationFilterType app;
     recommendationFilterValue := recommendationFilterValue app;
     generatedRecommendations := generatedRecommendations app;
     isGeneratingRecommendations := isGeneratingRecommendations app;
     trendChartType := trendChartType app;
     executiveSummary := executiveSummary app;
     isGeneratingSummary := isGeneratingSummary app |}.

Definition withUpload (app : AppComponent) (name : string) (parsing : bool)
    : AppComponent :=
  {| pipeline := pipeline app;
     fileName := name;
     isParsing := parsing;
     mappedDimensionColumns := mappedDimensionColumns app;
     isModalOpen := isModalOpen app;
     modalTitle := modalTitle app;
     modalResponses := modalResponses app;
     selectedTopic := selectedTopic app;
     chatHistory := chatHistory app;
     isChatbotLoading := isChatbotLoading app;
     recommendationFilterType := recommendationFilterType app;
     recommendationFilterValue := recommendationFilterValue app;
     generatedRecommendations := generatedRecommendations app;
     isGeneratingRecommendations := isGeneratingRecommendations app;
     trendChartType := trendChartType app;
     executiveSummary := executiveSummary app;
     isGeneratingSummary := isGeneratingSummary app |}.

Definition withDimensions (app : AppComponent) (dims : list string) : AppComponent :=
  {| pipeline := pipeline app;
     fileName := fileName app;
     isParsing := isParsing app;
     mappedDimensionColumns := dims;
     isModalOpen := isModalOpen app;
     modalTitle := modalTitle app;
     modalResponses := modalResponses app;
     selectedTopic := selectedTopic app;
     chatHistory := chatHistory app;
     isChatbotLoading := isChatbotLoading app;
     recommendationFilterType := recommendationFilterType app;
     recommendationFilterValue := recommendationFilterValue app;
     generatedRecommendations := generatedRecommendations app;
     isGeneratingRecommendations := isGeneratingRecommendations app;
     trendChartType := trendChartType app;
     executiveSummary := executiveSummary app;
     isGeneratingSummary := isGeneratingSummary app |}.

Definition withModal (app : AppComponent) (open : bool) (title : string)
    (responses : list AnalysisResult) : AppComponent :=
  {| pipeline := pipeline app;
     fileName := fileName app;
     isParsing := isParsing app;
     mappedDimensionColumns := mappedDimensionColumns app;
     isModalOpen := open;
     modalTitle := title;
     modalResponses := responses;
     selectedTopic := selectedTopic app;
     chatHistory := chatHistory app;
     isChatbotLoading := isChatbotLoading app;
     recommendationFilterType := recommendationFilterType app;
     recommendationFilterValue := recommendationFilterValue app;
     generatedRecommendations := generatedRecommendations app;
     isGeneratingRecommendations := isGeneratingRecommendations app;
     trendChartType := trendChartType app;
     executiveSummary := executiveSummary app;
     isGeneratingSummary := isGeneratingSummary app |}.

Definition withSelectedTopic (app : AppComponent) (topic : option string)
    : AppComponent :=
  {| pipeline := pipeline app;
     fileName := fileName app;
     isParsing := isParsing app;
     mappedDimensionColumns := mappedDimensionColumns app;
     isModalOpen := isModalOpen app;
     modalTitle := modalTitle app;
     modalResponses := modalResponses app;
     selectedTopic := topic;
     chatHistory := chatHistory app;
     isChatbotLoading := isChatbotLoading app;
     recommendationFilterType := recommendationFilterType app;
     recommendationFilterValue := recommendationFilterValue app;
     generatedRecommendations := generatedRecommendations app;
     isGeneratingRecommendations := isGeneratingRecommendations app;
     trendChartType := trendChartType app;
     executiveSummary := executiveSummary app;
     isGeneratingSummary := isGeneratingSummary app |}.

Definition withChat (app : AppComponent) (history : list ChatMessage) (loading : bool)
    : AppComponent :=
  {| pipeline := pipeline app;
     fileName := fileName app;
     isParsing := isParsing app;
     mappedDimensionColumns := mappedDimensionColumns app;
     isModalOpen := isModalOpen app;
     modalTitle := modalTitle app;
     modalResponses := modalResponses app;
     selectedTopic := selectedTopic app;
     chatHistory := history;
     isChatbotLoading := loading;
     recommendationFilterType := recommendationFilterType app;
     recommendationFilterValue := recommendationFilterValue app;
     generatedRecommendations := generatedRecommendations app;
     isGeneratingRecommendations := isGeneratingRecommendations app;
     trendChartType := trendChartType app;
     executiveSummary := executiveSummary app;
     isGeneratingSummary := isGeneratingSummary app |}.

Definition withRecommendations (app : AppComponent) (generated : string)
    (generating : bool) : AppComponent :=
  {| pipeline := pipeline app;
     fileName := fileName app;
     isParsing := isParsing app;
     mappedDimensionColumns := mappedDimensionColumns app;
     isModalOpen := isModalOpen app;
     modalTitle := modalTitle app;
     modalResponses := modalResponses app;
     selectedTopic := selectedTopic app;
     chatHistory := chatHistory app;
     isChatbotLoading := isChatbotLoading app;
     recommendationFilterType := recommendationFilterType app;
     recommendationFilterValue := recommendationFilterValue app;
     generatedRecommendations := generated;
     isGeneratingRecommendations := generating;
     trendChartType := trendChartType app;
     executiveSummary := executiveSummary app;
     isGeneratingSummary := isGeneratingSummary app |}.

Definition withSummary (app : AppComponent) (summary : string) (generating : bool)
    : AppComponent :=
  {| pipeline := pipeline app;
     fileName := fileName app;
     isParsing := isParsing app;
     mappedDimensionColumns := mappedDimensionColumns app;
     isModalOpen := isModalOpen app;
     modalTitle := modalTitle app;
     modalResponses := modalResponses app;
     selectedTopic := selectedTopic app;
     chatHistory := chatHistory app;
     isChatbotLoading := isChatbotLoading app;
     recommendationFilterType := recommendationFilterType app;
     recommendationFilterValue := recommendationFilterValue app;
     generatedRecommendations := generatedRecommendations app;
     isGeneratingRecommendations := isGeneratingRecommendations app;
     trendChartType := trendChartType app;
     executiveSummary := summary;
     isGeneratingSummary := generating |}.

Definition setRawCsvData (st : Component) (data : list (list string)) : Component :=
  {| appState := appState st;
     error := error st;
     rawCsvData := data;
     mappedTextColumn := mappedTextColumn st;
     mappedDateColumn := mappedDateColumn st;
     analysisResults := analysisResults st;
     analysisProgress := analysisProgress st;
     isAnalyzing := isAnalyzing st;
     filters := filters st;
     dateFilterStart := dateFilterStart st;
     dateFilterEnd := dateFilterEnd st;
     trendChartGroupBy := trendChartGroupBy st;
     trendChartPeriod := trendChartPeriod st |}.

Definition setError (st : Component) (message : string) : Component :=
  setPhase st (appState st) message (isAnalyzing st) (analysisProgress st).

Definition setAppState (st : Component) (phase : AppState) : Component :=
  setPhase st phase (error st) (isAnalyzing st) (analysisProgress st).

Definition setFilters (st : Component) (activeFilters : gmap string string)
    (startDate endDate : option Z) : Component :=
  {| appState := appState st;
     error := error st;
     rawCsvData := rawCsvData st;
     mappedTextColumn := mappedTextColumn st;
     mappedDateColumn := mappedDateColumn st;
     analysisResults := analysisResults st;
     analysisProgress := analysisProgress st;
     isAnalyzing := isAnalyzing st;
     filters := activeFilters;
     dateFilterStart := startDate;
     dateFilterEnd := endDate;
     trendChartGroupBy := trendChartGroupBy st;
     trendChartPeriod := trendChartPeriod st |}.

(** ** The upload: [handleFileUpload] *)

(** [s.endsWith(suffix)] *)
Definition endsWith (s suffix : string) : bool :=
  let n := String.length s in
  let k := String.length suffix in
  ((k <=? n)%nat && String.eqb (substring (n - k) k s) suffix)%bool.

(** The file of the input element: its name, and the text the [FileReader]
    delivers. *)
Record CsvFile := mkCsvFile {
  file_name : string;
  file_text : string
}.

Definition emptyFileMessage : string :=
  "The CSV file is empty or could not be parsed. Please check the file content.".

(** [reader.onload]. The [throw] in the [try] block is the only one, so the
    [catch] receives the error with [emptyFileMessage]; [finally] clears
    [isParsing]. *)
Definition onload (text : string) (app : AppComponent) : AppComponent :=
  let data := parseCsv text in
  let st := pipeline app in
  let st :=
    if ((length data =? 0)%nat || (length (hd [] data) =? 0)%nat)%bool
    then
      let message :=
        if nonEmpty emptyFileMessage then emptyFileMessage
        else "Failed to parse the file. Please ensure it is a valid, plain-text CSV." in
      setAppState (setError st message) upload
    else setAppState (setRawCsvData st data) mapping in
  withUpload (withPipeline app st) (fileName app) false.

(** [handleFileUpload], with the reader's [onload] run on the text of an
    accepted file. [file] is [input.files?.[0]]. *)
Definition handleFileUpload (file : option CsvFile) (app : AppComponent) : AppComponent :=
  match file with
  | Some f =>
      if endsWith (file_name f) ".csv"
      then
        onload (file_text f)
               (withPipeline (withUpload app (file_name f) true)
                             (setError (pipeline app) ""))
      else withPipeline app (setError (pipeline app) "Please upload a valid .csv file.")
  | None => withPipeline app (setError (pipeline app) "Please upload a valid .csv file.")
  end.

(** ** The handlers of the mapping and results views *)

(** [updateFilter]: [value] is the value of the select element. *)
Definition updateFilter (dimension value : string) (st : Component) : Component :=
  setFilters st (<[dimension := value]> (filters st)) (dateFilterStart st) (dateFilterEnd st).

(** The update function of [toggleDimension]. *)
Definition toggle (header : string) (dims : list string) : list string :=
  if existsb (String.eqb header) dims
  then List.filter (fun d => negb (String.eqb d header)) dims
  else dims ++ [header].

Definition toggleDimension (header : string) (app : AppComponent) : AppComponent :=
  withDimensions app (toggle header (mappedDimensionColumns app)).

Definition openVerbatimModal (title : string) (responses : list AnalysisResult)
    (app : AppComponent) : AppComponent :=
  withModal app true title responses.

Definition resetTopicView (app : AppComponent) : AppComponent :=
  withSelectedTopic app None.

Definition resetDateFilter (st : Component) : Component :=
  setFilters st (filters st) None None.

Definition resetApp (app : AppComponent) : AppComponent :=
  {| pipeline :=
       {| appState := upload;
          error := "";
          rawCsvData := [];
          mappedTextColumn := "";
          mappedDateColumn := "";
          analysisResults := [];
          analysisProgress := 0;
          isAnalyzing := false;
          filters := ∅;
          dateFilterStart := None;
          dateFilterEnd := None;
          trendChartGroupBy := trendChartGroupBy (pipeline app);
          trendChartPeriod := trendChartPeriod (pipeline app) |};
     fileName := "";
     isParsing := false;
     mappedDimensionColumns := [];
     isModalOpen := isModalOpen app;
     modalTitle := modalTitle app;
     modalResponses := modalResponses app;
     selectedTopic := None;
     chatHistory := [];
     isChatbotLoading := isChatbotLoading app;
     recommendationFilterType := "";
     recommendationFilterValue := "";
     generatedRecommendations := "";
     isGeneratingRecommendations := false;
     trendChartType := trendChartType app;
     executiveSummary := "";
     isGeneratingSummary := false |}.

(** ** The other computed signals *)

(** [availableDimensions] *)
Definition availableDimensions (st : Component) : list string :=
  List.filter (fun h => negb (String.eqb h (mappedTextColumn st))
                        && negb (String.eqb h (mappedDateColumn st)))
              (headers st).

(** ToString *)
Definition ToString `{Engine} (v : Value) : string :=
  match v with
  | VUndefined => "undefined"
  | VString s => s
  | VNumber x => Number_toString x
  | VArray xs => join "," xs
  | VDate t => Date_toString t
  | VObject _ => "[object Object]"
  end.

(** SameValueZero, the equality of a [Set]. An object is equal to itself
    only; the objects that two records hold ([analysis], [date]) are never
    the same object. *)
Definition sameValueZero (a b : Value) : bool :=
  match a, b with
  | VUndefined, VUndefined => true
  | VString s, VString t => String.eqb s t
  | VNumber x, VNumber y => Qeq_bool x y
  | _, _ => false
  end.

(** [values.add(v)] on the elements of a [Set], in insertion order. *)
Definition addValue (values : list Value) (v : Value) : list Value :=
  if existsb (sameValueZero v) values then values else values ++ [v].

(** [xs.sort()] without a comparator: by the strings of the elements, code
    unit by code unit; the sort is stable. *)
Fixpoint insertValue `{Engine} (v : Value) (l : list Value) : list Value :=
  match l with
  | [] => [v]
  | y :: rest =>
      if JsString.ltb (ToString y) (ToString v) then y :: insertValue v rest
      else v :: l
  end.

Definition sortValues `{Engine} (l : list Value) : list Value :=
  fold_right insertValue [] l.

(** The body of [dimensions.forEach] in [availableFilters]: the sorted
    distinct truthy values of the property [dim]. *)
Definition dimensionValues `{Engine} (rs : list AnalysisResult) (dim : string)
    : list Value :=
  sortValues
    (fold_left (fun values r => if truthy (get r dim) then addValue values (get r dim)
                                else values) rs []).

(** [availableFilters], for the mapped dimensions [dimensions]. *)
Definition availableFilters `{Engine} (st : Component) (dimensions : list string)
    : gmap string (list Value) :=
  if (length dimensions =? 0)%nat then ∅
  else
    fold_left (fun table dim => <[dim := dimensionValues (analysisResults st) dim]> table)
              dimensions ∅.

(** [d.getTime()]: [None] (a TypeError) when [d] is not a [Date]. *)
Definition getTime (d : Value) : option Z :=
  match d with
  | VDate t => Some t
  | _ => None
  end.

(** [dates.map(d => d.getTime())] *)
Fixpoint getTimes (ds : list Value) : option (list Z) :=
  match ds with
  | [] => Some []
  | d :: rest =>
      match getTime d, getTimes rest with
      | Some t, Some ts => Some (t :: ts)
      | _, _ => None
      end
  end.

(** [this.analysisResults().map(r => r.date).filter(d => !!d)] *)
Definition truthyDates (st : Component) : list Value :=
  List.filter truthy (List.map (fun r => get r "date") (analysisResults st)).

(** [minDate] and [maxDate]: the outer [None] is a TypeError, the inner one
    is [null]. [Math.min] and [Math.max] receive at least one time value,
    and no more than the engine accepts as arguments. *)
Definition minDate (st : Component) : option (option Z) :=
  let ds := truthyDates st in
  if (length ds =? 0)%nat then Some None
  else
    match getTimes ds with
    | Some (t :: ts) => Some (Some (fold_left Z.min ts t))
    | Some [] => Some None
    | None => None
    end.

Definition maxDate (st : Component) : option (option Z) :=
  let ds := truthyDates st in
  if (length ds =? 0)%nat then Some None
  else
    match getTimes ds with
    | Some (t :: ts) => Some (Some (fold_left Z.max ts t))
    | Some [] => Some None
    | None => None
    end.

(** [sentimentCounts], [sentimentTotal], [intentCounts], [totalResponses] *)
Definition sentimentCounts `{Engine} (st : Component) : Counts :=
  getCounts (filteredAnalysisResults st) FSentiment None.

Definition sentimentTotal `{Engine} (st : Component) : nat :=
  fold_left (fun acc curr => (acc + snd curr)%nat) (sentimentCounts st) 0%nat.

Definition intentCounts `{Engine} (st : Component) : Counts :=
  getCounts (filteredAnalysisResults st) FIntent None.

Definition totalResponses `{Engine} (st : Component) : nat :=
  length (filteredAnalysisResults st).

(** [r.analysis?.topics?.[0]] *)
Definition mainTopic (r : AnalysisResult) : Value :=
  match getProp (get r "analysis") "topics" with
  | VArray (t :: _) => VString t
  | _ => VUndefined
  end.

(** The callback of [forEach] in [topicCounts]. *)
Definition countMainTopic (counts : Counts) (r : AnalysisResult) : Counts :=
  match mainTopic r with
  | VString t => if nonEmpty t then bump counts t else counts
  | _ => counts
  end.

(** [topicCounts] *)
Definition topicCounts `{Engine} (st : Component) : Counts :=
  let counts := fold_left countMainTopic (filteredAnalysisResults st) [] in
  let sorted := sortDesc snd (Object_entries counts) in
  rev (slice0 sorted 10).

(** The callback of [forEach] in [topicChartData]: the record counts when
    its first topic is [topic] and it has a second one. *)
Definition countSubTopic (topic : string) (counts : Counts) (r : AnalysisResult)
    : Counts :=
  match getProp (get r "analysis") "topics" with
  | VArray (t :: subTopic :: _) =>
      if String.eqb t topic then bump counts subTopic else counts
  | _ => counts
  end.

(** [topicChartData], for the value [topic] of [selectedTopic]. *)
Definition topicChartData `{Engine} (st : Component) (topic : option string) : Counts :=
  match topic with
  | Some t =>
      if negb (nonEmpty t) then topicCounts st
      else
        let subTopicCounts :=
          fold_left (countSubTopic t) (filteredAnalysisResults st) [] in
        let sorted := sortDesc snd (Object_entries subTopicCounts) in
        rev (slice0 sorted 10)
  | None => topicCounts st
  end.

(** [map.get(intent).push(r)], after [map.set(intent, [])] for a key that is
    not there; a [Map] keeps its keys in insertion order. *)
Fixpoint pushTo (key : string) (r : AnalysisResult)
    (map : list (string * list AnalysisResult)) : list (string * list AnalysisResult) :=
  match map with
  | [] => [(key, [r])]
  | (k, rs) :: rest =>
      if String.eqb k key then (k, rs ++ [r]) :: rest
      else (k, rs) :: pushTo key r rest
  end.

(** [intentMap] *)
Definition intentMap `{Engine} (st : Component) : list (string * list AnalysisResult) :=
  fold_left (fun map r =>
               match getProp (get r "analysis") "intent" with
               | VString i => if nonEmpty i then pushTo i r map else map
               | _ => map
               end)
            (filteredAnalysisResults st) [].

(** [map.get(key)] *)
Fixpoint mapGet (map : list (string * list AnalysisResult)) (key : string)
    : option (list AnalysisResult) :=
  match map with
  | [] => None
  | (k, rs) :: rest => if String.eqb k key then Some rs else mapGet rest key
  end.

(** ** GeminiService: the constructor and the text functions *)


(** What a call of [generateContent] for a text ends in. *)
Inductive TextOutcome :=
| TextReturns (responseText : string)
| TextThrows (e : Thrown).

(** [this.ai] as the text functions use it: [generateContent] on a prompt,
    without a schema. *)
Record TextService := mkTextService { textClient : option (string -> TextOutcome) }.

(** [JSON.stringify] on an array of records. *)
Class Json := { JSON_stringify : list AnalysisResult -> string }.

(** [error?.message || 'Unknown issue'] *)
Definition messageOrUnknown (e : Thrown) : string :=
  match e with
  | ThrownError m => if nonEmpty m then m else "Unknown issue"
  | ThrownString _ | ThrownOther => "Unknown issue"
  end.

(** The number of elements of an array, as a template prints it. *)
Definition lengthText `{Engine} {A} (xs : list A) : string :=
  Number_toString (inject_Z (Z.of_nat (length xs))).

Definition chatbotPrompt_1 : string :=
  "
      System Instruction: You are an expert survey data analyst AI. Your primary goal is to provide detailed, grounded, and well-structured answers based *only* on the provided JSON data. **Your entire response MUST be valid HTML.** You must adhere to the specified HTML output format strictly. Do not use Markdown.

      User Prompt:
      Based *only* on the customer feedback data provided below in JSON format, answer the following question.

      **Data:**
      ".

Definition chatbotPrompt_2 : string :=
  " <!-- Limit context size -->

      **Question:**
      ".

Definition chatbotPrompt_3 : string :=
  "

      **Required HTML Output Format (Follow this precisely):**
      1.  <strong>Summary:</strong> Begin with a concise, analytical summary that directly answers the user's question. This should be a 2-4 sentence synthesis of the findings. Quantify your findings where possible (e.g., "
  +:+ String DQUOTE EmptyString
  +:+ "Based on the <strong>5</strong> relevant responses, the primary issue is..."
  +:+ String DQUOTE EmptyString
  +:+ "). Use <strong> HTML tags to make numbers bold.
      2.  <strong>Detailed Breakdown:</strong> Under this header, provide a more exhaustive explanation using an unordered list (<ul><li>...</li></ul>).
      3.  <strong>Supporting Evidence:</strong> Under this header, list up to 3 of the most relevant feedback entries as an ordered list (<ol><li>...</li></ol>).
          *   Each item must be formatted exactly as: <li>(Row 42) <em>"
  +:+ String DQUOTE EmptyString
  +:+ "The redacted verbatim excerpt..."
  +:+ String DQUOTE EmptyString
  +:+ "</em> - Confidence: 92%</li>
          *   Use <em> HTML tags for the excerpt.
      4.  <strong>Conclusion:</strong> If applicable, provide a concluding sentence.
      5.  <strong>Audit Trail:</strong> Conclude with two separate lines, exactly as follows:
          <p>Source rows: [row_id_1, row_id_2, ...]</p>
          <p>Query confidence: [a percentage from 0-100 representing your confidence in the answer's relevance and accuracy based on the provided data]</p>
      6.  <strong>No Data:</strong> If no relevant data is found to answer the question, your entire response must be only: "
  +:+ String DQUOTE EmptyString
  +:+ "<p>I could not find any relevant feedback in the provided data to answer your question.</p>"
  +:+ String DQUOTE EmptyString
  +:+ "
    ".

Definition recommendationsPrompt_1 : string :=
  "
      System Instruction: You are a senior business strategist and operations analyst AI. Your task is to generate actionable, plausible, and data-driven recommendations based on a specific subset of customer feedback. You must ground every recommendation in the provided data. **Your entire response MUST be valid HTML.** Do not use Markdown.

      **Provided Data (A subset of survey responses focusing on ".

Definition recommendationsPrompt_2 : string :=
  "):**
      ".

Definition recommendationsPrompt_3 : string :=
  " <!-- Limit context size -->

      **Task:**
      Analyze the provided feedback to identify the root causes of customer sentiment. Based *only* on this data, generate a set of actionable recommendations to address the issues or amplify the positives.

      **Required HTML Output Format (Follow this precisely):**

      <h3>Actionable Recommendations for ".

Definition recommendationsPrompt_4 : string :=
  "</h3>

      <strong>1. Recommendation Title (e.g., Improve Proactive Communication on Shipping Delays)</strong>
      <ul>
        <li><strong>Justification:</strong> Explain *why* this recommendation is necessary, citing evidence from the data. Quantify if possible (e.g., "
  +:+ String DQUOTE EmptyString
  +:+ "<strong>7</strong> out of the <strong>10</strong> provided negative comments explicitly mention frustration with a lack of updates on their order status."
  +:+ String DQUOTE EmptyString
  +:+ "). Use <em> for direct quotes.</li>
        <li><strong>Proposed Action:</strong> Describe a concrete, plausible action that could be taken (e.g., "
  +:+ String DQUOTE EmptyString
  +:+ "Implement an automated email/SMS notification system that alerts customers when their package has been delayed by more than 24 hours from the original estimate."
  +:+ String DQUOTE EmptyString
  +:+ ").</li>
      </ul>

      <strong>2. Recommendation Title (e.g., Review Packaging Standards for Fragile Items)</strong>
      <ul>
       <li><strong>Justification:</strong> ...</li>
       <li><strong>Proposed Action:</strong> ...</li>
      </ul>

      (Generate 2-4 distinct recommendations based on the most prominent themes in the data.)

      <p><strong>Concluding Summary:</strong>
      Provide a brief concluding paragraph that summarizes the strategic importance of addressing this feedback.</p>

      <strong>Constraint:</strong> Do NOT invent information or suggest actions that cannot be directly linked to the provided customer quotes. The goal is data-driven advice, not speculation.
    ".

Definition summaryPrompt_1 : string :=
  "
      System Instruction: You are a senior data analyst AI. Your task is to generate a concise, analytical, and data-driven executive summary based on the provided customer feedback data. **Your entire response MUST be valid HTML.** Do not use Markdown.

      **Provided Data (A subset of survey responses from: ".

Definition summaryPrompt_2 : string :=
  "):**
      ".

Definition summaryPrompt_3 : string :=
  " <!-- Limit context size -->

      **Task:**
      Analyze the provided feedback to identify the most significant trends, themes, and sentiments. Generate a concise executive summary of 100-150 words using bullet points for readability.

      **Required HTML Output Format (Follow this precisely):**
      
      <h4>Executive Summary</h4>
      <p>Based on the analysis of <strong>".

Definition summaryPrompt_4 : string :=
  "</strong> responses:</p>
      <ul>
        <li>
          Start with a key finding. For example: "
  +:+ String DQUOTE EmptyString
  +:+ "Negative sentiment comprises <strong>45%</strong> of the feedback, primarily driven by '<strong>Delivery & Logistics</strong>' issues."
  +:+ String DQUOTE EmptyString
  +:+ "
          <ul>
            <li>Use sub-bullets for supporting details. For example: "
  +:+ String DQUOTE EmptyString
  +:+ "Within this topic, '<strong>Delivery speed</strong>' was mentioned in <strong>15</strong> distinct complaints, making it the most critical sub-topic."
  +:+ String DQUOTE EmptyString
  +:+ "</li>
          </ul>
        </li>
        <li>
          Provide another distinct insight. For example: "
  +:+ String DQUOTE EmptyString
  +:+ "Positive feedback (<strong>35%</strong>) is strongly associated with '<strong>Product Experience</strong>', with '<strong>Product quality</strong>' frequently cited as a driver of praise."
  +:+ String DQUOTE EmptyString
  +:+ "
        </li>
        <li>
          Mention any other significant patterns, for example, related to '<strong>intent</strong>'. "
  +:+ String DQUOTE EmptyString
  +:+ "The most common intent is '<strong>complaint</strong>' (<strong>50%</strong>), followed by '<strong>feedback</strong>' (<strong>25%</strong>)."
  +:+ String DQUOTE EmptyString
  +:+ "
        </li>
      </ul>
      <p>
        <strong>Key Insight:</strong> Conclude with the single most important, actionable insight a business leader should take away from this data subset.
      </p>

      <strong>Constraint:</strong> Ground ALL statements and numbers directly in the provided data. Do not speculate or invent information. Use <strong> tags for all numbers, percentages, topics, intents, and other significant keywords.
    ".

(** The prompts, with the texts above as the fixed parts of the templates. *)
Definition chatbotPrompt `{Json} (query : string) (context : list AnalysisResult)
    : string :=
  chatbotPrompt_1 +:+ JSON_stringify (slice0 context 200)
  +:+ chatbotPrompt_2 +:+ query +:+ chatbotPrompt_3.

Definition recommendationsPrompt `{Json} (context : list AnalysisResult)
    (filterDescription : string) : string :=
  recommendationsPrompt_1 +:+ filterDescription
  +:+ recommendationsPrompt_2 +:+ JSON_stringify (slice0 context 200)
  +:+ recommendationsPrompt_3 +:+ filterDescription +:+ recommendationsPrompt_4.

Definition summaryPrompt `{Engine} `{Json} (context : list AnalysisResult)
    (filterDescription : string) : string :=
  summaryPrompt_1 +:+ filterDescription
  +:+ summaryPrompt_2 +:+ JSON_stringify (slice0 context 250)
  +:+ summaryPrompt_3 +:+ lengthText context +:+ summaryPrompt_4.

(** The three text functions: [None] when the function throws (no client),
    otherwise the string it resolves to. *)
Definition getChatbotResponse `{Json} (svc : TextService) (query : string)
    (context : list AnalysisResult) : option string :=
  match textClient svc with
  | None => None
  | Some generateContent =>
      Some match generateContent (chatbotPrompt query context) with
           | TextReturns t => t
           | TextThrows e =>
               "Sorry, I encountered an error while processing your request: "
               +:+ messageOrUnknown e
           end
  end.

Definition generateRecommendations `{Json} (svc : TextService)
    (context : list AnalysisResult) (filterDescription : string) : option string :=
  match textClient svc with
  | None => None
  | Some generateContent =>
      Some match generateContent (recommendationsPrompt context filterDescription) with
           | TextReturns t => t
           | TextThrows e =>
               "Sorry, I encountered an error while generating recommendations: "
               +:+ messageOrUnknown e
           end
  end.

Definition generateExecutiveSummary `{Engine} `{Json} (svc : TextService)
    (context : list AnalysisResult) (filterDescription : string) : option string :=
  match textClient svc with
  | None => None
  | Some generateContent =>
      Some match generateContent (summaryPrompt context filterDescription) with
           | TextReturns t => t
           | TextThrows e =>
               "<p>Sorry, I encountered an error while generating the summary: "
               +:+ messageOrUnknown e +:+ "</p>"
           end
  end.

(** ** The chatbot and the recommendations *)

(** [handleChatSubmit] up to its [await]: [None] when it returns at the
    guard, otherwise the query and the component with the user's message.
    [inputValue] is the value of the form's input. *)
Definition chatSubmitted (inputValue : string) (app : AppComponent)
    : option (string * AppComponent) :=
  let query := trim inputValue in
  if (negb (nonEmpty query) || isChatbotLoading app)%bool then None
  else Some (query,
             withChat app (chatHistory app ++ [mkChatMessage user query]) true).

(** [handleChatSubmit] after the [await], for the outcome [botResponse] of
    [getChatbotResponse] ([None] when it threw): the [try], the [catch] and
    the [finally]. *)
Definition chatAnswered (botResponse : option string) (app : AppComponent)
    : AppComponent :=
  let reply :=
    match botResponse with
    | Some t => t
    | None => "Sorry, an error occurred."
    end in
  withChat app (chatHistory app ++ [mkChatMessage bot reply]) false.

(** [handleChatSubmit], no other handler running during the [await]. *)
Definition handleChatSubmit `{Engine} `{Json} (svc : TextService) (inputValue : string)
    (app : AppComponent) : AppComponent :=
  match chatSubmitted inputValue app with
  | None => app
  | Some (query, app') =>
      chatAnswered
        (getChatbotResponse svc query (filteredAnalysisResults (pipeline app'))) app'
  end.

(** The records [onGenerateRecommendations] hands to the service. *)
Definition recommendationContext `{Engine} (st : Component) (type value : string)
    : list AnalysisResult :=
  List.filter (fun r => truthy (get r "analysis")
                        && strictEqString (getProp (get r "analysis") type) value)
              (filteredAnalysisResults st).

(** [onGenerateRecommendations], no other handler running during the
    [await]. *)
Definition onGenerateRecommendations `{Engine} `{Json} (svc : TextService)
    (app : AppComponent) : AppComponent :=
  let type := recommendationFilterType app in
  let value := recommendationFilterValue app in
  if (negb (nonEmpty type) || negb (nonEmpty value))%bool then app
  else
    let context := recommendationContext (pipeline app) type value in
    let filterDescription := "feedback with '" +:+ value +:+ "' " +:+ type in
    let response :=
      match generateRecommendations svc context filterDescription with
      | Some t => t
      | None => "Sorry, an error occurred while generating recommendations."
      end in
    withRecommendations app response false.

(** ** SafeHtmlPipe: [transform] ([safe-html.pipe.ts]) *)

Module SafeHtml.

(** LineTerminator code units below 256. *)
Definition isLineTerminator (c : ascii) : bool :=
  (Ascii.eqb c LF || Ascii.eqb c CR)%bool.

(** [s.startsWith(p)], and [s] without its first [n] code units. *)
Definition startsWith (s p : string) : bool := String.prefix p s.

Fixpoint dropChars (n : nat) (s : string) : string :=
  match n, s with
  | S k, String _ r => dropChars k r
  | _, _ => s
  end.

(** What [.*] takes at the start of [s]: the code units up to the next line
    terminator. The [$] that follows holds there. *)
Fixpoint restOfLine (s : string) : string :=
  match s with
  | EmptyString => EmptyString
  | String c r => if isLineTerminator c then EmptyString else String c (restOfLine r)
  end.

(** [s.replace(/^M (.*$)/gim, OPEN $1 CLOSE)] for a heading marker [marker]
    (the hashes and the space), from a position of [s] on: [atLineStart]
    tells whether [^] holds there, and [skip] counts the code units of the
    last match that are still to be passed over. *)
Fixpoint replaceHeading (marker opening closing : string) (s : string)
    (atLineStart : bool) (skip : nat) : string :=
  match s with
  | EmptyString => EmptyString
  | String c r =>
      match skip with
      | S k => replaceHeading marker opening closing r (isLineTerminator c) k
      | O =>
          if (atLineStart && startsWith s marker)%bool then
            let captured := restOfLine (dropChars (String.length marker) s) in
            opening +:+ captured +:+ closing
            +:+ replaceHeading marker opening closing r (isLineTerminator c)
                  (String.length marker + String.length captured - 1)
          else String c (replaceHeading marker opening closing r (isLineTerminator c) 0)
      end
  end.

(** What the lazy [(.*?)] captures at the start of [s] when [delimiter] is
    to follow: the shortest run without a line terminator after which
    [delimiter] stands; [None] when there is no such run. *)
Fixpoint lazyUntil (delimiter : string) (s : string) : option string :=
  if startsWith s delimiter then Some EmptyString
  else
    match s with
    | EmptyString => None
    | String c r =>
        if isLineTerminator c then None
        else option_map (String c) (lazyUntil delimiter r)
    end.

(** [s.replace(/D(.*?)D/gim, OPEN $1 CLOSE)] for a delimiter [delimiter] of
    asterisks, from a position of [s] on. *)
Fixpoint replaceDelimited (delimiter opening closing : string) (s : string)
    (skip : nat) : string :=
  match s with
  | EmptyString => EmptyString
  | String c r =>
      match skip with
      | S k => replaceDelimited delimiter opening closing r k
      | O =>
          let unchanged := String c (replaceDelimited delimiter opening closing r 0) in
          if startsWith s delimiter then
            match lazyUntil delimiter (dropChars (String.length delimiter) s) with
            | Some captured =>
                opening +:+ captured +:+ closing
                +:+ replaceDelimited delimiter opening closing r
                      (2 * String.length delimiter + String.length captured - 1)
            | None => unchanged
            end
          else unchanged
      end
  end.

(** [s.replace(/\n/g, BR)] *)
Fixpoint lineBreaks (s : string) : string :=
  match s with
  | EmptyString => EmptyString
  | String c r => if Ascii.eqb c LF then "<br>" +:+ lineBreaks r else String c (lineBreaks r)
  end.

(** [transform]: the string handed to [bypassSecurityTrustHtml], which
    marks it as trusted and changes nothing in it. *)
Definition transform (value : option string) : string :=
  match value with
  | None => ""
  | Some v =>
      if negb (nonEmpty v) then ""
      else
        let h3 := replaceHeading "### " "<h3>" "</h3>" v true 0 in
        let h2 := replaceHeading "## " "<h2>" "</h2>" h3 true 0 in
        let h1 := replaceHeading "# " "<h1>" "</h1>" h2 true 0 in
        let bold := replaceDelimited "**" "<strong>" "</strong>" h1 0 in
        let italic := replaceDelimited "*" "<em>" "</em>" bold 0 in
        lineBreaks italic
  end.

End SafeHtml.

(** ** Notions for the statements about the rest of the component *)

(** A text has a line that is not blank. *)
Definition hasContent (text : string) : Prop :=
  exists line, In line (splitLines text EmptyString) /\ trim line <> "".

(** A string without a line break. *)
Definition oneLine (s : string) : bool :=
  (negb (includes s LF) && negb (includes s CR))%bool.

(** A string the export writes as it is when it is a cell, and must be for a
    header to stay one field: no comma and no double quote. *)
Definition plain (s : string) : bool :=
  (negb (includes s COMMA) && negb (includes s DQUOTE))%bool.

(** The table an exported text stands for: the header row, and for every
    filtered result the texts of its cells; [parseCsv] trims what it reads. *)
Definition exportedTable `{Engine} (st : Component) : list (list string) :=
  List.map trim (["rowId"] ++ headers st ++ analysisHeaders)
  :: List.map (fun res => List.map (fun c => trim (cellText c)) (rowData (headers st) res))
       (filteredAnalysisResults st).

(** What follows a field in a line: nothing, or a comma. *)
Definition fieldEnd (rest : string) : Prop :=
  rest = EmptyString \/ exists rest', rest = String COMMA rest'.

(** The scanner reads the written form [e] of a cell with text [t] back as
    [t]. *)
Definition encodes (e t : string) : Prop :=
  (e = t /\ plain t = true)
  \/ e = String DQUOTE (doubleQuotes t +:+ String DQUOTE EmptyString).

(** The record adds to the counters of [field]. *)
Definition hasValue (field : Field) (r : AnalysisResult) : bool :=
  match countedValues field r with
  | [] => false
  | _ => true
  end.

(** The first two topics of the record are [topic] and [subTopic]. *)
Definition subTopicIs (topic subTopic : string) (r : AnalysisResult) : bool :=
  match countedValues FTopics r with
  | t :: s :: _ => String.eqb t topic && String.eqb s subTopic
  | _ => false
  end.

(** The record was classified with the intent [i]. *)
Definition intentIs (i : string) (r : AnalysisResult) : bool :=
  strictEqString (getProp (get r "analysis") "intent") i.

(** The values by which a record adds to the counters of [topicCounts] and
    of [topicChartData]. *)
Definition mainTopicValues (r : AnalysisResult) : list string :=
  match mainTopic r with
  | VString t => if nonEmpty t then [t] else []
  | _ => []
  end.

Definition subTopicValues (topic : string) (r : AnalysisResult) : list string :=
  match getProp (get r "analysis") "topics" with
  | VArray (t :: subTopic :: _) => if String.eqb t topic then [subTopic] else []
  | _ => []
  end.

(** The ten largest entries of the table of counters of [values], smallest
    first, as the two topic charts take them. *)
Definition topTen (values : list string) : Counts :=
  rev (slice0 (sortDesc snd (Object_entries (fold_left bump values []))) 10).

(** The dates of the records that have one, in order. *)
Definition datesOf (rs : list AnalysisResult) : list Z := omap dateOf rs.

(** A value of a filter that makes it active. *)
Definition activeValue (value : string) : bool :=
  (nonEmpty value && negb (String.eqb value "all"))%bool.


(** A text without markup of the pipe: no hash, no asterisk, no line break. *)
Definition unmarked (s : string) : bool :=
  (negb (includes s "#"%char) && negb (includes s "*"%char)
   && negb (includes s LF) && negb (includes s CR))%bool.

(** A component in the results view with the results [rs], one column
    mapped as the text, and no filter. *)
Definition resultsView (rs : list AnalysisResult) : Component := {|
  appState := results;
  error := "";
  rawCsvData := [["text"; "region"]];
  mappedTextColumn := "text";
  mappedDateColumn := "";
  analysisResults := rs;
  analysisProgress := 100;
  isAnalyzing := false;
  filters := ∅;
  dateFilterStart := None;
  dateFilterEnd := None;
  trendChartGroupBy := bySentiment;
  trendChartPeriod := day
|}.

(** A result of the example whose text needs quotes in an export: it holds
    a comma and a quoted word. *)
Definition quotedResult : AnalysisResult :=
  {[ "rowId" := VNumber 2;
     "text" := VString ("Slow, " +:+ String DQUOTE ("late" +:+ String DQUOTE EmptyString));
     "region" := VString "north";
     "analysis" := VObject (Classified sampleAnalysis) ]}.

(** An encoder for the examples: it prints the number of the records. *)
Definition countJson : Json :=
  {| JSON_stringify := fun rs => digitsOf 40 (N.of_nat (length rs)) "" |}.

(** ** [dateToInputFormat] *)

(** The date of a time value in UTC, as ECMAScript defines it, and
    [Date.prototype.toISOString] on a valid date. *)
Module JsIso.

Definition Day (t : Z) : Z := t / JsDate.msPerDay.

(** The year [y] with [DayFromYear y <= Day t < DayFromYear (y + 1)]: one
    of the three years around the estimate over the 400-year cycle of
    146097 days. *)
Definition YearFromTime (t : Z) : Z :=
  let d := Day t in
  let estimate := 1970 + (400 * d) / 146097 in
  if JsDate.DayFromYear (estimate + 1) <=? d then estimate + 1
  else if JsDate.DayFromYear estimate <=? d then estimate
  else estimate - 1.

Definition DayWithinYear (t : Z) : Z :=
  Day t - JsDate.DayFromYear (YearFromTime t).

Definition MonthFromTime (t : Z) : Z :=
  let leap := JsDate.InLeapYear (YearFromTime t) in
  let dayWithinYear := DayWithinYear t in
  if dayWithinYear <? 31 then 0
  else if dayWithinYear <? 59 + leap then 1
  else if dayWithinYear <? 90 + leap then 2
  else if dayWithinYear <? 120 + leap then 3
  else if dayWithinYear <? 151 + leap then 4
  else if dayWithinYear <? 181 + leap then 5
  else if dayWithinYear <? 212 + leap then 6
  else if dayWithinYear <? 243 + leap then 7
  else if dayWithinYear <? 273 + leap then 8
  else if dayWithinYear <? 304 + leap then 9
  else if dayWithinYear <? 334 + leap then 10
  else 11.

Definition DateFromTime (t : Z) : Z :=
  DayWithinYear t
  - JsDate.DayWithinYearOfMonth (YearFromTime t) (MonthFromTime t) + 1.

Definition HourFromTime (t : Z) : Z := (t / 3600000) mod 24.
Definition MinFromTime (t : Z) : Z := (t / 60000) mod 60.
Definition SecFromTime (t : Z) : Z := (t / 1000) mod 60.
Definition msFromTime (t : Z) : Z := t mod 1000.

(** An integer that is not negative, in decimal. *)
Definition decimal (n : Z) : string := digitsOf 40 (Z.to_N n) "".

Fixpoint zeros (k : nat) (s : string) : string :=
  match k with
  | O => s
  | S k' => String "0" (zeros k' s)
  end.

(** [s.padStart(width, '0')] *)
Definition padStart (width : nat) (s : string) : string :=
  zeros (width - String.length s) s.

(** The year: four digits from 0 to 9999, otherwise a sign and six digits. *)
Definition yearText (y : Z) : string :=
  if ((0 <=? y) && (y <=? 9999))%bool then padStart 4 (decimal y)
  else (if y <? 0 then "-" else "+") +:+ padStart 6 (decimal (Z.abs y)).

Definition toISOString (t : Z) : string :=
  yearText (YearFromTime t) +:+ "-" +:+ padStart 2 (decimal (MonthFromTime t + 1))
  +:+ "-" +:+ padStart 2 (decimal (DateFromTime t))
  +:+ "T" +:+ padStart 2 (decimal (HourFromTime t))
  +:+ ":" +:+ padStart 2 (decimal (MinFromTime t))
  +:+ ":" +:+ padStart 2 (decimal (SecFromTime t))
  +:+ "." +:+ padStart 3 (decimal (msFromTime t)) +:+ "Z".

End JsIso.

(** [s.split(sep)[0]] for a separator of one character: what stands before
    its first occurrence, the whole of [s] when there is none. *)
Fixpoint firstPart (sep : ascii) (s : string) : string :=
  match s with
  | EmptyString => EmptyString
  | String c rest => if Ascii.eqb c sep then EmptyString else String c (firstPart sep rest)
  end.

(** [dateToInputFormat]: [None] is [null]; a date is a valid one. *)
Definition dateToInputFormat (date : option Z) : string :=
  match date with
  | None => ""
  | Some t => firstPart "T" (JsIso.toISOString t)
  end.

(** The days of month [m] (1 to 12) of year [y]. *)
Definition daysInMonth (y m : Z) : Z :=
  if m =? 2 then 28 + JsDate.InLeapYear y
  else if ((m =? 4) || (m =? 6) || (m =? 9) || (m =? 11))%bool then 30
  else 31.

(** The text of the day [d] of month [m] of year [y]. *)
Definition isoDay (y m d : Z) : string :=
  JsIso.yearText y +:+ "-" +:+ JsIso.padStart 2 (JsIso.decimal m)
  +:+ "-" +:+ JsIso.padStart 2 (JsIso.decimal d).

(** An engine like [utcEngine] in a zone [offset] milliseconds ahead of
    UTC. *)
Definition zoneEngine (offset : Z) : Engine := {|
  Date_parse := fun _ => None;
  LocalTZA := fun _ => offset;
  Number_toString := @Number_toString utcEngine;
  Date_toString := @Date_toString utcEngine;
  String_ltDate := fun _ _ => false;
  String_gtDate := fun _ _ => false;
  Number := Q;
  Number_of_Z := inject_Z;
  Number_div := Qdiv;
  Number_mul := Qmult;
  Number_value := fun x => x
|}.

(** * Properties *)

(** ** Strings *)

Lemma append_cons (d : ascii) (s t : string) : String d s +:+ t = String d (s +:+ t).
Proof. reflexivity. Qed.

Lemma append_nil_l (t : string) : EmptyString +:+ t = t.
Proof. reflexivity. Qed.

Ltac string_simpl := simpl; rewrite ?append_cons, ?append_nil_l; simpl.

Lemma push_append (s : string) (c : ascii) : push s c = s +:+ String c EmptyString.
Proof. induction s as [|d s IH]; string_simpl; [reflexivity | now rewrite IH]. Qed.

Lemma append_empty_r (s : string) : s +:+ EmptyString = s.
Proof. induction s as [|d s IH]; string_simpl; [reflexivity | now rewrite IH]. Qed.

Lemma append_assoc (a b c : string) : (a +:+ b) +:+ c = a +:+ (b +:+ c).
Proof. induction a as [|d a IH]; string_simpl; [reflexivity | now rewrite IH]. Qed.

Lemma push_then_append (s : string) (c : ascii) (t : string) :
  push s c +:+ t = s +:+ String c t.
Proof. now rewrite push_append, append_assoc. Qed.

Lemma includes_append (a b : string) (c : ascii) :
  includes (a +:+ b) c = includes a c || includes b c.
Proof.
  induction a as [|d a IH]; string_simpl; [reflexivity|].
  rewrite IH. now rewrite orb_assoc.
Qed.

Lemma includes_doubleQuotes (s : string) (c : ascii) :
  includes (doubleQuotes s) c = includes s c.
Proof.
  induction s as [|d s IH]; cbn [includes doubleQuotes]; [reflexivity|].
  destruct (Ascii.eqb d DQUOTE) eqn:Hd; cbn [includes]; rewrite IH.
  - apply Ascii.eqb_eq in Hd. subst d. now destruct (Ascii.eqb DQUOTE c).
  - reflexivity.
Qed.

(** A text without a line feed is one line. *)
Lemma splitLines_one_line (s cur : string) :
  includes s LF = false -> splitLines s cur = [cur +:+ s].
Proof.
  revert cur. induction s as [|c s IH]; intros cur Hs; cbn [splitLines].
  - now rewrite append_empty_r.
  - cbn [includes] in Hs. apply orb_false_iff in Hs as [Hc Hs].
    rewrite Hc.
    assert (Hgo : splitLines s (push cur c) = [cur +:+ String c s])
      by (rewrite IH by exact Hs; now rewrite push_then_append).
    destruct (Ascii.eqb c CR); [|exact Hgo].
    destruct s as [|c' s']; [exact Hgo|].
    cbn [includes] in Hs. apply orb_false_iff in Hs as [Hc' _].
    rewrite Hc'. exact Hgo.
Qed.

Lemma trimEnd_nonEmpty (c : ascii) (s : string) :
  isWhiteSpace c = false -> nonEmpty (trimEnd (String c s)) = true.
Proof.
  intros Hc. cbn [trimEnd]. destruct (trimEnd s); [now rewrite Hc | reflexivity].
Qed.

Lemma trim_nonEmpty (c : ascii) (s : string) :
  isWhiteSpace c = false -> nonEmpty (trim (String c s)) = true.
Proof.
  intros Hc. unfold trim. cbn [trimStart]. rewrite Hc. now apply trimEnd_nonEmpty.
Qed.

(** ** CsvCodec *)

(** Inside quotes the scanner reads a field with doubled quotes back, up to
    the closing quote. *)
Lemma scanLine_quoted (S : string) (fields : list string) (cur : string) :
  scanLine (doubleQuotes S +:+ String DQUOTE EmptyString) fields cur true
  = fields ++ [trim (cur +:+ S)].
Proof.
  revert cur. induction S as [|c S IH]; intros cur.
  - cbn [doubleQuotes]. rewrite append_nil_l, append_empty_r.
    cbn [scanLine]. rewrite Ascii.eqb_refl. reflexivity.
  - cbn [doubleQuotes]. destruct (Ascii.eqb c DQUOTE) eqn:Hc.
    + rewrite !append_cons. cbn [scanLine]. rewrite !Ascii.eqb_refl.
      rewrite IH. rewrite push_then_append.
      apply Ascii.eqb_eq in Hc. now subst c.
    + rewrite append_cons. cbn [scanLine]. rewrite Hc. rewrite andb_false_r.
      rewrite IH. now rewrite push_then_append.
Qed.

(** [C3], as amended. A field that holds a comma or a double quote, holds no
    line feed and has no white space at either end is read back from its
    quoted form: the parser returns one row with that one field. *)
Theorem escapeCsvCell_parseCsv_roundtrip (E : Engine) (S : string) :
  includes S COMMA || includes S DQUOTE = true ->
  includes S LF = false ->
  trim S = S ->
  parseCsv (escapeCsvCell (VString S)) = [[S]]
  /\ parse_field (escapeCsvCell (VString S)) = Some S.
Proof.
  intros Hq Hlf Htrim.
  assert (Hparse : parseCsv (escapeCsvCell (VString S)) = [[S]]).
  { unfold escapeCsvCell, cellText.
    rewrite Hq. cbn [orb].
    unfold parseCsv.
    rewrite splitLines_one_line.
    - rewrite append_nil_l. cbn [List.filter].
      rewrite trim_nonEmpty by reflexivity.
      cbn [List.map scanLine]. rewrite Ascii.eqb_refl. cbn [negb].
      rewrite scanLine_quoted. rewrite app_nil_l, append_nil_l. now rewrite Htrim.
    - cbn [includes]. rewrite includes_append, includes_doubleQuotes, Hlf. reflexivity. }
  split; [exact Hparse|].
  unfold parse_field. now rewrite Hparse.
Qed.

Lemma escapeCsvCell_parseCsv_roundtrip_witness :
  parseCsv (@escapeCsvCell utcEngine (VString "Great, service!")) = [["Great, service!"]]
  /\ parse_field (@escapeCsvCell utcEngine (VString "Great, service!")) = Some "Great, service!".
Proof.
  apply (escapeCsvCell_parseCsv_roundtrip utcEngine "Great, service!"); reflexivity.
Defined.

(** [C3] as stated fails: a field with a line feed is quoted, but the parser
    splits the text into lines before it looks at quotes, and reads the part
    before the line feed as the first field. *)
Lemma escapeCsvCell_parseCsv_line_feed :
  ~ (forall (E : Engine) (S : string),
       needsQuoting S = true -> parse_field (escapeCsvCell (VString S)) = Some S).
Proof.
  intros Hall.
  specialize (Hall utcEngine (String "a" (String LF (String "b" EmptyString))) eq_refl).
  vm_compute in Hall. discriminate Hall.
Qed.

(** *** What the parser cannot read back *)

Lemma includes_push (s : string) (c d : ascii) :
  includes (push s c) d = includes s d || Ascii.eqb c d.
Proof.
  induction s as [|x s IH]; cbn [push includes].
  - now rewrite orb_false_r.
  - rewrite IH. now rewrite orb_assoc.
Qed.

Lemma trimStart_includes (s : string) (d : ascii) :
  includes s d = false -> includes (trimStart s) d = false.
Proof.
  induction s as [|c s IH]; cbn [trimStart includes]; [reflexivity|].
  intros H. destruct (isWhiteSpace c); [|exact H].
  apply orb_false_iff in H as [_ H]. now apply IH.
Qed.

Lemma trimEnd_includes (s : string) (d : ascii) :
  includes s d = false -> includes (trimEnd s) d = false.
Proof.
  induction s as [|c s IH]; cbn [trimEnd includes]; [reflexivity|].
  intros H. apply orb_false_iff in H as [Hc H]. specialize (IH H).
  destruct (trimEnd s) as [|c' s'] eqn:Ht.
  - destruct (isWhiteSpace c); cbn [includes]; [reflexivity | now rewrite Hc].
  - cbn [includes] in IH |- *. now rewrite Hc, IH.
Qed.

Lemma trim_includes (s : string) (d : ascii) :
  includes s d = false -> includes (trim s) d = false.
Proof. intros H. unfold trim. now apply trimEnd_includes, trimStart_includes. Qed.

(** No line that [split] returns holds a line feed. *)
Lemma splitLines_no_line_feed (s cur : string) :
  includes cur LF = false ->
  Forall (fun line => includes line LF = false) (splitLines s cur).
Proof.
  revert cur. induction s as [|c s IH]; intros cur Hcur; cbn [splitLines].
  - now repeat constructor.
  - destruct (Ascii.eqb c LF) eqn:Hc.
    + constructor; [exact Hcur | now apply IH].
    + assert (Hpush : includes (push cur c) LF = false)
        by (now rewrite includes_push, Hcur, Hc).
      destruct (Ascii.eqb c CR); [|now apply IH].
      destruct s as [|c' s']; [now apply IH|].
      destruct (Ascii.eqb c' LF) eqn:Hc'; [|now apply IH].
      constructor; [exact Hcur|].
      pose proof (IH EmptyString eq_refl) as Hrest.
      cbn [splitLines] in Hrest. rewrite Hc' in Hrest.
      now apply Forall_cons in Hrest as [_ Hrest].
Qed.

(** Nor does a field read from such a line. *)
Lemma scanLine_no_line_feed_bounded (n : nat) (line : string)
    (fields : list string) (cur : string) (inQuotes : bool) :
  (String.length line <= n)%nat ->
  includes line LF = false -> includes cur LF = false ->
  Forall (fun f => includes f LF = false) fields ->
  Forall (fun f => includes f LF = false) (scanLine line fields cur inQuotes).
Proof.
  revert line fields cur inQuotes.
  induction n as [|n IH]; intros line fields cur inQuotes Hlen Hline Hcur Hfields.
  all: assert (Hdone : forall fs cu,
            includes cu LF = false ->
            Forall (fun f => includes f LF = false) fs ->
            Forall (fun f => includes f LF = false) (fs ++ [trim cu])).
  1,3: intros fs cu Hcu Hfs; apply Forall_app; split; [exact Hfs|];
       constructor; [now apply trim_includes | constructor].
  - destruct line; [now apply Hdone | cbn in Hlen; lia].
  - destruct line as [|c rest]; cbn [scanLine]; [now apply Hdone|].
    cbn [String.length] in Hlen.
    cbn [includes] in Hline. apply orb_false_iff in Hline as [Hc Hrest].
    assert (Hstep : forall fs cu q,
              includes cu LF = false ->
              Forall (fun f => includes f LF = false) fs ->
              Forall (fun f => includes f LF = false) (scanLine rest fs cu q)).
    { intros fs cu q Hcu Hfs. apply IH; [lia | exact Hrest | exact Hcu | exact Hfs]. }
    destruct (Ascii.eqb c DQUOTE).
    + destruct inQuotes; [|now apply Hstep].
      destruct rest as [|next rest']; [now apply Hstep|].
      destruct (Ascii.eqb next DQUOTE); [|now apply Hstep].
      cbn [includes] in Hrest. apply orb_false_iff in Hrest as [_ Hrest'].
      cbn [String.length] in Hlen.
      apply IH; [lia | exact Hrest' | | exact Hfields].
      now rewrite includes_push, Hcur.
    + destruct (Ascii.eqb c COMMA && negb inQuotes).
      * apply Hstep; [reflexivity | now apply Hdone].
      * apply Hstep; [|exact Hfields]. now rewrite includes_push, Hcur, Hc.
Qed.

(** Nor does a field read from such a line. *)
Lemma scanLine_no_line_feed (line : string) (fields : list string) (cur : string)
    (inQuotes : bool) :
  includes line LF = false -> includes cur LF = false ->
  Forall (fun f => includes f LF = false) fields ->
  Forall (fun f => includes f LF = false) (scanLine line fields cur inQuotes).
Proof. now apply (scanLine_no_line_feed_bounded (String.length line)). Qed.

Lemma parse_field_no_line_feed (text f : string) :
  parse_field text = Some f -> includes f LF = false.
Proof.
  unfold parse_field, parseCsv.
  pose proof (splitLines_no_line_feed text EmptyString eq_refl) as Hlines.
  set (lines := List.filter _ _).
  assert (Hkept : Forall (fun line => includes line LF = false) lines).
  { subst lines. apply Forall_forall. intros line Hin.
    apply list_elem_of_In, filter_In in Hin as [Hin _].
    rewrite Forall_forall in Hlines. now apply Hlines, list_elem_of_In. }
  destruct lines as [|line rest]; [discriminate|].
  cbn [List.map]. apply Forall_cons in Hkept as [Hline _].
  pose proof (scanLine_no_line_feed line [] EmptyString false Hline eq_refl
                ltac:(constructor)) as Hfields.
  destruct (scanLine line [] EmptyString false) as [|f' fs]; [discriminate|].
  intros [= <-]. now apply Forall_cons in Hfields as [Hf _].
Qed.

(** A field with a line feed is never read back. *)
Lemma escapeCsvCell_parseCsv_never_with_line_feed (E : Engine) (S : string) :
  includes S LF = true -> parse_field (escapeCsvCell (VString S)) <> Some S.
Proof.
  intros Hlf Hback. apply parse_field_no_line_feed in Hback. congruence.
Qed.

(** A field with a comma or a quote and without a line feed is read back
    trimmed. *)
Lemma escapeCsvCell_parseCsv_trimmed (E : Engine) (S : string) :
  includes S COMMA || includes S DQUOTE = true ->
  includes S LF = false ->
  parseCsv (escapeCsvCell (VString S)) = [[trim S]].
Proof.
  intros Hq Hlf. unfold escapeCsvCell, cellText.
  rewrite Hq. cbn [orb]. unfold parseCsv.
  rewrite splitLines_one_line.
  - rewrite append_nil_l. cbn [List.filter].
    rewrite trim_nonEmpty by reflexivity.
    cbn [List.map scanLine]. rewrite Ascii.eqb_refl. cbn [negb].
    rewrite scanLine_quoted. now rewrite app_nil_l, append_nil_l.
  - cbn [includes]. rewrite includes_append, includes_doubleQuotes, Hlf. reflexivity.
Qed.

(** ** Export path *)

(** [C10]. With no filtered record, [exportToCsv] returns before it builds
    any text: not even the header row is produced. *)
Theorem exportToCsv_empty (E : Engine) (st : Component) :
  filteredAnalysisResults st = [] -> exportToCsv st = None.
Proof.
  intros Hempty. unfold exportToCsv. now rewrite Hempty.
Qed.

Lemma exportToCsv_empty_witness :
  @filteredAnalysisResults utcEngine initialComponent = []
  /\ @exportToCsv utcEngine initialComponent = None.
Proof.
  split; [reflexivity|].
  apply (exportToCsv_empty utcEngine initialComponent). reflexivity.
Defined.

(** With a filtered record, the export does produce a text, and the text
    starts with the header row. *)
Lemma exportToCsv_nonempty (E : Engine) (st : Component) :
  filteredAnalysisResults st <> [] ->
  exists rest,
    exportToCsv st
    = Some (join (String LF EmptyString)
                 (join "," (["rowId"] ++ headers st ++ analysisHeaders) :: rest)).
Proof.
  intros Hne. unfold exportToCsv.
  destruct (filteredAnalysisResults st) as [|r rs] eqn:Hrs; [congruence|].
  cbn [length Nat.eqb]. eexists. reflexivity.
Qed.

(** ** ClassificationQueue *)

Lemma headers_setProgressAndAppend (st : Component) (p : Z) (r : AnalysisResult) :
  headers (setProgressAndAppend st p r) = headers st.
Proof. reflexivity. Qed.

Lemma expectedResults_length (E : Engine) (client : Client) (hdrs : list string)
    (ti di : Z) (queue : list SurveyResponse) (call : nat) :
  length (expectedResults client hdrs ti di queue call) = length queue.
Proof.
  revert call. induction queue as [|item rest IH]; intros call; simpl; [reflexivity|].
  now rewrite IH.
Qed.

(** With a client, the loop runs to its end. It emits one progress value per
    item; the results grow by the expected record of each item in turn. *)
Lemma forOf_with_client (E : Engine) (client : Client) (ti di : Z) (total : nat)
    (queue : list SurveyResponse) (pc : nat) (st : Component) :
  let run := forOf (mkGeminiService (Some client)) ti di total queue pc st in
  let expected := expectedResults client (headers st) ti di queue pc in
  settled run = Fulfilled
  /\ progressTrace run = List.map (fun k => progressOf k total) (seq (S pc) (length queue))
  /\ List.map analysisResults (observed run)
     = List.map (fun k => analysisResults st ++ firstn k expected) (seq 1 (length queue))
  /\ analysisResults (final run) = analysisResults st ++ expected
  /\ appState (final run) = results
  /\ isAnalyzing (final run) = false
  /\ (queue <> [] -> analysisProgress (final run) = progressOf (pc + length queue) total).
Proof.
  revert pc st. induction queue as [|item rest IH]; intros pc st.
  - cbn. rewrite app_nil_r. repeat split; congruence.
  - cbn zeta. cbn [forOf processItem analyzeSurveyResponse ai expectedResults].
    fold (replyOf client pc (get item (keyAt (headers st) ti))).
    set (result := resultOf (headers st) di item _).
    set (st' := setProgressAndAppend st (progressOf (S pc) total) result).
    specialize (IH (S pc) st').
    cbn zeta in IH. change (headers st') with (headers st) in IH.
    destruct IH as (Hs & Hp & Ho & Hf & Ha & Hi & Hlast).
    set (run := forOf _ ti di total rest (S pc) st') in *.
    cbn [settled observed final progressTrace List.map length seq].
    unfold progressTrace in Hp.
    repeat split.
    + exact Hs.
    + f_equal. exact Hp.
    + apply (f_equal2 cons); [reflexivity|].
      rewrite Ho. rewrite <- (seq_shift (length rest) 1), List.map_map.
      apply List.map_ext. intros k. cbn [firstn analysisResults st' setProgressAndAppend].
      now rewrite <- app_assoc.
    + rewrite Hf. cbn [analysisResults st' setProgressAndAppend].
      now rewrite <- app_assoc.
    + exact Ha.
    + exact Hi.
    + intros _. destruct rest as [|item' rest'].
      * subst run. cbn [forOf final setPhase analysisProgress st' setProgressAndAppend length].
        now replace (pc + 1)%nat with (S pc) by lia.
      * rewrite Hlast by discriminate. cbn [length].
        now replace (S pc + S (length rest'))%nat with (pc + S (S (length rest')))%nat by lia.
Qed.

(** *** Progress *)

Lemma Qdiv_inject_Z (a b : Z) :
  0 < b -> (inject_Z a / inject_Z b == a # Z.to_pos b)%Q.
Proof.
  intros Hb. destruct b as [|p|p]; try lia.
  unfold Qeq, Qdiv, Qmult, Qinv, inject_Z. simpl. lia.
Qed.

(** Comparing the share k / n with a constant fraction. *)
Lemma share_le (k n c d : Z) :
  0 < n -> 0 < d -> k * d <= c * n -> (inject_Z k / inject_Z n <= c # Z.to_pos d)%Q.
Proof.
  intros Hn Hd Hle. rewrite (Qdiv_inject_Z k n Hn).
  unfold Qle. simpl. rewrite !Z2Pos.id by lia. exact Hle.
Qed.

Lemma share_ge (k n c d : Z) :
  0 < n -> 0 < d -> c * n <= k * d -> (c # Z.to_pos d <= inject_Z k / inject_Z n)%Q.
Proof.
  intros Hn Hd Hle. rewrite (Qdiv_inject_Z k n Hn).
  unfold Qle. simpl. rewrite !Z2Pos.id by lia. exact Hle.
Qed.

Lemma share_gap (k k' n : Z) :
  0 < n < 2 ^ 32 -> k < k' ->
  (inject_Z k / inject_Z n + (1 # 2 ^ 32) <= inject_Z k' / inject_Z n)%Q.
Proof.
  intros Hn Hk. rewrite (Qdiv_inject_Z k n), (Qdiv_inject_Z k' n) by lia.
  unfold Qle, Qplus. simpl. rewrite !Pos2Z.inj_mul, !Z2Pos.id by lia.
  change (Z.pos (2 ^ 32)) with (2 ^ 32). nia.
Qed.

(** With accurate arithmetic that number is the exact percentage, up to
    three parts in 2^53. *)
Lemma progressValue_accurate (E : Engine) (k n : nat) :
  accurateArithmetic E -> (0 < n)%nat -> Z.of_nat n < 2 ^ 32 -> (k <= n)%nat ->
  let y := (inject_Z (Z.of_nat k) / inject_Z (Z.of_nat n))%Q in
  (100 * y - 300 * y * doubleEpsilon <= progressValue E k n
   <= 100 * y + 300 * y * doubleEpsilon)%Q.
Proof.
  intros [Hdiv Hmul] Hn Hn32 Hk y. unfold progressValue.
  specialize (Hdiv (Z.of_nat k) (Z.of_nat n) ltac:(lia) ltac:(lia)).
  fold y in Hdiv.
  set (q := Number_div _ _) in *.
  assert (Hy0 : (0 <= y)%Q)
    by (apply (share_ge (Z.of_nat k) (Z.of_nat n) 0 1); lia).
  assert (Hy1 : (y <= 1)%Q)
    by (apply (share_le (Z.of_nat k) (Z.of_nat n) 1 1); lia).
  apply Qabs_Qle_condition in Hdiv as [Hq1 Hq2].
  assert (Heps : (doubleEpsilon == 1 # 9007199254740992)%Q) by reflexivity.
  assert (Hq : (0 <= Number_value q <= 2)%Q) by (rewrite Heps in *; split; lra).
  specialize (Hmul q Hq).
  apply Qabs_Qle_condition in Hmul as [Hm1 Hm2].
  set (v := Number_value (Number_mul q (Number_of_Z 100))) in *.
  rewrite Heps in *. set (w := Number_value q) in *.
  assert (Hyw : (y * (1 # 9007199254740992) * (1 # 9007199254740992)
                 <= y * (1 # 9007199254740992))%Q) by lra.
  split; lra.
Qed.

Lemma doubleEpsilon_value : (doubleEpsilon == 1 # 9007199254740992)%Q.
Proof. reflexivity. Qed.

Lemma Math_round_le (v : Q) (z : Z) : (v < inject_Z z + (1 # 2))%Q -> Math_round v <= z.
Proof.
  intros Hv. unfold Math_round.
  pose proof (Qfloor_le (v + (1 # 2))) as Hf.
  assert (Hlt : (inject_Z (Qfloor (v + (1 # 2))) < inject_Z (z + 1))%Q)
    by (rewrite inject_Z_plus; change (inject_Z 1) with 1%Q; lra).
  rewrite <- Zlt_Qlt in Hlt. lia.
Qed.

Lemma Math_round_ge (v : Q) (z : Z) : (inject_Z z - (1 # 2) <= v)%Q -> z <= Math_round v.
Proof.
  intros Hv. unfold Math_round.
  pose proof (Qlt_floor (v + (1 # 2))) as Hf.
  rewrite inject_Z_plus in Hf. change (inject_Z 1) with 1%Q in Hf.
  assert (Hlt : (inject_Z z < inject_Z (Qfloor (v + (1 # 2)) + 1))%Q)
    by (rewrite inject_Z_plus; change (inject_Z 1) with 1%Q; lra).
  rewrite <- Zlt_Qlt in Hlt. lia.
Qed.

Section Progress.
Context (E : Engine) (Haccurate : accurateArithmetic E).
Context (n : nat) (Hn : (0 < n)%nat) (Hn32 : Z.of_nat n < 2 ^ 32).

Lemma share_bounds (k : nat) :
  (k <= n)%nat ->
  (0 <= inject_Z (Z.of_nat k) / inject_Z (Z.of_nat n) <= 1)%Q.
Proof.
  intros Hk. split.
  - apply (share_ge (Z.of_nat k) (Z.of_nat n) 0 1); lia.
  - apply (share_le (Z.of_nat k) (Z.of_nat n) 1 1); lia.
Qed.

Lemma progressOf_le_100 (k : nat) : (k <= n)%nat -> progressOf k n <= 100.
Proof.
  intros Hk. apply Math_round_le. fold (progressValue E k n).
  pose proof (progressValue_accurate E k n Haccurate Hn Hn32 Hk) as Hv.
  pose proof (share_bounds k Hk) as Hy. cbn zeta in Hv.
  rewrite doubleEpsilon_value in Hv.
  set (y := (inject_Z (Z.of_nat k) / inject_Z (Z.of_nat n))%Q) in *.
  change (inject_Z 100) with 100%Q. lra.
Qed.

Lemma progressOf_complete : progressOf n n = 100.
Proof.
  apply Z.le_antisymm; [apply progressOf_le_100; lia|].
  apply Math_round_ge. fold (progressValue E n n).
  pose proof (progressValue_accurate E n n Haccurate Hn Hn32 (Nat.le_refl n)) as Hv.
  assert (Hy : (1 <= inject_Z (Z.of_nat n) / inject_Z (Z.of_nat n))%Q)
    by (apply (share_ge (Z.of_nat n) (Z.of_nat n) 1 1); lia).
  pose proof (share_bounds n (Nat.le_refl n)) as Hy'. cbn zeta in Hv.
  rewrite doubleEpsilon_value in Hv.
  set (y := (inject_Z (Z.of_nat n) / inject_Z (Z.of_nat n))%Q) in *.
  change (inject_Z 100) with 100%Q. lra.
Qed.

Lemma progressOf_mono (k k' : nat) :
  (k <= k')%nat -> (k' <= n)%nat -> progressOf k n <= progressOf k' n.
Proof.
  intros Hk Hk'. destruct (Nat.eq_dec k k') as [->|Hne]; [lia|].
  unfold progressOf, Math_round. apply Qfloor_resp_le.
  fold (progressValue E k n). fold (progressValue E k' n).
  pose proof (progressValue_accurate E k n Haccurate Hn Hn32 ltac:(lia)) as Hv.
  pose proof (progressValue_accurate E k' n Haccurate Hn Hn32 Hk') as Hv'.
  pose proof (share_bounds k ltac:(lia)) as Hy.
  pose proof (share_bounds k' Hk') as Hy'.
  pose proof (share_gap (Z.of_nat k) (Z.of_nat k') (Z.of_nat n) ltac:(lia) ltac:(lia)) as Hgap.
  cbn zeta in Hv, Hv'. rewrite doubleEpsilon_value in Hv, Hv'.
  change (1 # 2 ^ 32)%Q with (1 # 4294967296)%Q in Hgap.
  set (y := (inject_Z (Z.of_nat k) / inject_Z (Z.of_nat n))%Q) in *.
  set (y' := (inject_Z (Z.of_nat k') / inject_Z (Z.of_nat n))%Q) in *.
  lra.
Qed.

(** Fewer than 200 items: the progress is below 100 while one remains. *)
Lemma progressOf_below_100 (k : nat) :
  (n < 200)%nat -> (k < n)%nat -> progressOf k n < 100.
Proof.
  intros Hsmall Hk.
  assert (Hle : progressOf k n <= 99); [|lia].
  apply Math_round_le. fold (progressValue E k n).
  pose proof (progressValue_accurate E k n Haccurate Hn Hn32 ltac:(lia)) as Hv.
  pose proof (share_bounds k ltac:(lia)) as Hy.
  assert (Hy' : (inject_Z (Z.of_nat k) / inject_Z (Z.of_nat n) <= 198 # 199)%Q)
    by (apply (share_le (Z.of_nat k) (Z.of_nat n) 198 199); lia).
  cbn zeta in Hv. rewrite doubleEpsilon_value in Hv.
  set (y := (inject_Z (Z.of_nat k) / inject_Z (Z.of_nat n))%Q) in *.
  change (inject_Z 99) with 99%Q. lra.
Qed.

(** From 99.55 percent on the progress is 100. *)
Lemma progressOf_early (k : nat) :
  (k <= n)%nat -> 1991 * Z.of_nat n <= 2000 * Z.of_nat k -> progressOf k n = 100.
Proof.
  intros Hk Hshare.
  apply Z.le_antisymm; [now apply progressOf_le_100|].
  apply Math_round_ge. fold (progressValue E k n).
  pose proof (progressValue_accurate E k n Haccurate Hn Hn32 Hk) as Hv.
  pose proof (share_bounds k Hk) as Hy.
  assert (Hy' : (1991 # 2000 <= inject_Z (Z.of_nat k) / inject_Z (Z.of_nat n))%Q)
    by (apply (share_ge (Z.of_nat k) (Z.of_nat n) 1991 2000); lia).
  cbn zeta in Hv. rewrite doubleEpsilon_value in Hv.
  set (y := (inject_Z (Z.of_nat k) / inject_Z (Z.of_nat n))%Q) in *.
  change (inject_Z 100) with 100%Q. lra.
Qed.

End Progress.

(** The progress values of any run: the [i]-th one is the rounded share of
    [i + 1] items. Without a client the run emits none. *)
Lemma progressTrace_lookup (E : Engine) (svc : GeminiService) (st : Component)
    (queue : list SurveyResponse) (ti di : Z) (i : nat) (p : Z) :
  progressTrace (processAnalysisQueue svc st queue ti di) !! i = Some p ->
  (i < length queue)%nat /\ p = progressOf (S i) (length queue).
Proof.
  unfold processAnalysisQueue. destruct svc as [[client|]].
  - destruct (forOf_with_client E client ti di (length queue) queue 0 st)
      as (_ & Hp & _).
    rewrite Hp. intros Hi.
    apply list_lookup_fmap_Some in Hi as (k & -> & Hk).
    apply lookup_seq in Hk as [-> Hlt]. split; [exact Hlt | reflexivity].
  - destruct queue; cbn; intros Hi; discriminate Hi.
Qed.

(** [C4], as amended. With the arithmetic of binary64 numbers, over a run of
    N >= 1 records the progress never decreases, never exceeds 100 and stands
    at 100 when the run completes. With fewer than 200 records it is 100
    only after the last item. But it is 100 from 99.55 percent on, so with
    more records it shows 100 while items remain. *)
Theorem progress_non_decreasing_full_at_end (E : Engine) (svc : GeminiService)
    (st : Component) (queue : list SurveyResponse) (ti di : Z) :
  accurateArithmetic E ->
  queue <> [] ->
  Z.of_nat (length queue) < 2 ^ 32 ->
  let run := processAnalysisQueue svc st queue ti di in
  let N := length queue in
  (forall i j p q, (i <= j)%nat ->
     progressTrace run !! i = Some p -> progressTrace run !! j = Some q -> p <= q)
  /\ (forall i p, progressTrace run !! i = Some p -> p <= 100)
  /\ ((N < 200)%nat ->
      forall i p, progressTrace run !! i = Some p -> p = 100 -> S i = N)
  /\ (forall i p, progressTrace run !! i = Some p ->
        1991 * Z.of_nat N <= 2000 * Z.of_nat (S i) -> p = 100)
  /\ (is_Some (ai svc) ->
      settled run = Fulfilled
      /\ length (progressTrace run) = N
      /\ progressTrace run !! (N - 1)%nat = Some 100
      /\ analysisProgress (final run) = 100).
Proof.
  intros Hacc Hne H32 run N.
  assert (HN : (0 < N)%nat) by (subst N; destruct queue; [congruence | cbn; lia]).
  split; [|split; [|split; [|split]]].
  - intros i j p q Hij Hi Hj.
    apply progressTrace_lookup in Hi as [_ ->].
    apply progressTrace_lookup in Hj as [Hj ->].
    apply (progressOf_mono E Hacc N HN H32); fold N in Hj; lia.
  - intros i p Hi. apply progressTrace_lookup in Hi as [Hi ->].
    apply (progressOf_le_100 E Hacc N HN H32). fold N in Hi. lia.
  - intros Hsmall i p Hi H100.
    apply progressTrace_lookup in Hi as [Hi ->]. fold N in Hi, H100.
    destruct (Nat.eq_dec (S i) N) as [Heq|Hlt]; [exact Heq|].
    pose proof (progressOf_below_100 E Hacc N HN H32 (S i) Hsmall ltac:(lia)). lia.
  - intros i p Hi Hshare. apply progressTrace_lookup in Hi as [Hi ->]. fold N in Hi |- *.
    apply (progressOf_early E Hacc N HN H32); [lia | exact Hshare].
  - intros Hai. destruct svc as [[client|]]; [|destruct Hai as [? [=]]].
    subst run. unfold processAnalysisQueue.
    destruct (forOf_with_client E client ti di (length queue) queue 0 st)
      as (Hs & Hp & _ & _ & _ & _ & Hlast).
    fold N in Hp, Hlast |- *.
    split; [exact Hs|]. split; [|split].
    + rewrite Hp, length_map, length_seq. reflexivity.
    + rewrite Hp. change (List.map ?f ?l) with (f <$> l).
      rewrite list_lookup_fmap, lookup_seq_lt by lia.
      cbn [fmap option_fmap option_map]. f_equal.
      replace (1 + (N - 1))%nat with N by lia.
      apply (progressOf_complete E Hacc N HN H32).
    + rewrite Hlast by exact Hne. cbn [Nat.add].
      apply (progressOf_complete E Hacc N HN H32).
Qed.

(** Exact arithmetic is accurate. *)
Lemma utcEngine_accurate : accurateArithmetic utcEngine.
Proof.
  split.
  - intros a b Ha Hb. cbn [Number_value Number_div Number_of_Z utcEngine].
    assert (Hy : (0 <= inject_Z a / inject_Z b)%Q)
      by (apply (share_ge a b 0 1); lia).
    apply Qabs_Qle_condition. rewrite doubleEpsilon_value.
    set (y := (inject_Z a / inject_Z b)%Q) in *. split; lra.
  - intros x Hx. cbn [Number_value Number_mul Number_of_Z utcEngine] in *.
    apply Qabs_Qle_condition. rewrite doubleEpsilon_value.
    change (inject_Z 100) with 100%Q. split; lra.
Qed.

Lemma progress_non_decreasing_full_at_end_witness :
  let queue : list SurveyResponse :=
    dataToAnalyze (uploaded [["text"]; ["late"]; ["fine"]] "text") in
  let run := @processAnalysisQueue utcEngine sampleService initialComponent queue 0 (-1) in
  accurateArithmetic utcEngine
  /\ queue <> []
  /\ Z.of_nat (length queue) < 2 ^ 32
  /\ (forall i j p q, (i <= j)%nat ->
        progressTrace run !! i = Some p -> progressTrace run !! j = Some q -> p <= q)
  /\ (forall i p, progressTrace run !! i = Some p -> p <= 100)
  /\ ((length queue < 200)%nat ->
      forall i p, progressTrace run !! i = Some p -> p = 100 -> S i = length queue)
  /\ (forall i p, progressTrace run !! i = Some p ->
        1991 * Z.of_nat (length queue) <= 2000 * Z.of_nat (S i) -> p = 100)
  /\ (is_Some (ai sampleService) ->
      settled run = Fulfilled
      /\ length (progressTrace run) = length queue
      /\ progressTrace run !! (length queue - 1)%nat = Some 100
      /\ analysisProgress (final run) = 100).
Proof.
  intros queue run.
  assert (Hne : queue <> []) by (vm_compute; discriminate).
  assert (H32 : Z.of_nat (length queue) < 2 ^ 32) by (vm_compute; reflexivity).
  split; [exact utcEngine_accurate|]. split; [exact Hne|]. split; [exact H32|].
  exact (progress_non_decreasing_full_at_end utcEngine sampleService initialComponent
           queue 0 (-1) utcEngine_accurate Hne H32).
Defined.

(** [C4] as stated fails: over 1000 records, in the arithmetic of binary64
    numbers, the progress after the 999th is already 100. *)
Lemma progress_full_before_last_item :
  ~ (forall (E : Engine) (svc : GeminiService) (st : Component)
            (queue : list SurveyResponse) (ti di : Z),
       queue <> [] ->
       forall i p,
         progressTrace (processAnalysisQueue svc st queue ti di) !! i = Some p ->
         p = 100 -> S i = length queue).
Proof.
  intros Hall.
  pose (queue := mapRows ["text"] (replicate 1000 ["fine"]) 0).
  assert (Hlen : length queue = 1000%nat) by (vm_compute; reflexivity).
  assert (Hne : queue <> []) by (intros Hq; rewrite Hq in Hlen; discriminate Hlen).
  specialize (Hall doubleEngine sampleService initialComponent queue 0 (-1) Hne 998%nat 100).
  rewrite Hlen in Hall.
  assert (H999 : S 998 = 1000%nat); [|discriminate H999].
  apply Hall; [|reflexivity].
  unfold processAnalysisQueue, sampleService.
  destruct (forOf_with_client doubleEngine (fun _ _ => ApiReturns sampleAnalysis) 0 (-1)
              (length queue) queue 0 initialComponent) as (_ & Hp & _).
  rewrite Hp, Hlen. vm_compute. reflexivity.
Qed.

(** The same rounding in binary64 numbers at the boundary: 199 of 200 items
    are 99.5 percent, which rounds to 100; 198 of 200 round to 99. *)
Example progress_in_doubles :
  @progressOf doubleEngine 199 200 = 100 /\ @progressOf doubleEngine 198 200 = 99
  /\ @progressOf doubleEngine 999 1000 = 100 /\ @progressOf doubleEngine 23 40 = 57
  /\ @progressOf utcEngine 23 40 = 58.
Proof. vm_compute. repeat split; reflexivity. Qed.

(** In binary64 numbers, for every queue of fewer than 200 items: the value
    never decreases from one item to the next, it is below 100 before the
    last item and 100 after it. *)
Example progress_in_doubles_below_200 :
  forallb (fun N =>
    forallb (fun k =>
      (@progressOf doubleEngine k N <=? @progressOf doubleEngine (S k) N)
      && (@progressOf doubleEngine k N <? 100))
      (seq 1 (N - 1))
    && (@progressOf doubleEngine N N =? 100))
    (seq 1 199) = true.
Proof. vm_compute. reflexivity. Qed.

(** *** Order and identity of the results *)

(** [processItem] writes [error] or [analysis], and [date]; every other
    property of the result is the item's. *)
Lemma resultOf_lookup_other (E : Engine) (hdrs : list string) (di : Z)
    (item : SurveyResponse) (reply : AnalyzerReply) (key : string) :
  key <> "error" -> key <> "analysis" -> key <> "date" ->
  resultOf hdrs di item reply !! key = item !! key.
Proof.
  intros He Ha Hd. unfold resultOf.
  destruct (di >? -1); [rewrite lookup_insert_ne by congruence|];
    destruct (truthy _); now rewrite lookup_insert_ne by congruence.
Qed.

Lemma expectedResults_lookup (E : Engine) (client : Client) (hdrs : list string)
    (ti di : Z) (queue : list SurveyResponse) (call i : nat) (item : SurveyResponse) :
  queue !! i = Some item ->
  expectedResults client hdrs ti di queue call !! i
  = Some (resultOf hdrs di item (replyOf client (call + i) (get item (keyAt hdrs ti)))).
Proof.
  revert call i. induction queue as [|x rest IH]; intros call [|i] Hi;
    try discriminate Hi.
  - cbn in Hi. injection Hi as ->. cbn. now rewrite Nat.add_0_r.
  - cbn in Hi. cbn. replace (call + S i)%nat with (S call + i)%nat by lia.
    apply IH, Hi.
Qed.

Lemma assignColumns_lookup_other (hdrs : list string) (i : nat) (row : list string)
    (response : SurveyResponse) (key : string) :
  key ∉ hdrs -> assignColumns hdrs i row response !! key = response !! key.
Proof.
  revert i response. induction hdrs as [|h rest IH]; intros i response Hkey; cbn.
  - reflexivity.
  - apply not_elem_of_cons in Hkey as [Hne Hrest].
    rewrite IH by exact Hrest. now rewrite lookup_insert_ne by congruence.
Qed.

Lemma mapRows_length (hdrs : list string) (rws : list (list string)) (index : nat) :
  length (mapRows hdrs rws index) = length rws.
Proof.
  revert index. induction rws as [|row rest IH]; intros index; cbn; [reflexivity|].
  now rewrite IH.
Qed.

Lemma mapRows_lookup (hdrs : list string) (rws : list (list string)) (index i : nat)
    (item : SurveyResponse) :
  mapRows hdrs rws index !! i = Some item ->
  exists row, rws !! i = Some row /\ item = toSurveyResponse hdrs row (index + i).
Proof.
  revert index i. induction rws as [|row rest IH]; intros index [|i] Hi;
    try discriminate Hi.
  - cbn in Hi. injection Hi as <-. exists row. rewrite Nat.add_0_r. now split.
  - cbn in Hi. apply IH in Hi as (row' & Hrow & ->).
    exists row'. split; [exact Hrow|]. f_equal. lia.
Qed.

(** The row number of a response is its index plus two, unless a column of
    the file is itself named [rowId]. *)
Lemma toSurveyResponse_rowId (hdrs : list string) (row : list string) (index : nat) :
  "rowId" ∉ hdrs ->
  toSurveyResponse hdrs row index !! "rowId"
  = Some (VNumber (inject_Z (Z.of_nat index + 2))).
Proof.
  intros Hno. unfold toSurveyResponse.
  rewrite assignColumns_lookup_other by exact Hno.
  apply lookup_singleton_eq.
Qed.

(** A run with a client completes; it leaves one result per item, in the
    order of the queue, each with the [rowId] of its item; and what an
    observer sees after the k-th item is the first k results of the end. *)
Theorem processAnalysisQueue_in_order (E : Engine) (client : Client) (st : Component)
    (queue : list SurveyResponse) (ti di : Z) :
  analysisResults st = [] ->
  let run := processAnalysisQueue (mkGeminiService (Some client)) st queue ti di in
  settled run = Fulfilled
  /\ length (analysisResults (final run)) = length queue
  /\ length (observed run) = length queue
  /\ (forall i r, analysisResults (final run) !! i = Some r ->
        exists item, queue !! i = Some item /\ r !! "rowId" = item !! "rowId")
  /\ (forall k s, observed run !! k = Some s ->
        analysisResults s = firstn (S k) (analysisResults (final run))).
Proof.
  intros Hempty run. subst run. unfold processAnalysisQueue.
  destruct (forOf_with_client E client ti di (length queue) queue 0 st)
    as (Hs & _ & Ho & Hf & _).
  rewrite Hempty in Ho, Hf. cbn [app] in Ho, Hf.
  set (run := forOf _ ti di (length queue) queue 0 st) in *.
  set (expected := expectedResults client (headers st) ti di queue 0) in *.
  assert (Hlen : length expected = length queue) by apply expectedResults_length.
  repeat split.
  - exact Hs.
  - now rewrite Hf.
  - rewrite <- (length_map analysisResults), Ho. now rewrite length_map, length_seq.
  - intros i r Hr. rewrite Hf in Hr.
    destruct (queue !! i) as [item|] eqn:Hitem.
    + exists item. split; [reflexivity|].
      subst expected. rewrite (expectedResults_lookup _ _ _ _ _ _ _ _ _ Hitem) in Hr.
      injection Hr as <-. now apply resultOf_lookup_other.
    + apply lookup_ge_None in Hitem. apply lookup_lt_Some in Hr. lia.
  - intros k s Hk.
    assert (Hk' : List.map analysisResults (observed run) !! k = Some (analysisResults s)).
    { change (List.map ?f ?l) with (f <$> l). now rewrite list_lookup_fmap, Hk. }
    rewrite Ho in Hk'. change (List.map ?f ?l) with (f <$> l) in Hk'.
    apply list_lookup_fmap_Some in Hk' as (j & -> & Hj).
    apply lookup_seq in Hj as [-> _]. now rewrite Hf.
Qed.


(** From a file without a column named [rowId], [startAnalysis] leaves one
    result per data row, the i-th with row number i + 2. *)
Theorem startAnalysis_rowId (E : Engine) (client : Client) (st : Component) :
  nonEmpty (mappedTextColumn st) = true ->
  analysisResults st = [] ->
  "rowId" ∉ headers st ->
  let run := startAnalysis (mkGeminiService (Some client)) st in
  settled run = Fulfilled
  /\ length (analysisResults (final run)) = length (rows st)
  /\ (forall i r, analysisResults (final run) !! i = Some r ->
        r !! "rowId" = Some (VNumber (inject_Z (Z.of_nat i + 2)))).
Proof.
  intros Htext Hempty Hno run. subst run. unfold startAnalysis.
  rewrite Htext. cbn [negb]. cbn zeta.
  set (st' := setPhase st analyzing "" true 0).
  set (ti := indexOf _ _ _). set (di := if nonEmpty _ then _ else _).
  destruct (processAnalysisQueue_in_order E client st' (dataToAnalyze st') ti di Hempty)
    as (Hs & Hlen & _ & Hrow & _).
  repeat split.
  - exact Hs.
  - rewrite Hlen. unfold dataToAnalyze. now rewrite mapRows_length.
  - intros i r Hr. apply Hrow in Hr as (item & Hitem & ->).
    unfold dataToAnalyze in Hitem.
    apply mapRows_lookup in Hitem as (row & _ & ->).
    now apply toSurveyResponse_rowId.
Qed.

Lemma startAnalysis_rowId_witness :
  let st := uploaded [["text"; "region"]; ["Slow delivery"; "north"]; ["Great"; "south"]] "text" in
  let run := @startAnalysis utcEngine sampleService st in
  settled run = Fulfilled
  /\ length (analysisResults (final run)) = length (rows st)
  /\ (forall i r, analysisResults (final run) !! i = Some r ->
        r !! "rowId" = Some (VNumber (inject_Z (Z.of_nat i + 2)))).
Proof.
  apply (startAnalysis_rowId utcEngine (fun _ _ => ApiReturns sampleAnalysis)
           (uploaded [["text"; "region"]; ["Slow delivery"; "north"]; ["Great"; "south"]] "text")).
  - reflexivity.
  - reflexivity.
  - cbn. rewrite !not_elem_of_cons. repeat split; try discriminate. apply not_elem_of_nil.
Defined.

(** [C1], at a file the program can receive: its own export, whose first
    column is named [rowId]. The column overwrites the row number, so the
    record of the first data row carries the cell of the file (the string 7)
    where the claim expects the number 2. *)
Theorem startAnalysis_rowId_column (E : Engine) (client : Client) :
  let st := uploaded [["rowId"; "text"]; ["7"; "Slow delivery"]] "text" in
  let run := startAnalysis (mkGeminiService (Some client)) st in
  settled run = Fulfilled
  /\ exists r,
       analysisResults (final run) = [r]
       /\ r !! "rowId" = Some (VString "7")
       /\ r !! "rowId" <> Some (VNumber (inject_Z (0 + 2))).
Proof.
  cbn zeta. unfold startAnalysis. cbn [uploaded mappedTextColumn nonEmpty negb].
  unfold processAnalysisQueue.
  match goal with
  | |- context [forOf _ ?ti ?di ?n ?q 0%nat ?st] =>
      destruct (forOf_with_client E client ti di n q 0 st) as (Hs & _ & _ & Hf & _)
  end.
  split; [exact Hs|].
  eexists. split; [rewrite Hf; reflexivity|].
  split.
  - now rewrite resultOf_lookup_other by discriminate.
  - rewrite resultOf_lookup_other by discriminate. discriminate.
Qed.

(** *** Classification or error *)

Lemma getProp_error_Classified (a : Analysis) :
  getProp (VObject (Classified a)) "error" = VUndefined.
Proof. reflexivity. Qed.

Lemma getProp_error_ErrorReply (m : string) :
  getProp (VObject (ErrorReply m)) "error" = VString m.
Proof. reflexivity. Qed.

(** On an item that has neither an [error] nor an [analysis] property of
    its own, the result carries exactly one of the two: the error message
    when the analyzer resolved to a non-empty one, and the reply as
    [analysis] otherwise. *)
Lemma resultOf_error_or_analysis (E : Engine) (hdrs : list string) (di : Z)
    (item : SurveyResponse) (reply : AnalyzerReply) :
  item !! "error" = None -> item !! "analysis" = None ->
  let r := resultOf hdrs di item reply in
  match reply with
  | ErrorReply m =>
      if nonEmpty m
      then r !! "error" = Some (VString m) /\ r !! "analysis" = None
      else r !! "error" = None /\ r !! "analysis" = Some (VObject reply)
  | Classified a => r !! "error" = None /\ r !! "analysis" = Some (VObject reply)
  end.
Proof.
  intros He Ha r. subst r. unfold resultOf.
  assert (Hdate : forall (m : gmap string Value) v key,
            key <> "date" ->
            (if di >? -1 then <["date" := v]> m else m) !! key = m !! key).
  { intros m v key Hk. destruct (di >? -1); [|reflexivity].
    now rewrite lookup_insert_ne by congruence. }
  destruct reply as [a|m].
  - rewrite getProp_error_Classified. cbn [truthy].
    rewrite !Hdate by discriminate.
    rewrite lookup_insert_ne by discriminate. rewrite lookup_insert_eq. now split.
  - rewrite getProp_error_ErrorReply. cbn [truthy].
    destruct (nonEmpty m); rewrite !Hdate by discriminate.
    + rewrite lookup_insert_eq. rewrite lookup_insert_ne by discriminate. now split.
    + rewrite lookup_insert_ne by discriminate. rewrite lookup_insert_eq. now split.
Qed.

(** A failure of one item does not stop the run: whatever the client does
    on each call, the run completes with one record per item. *)
Lemma processAnalysisQueue_survives_errors (E : Engine) (client : Client)
    (st : Component) (queue : list SurveyResponse) (ti di : Z) :
  let run := processAnalysisQueue (mkGeminiService (Some client)) st queue ti di in
  settled run = Fulfilled
  /\ length (analysisResults (final run)) = (length (analysisResults st) + length queue)%nat.
Proof.
  cbn zeta. unfold processAnalysisQueue.
  destruct (forOf_with_client E client ti di (length queue) queue 0 st)
    as (Hs & _ & _ & Hf & _).
  split; [exact Hs|]. rewrite Hf, length_app. now rewrite expectedResults_length.
Qed.

(** [C9], at a file with a column named [error]: the record of a row that the
    analyzer classified carries the classification and, from the file, an
    [error] as well. *)
Theorem processItem_error_column (E : Engine) (a : Analysis) :
  let st := uploaded [["text"; "error"]; ["Slow delivery"; "timeout"]] "text" in
  let run := startAnalysis (mkGeminiService (Some (fun _ _ => ApiReturns a))) st in
  settled run = Fulfilled
  /\ exists r,
       analysisResults (final run) = [r]
       /\ r !! "analysis" = Some (VObject (Classified a))
       /\ r !! "error" = Some (VString "timeout")
       /\ populated r "analysis" && populated r "error" = true.
Proof.
  cbn zeta. unfold startAnalysis. cbn [uploaded mappedTextColumn nonEmpty negb].
  unfold processAnalysisQueue.
  match goal with
  | |- context [forOf (mkGeminiService (Some ?c)) ?ti ?di ?n ?q 0%nat ?st] =>
      destruct (forOf_with_client E c ti di n q 0 st) as (Hs & _ & _ & Hf & _)
  end.
  split; [exact Hs|].
  eexists. split; [rewrite Hf; reflexivity|].
  assert (Ha : forall r : gmap string Value,
            r !! "analysis" = Some (VObject (Classified a)) ->
            r !! "error" = Some (VString "timeout") ->
            r !! "analysis" = Some (VObject (Classified a))
            /\ r !! "error" = Some (VString "timeout")
            /\ populated r "analysis" && populated r "error" = true).
  { intros r H1 H2. unfold populated. now rewrite H1, H2. }
  apply Ha; reflexivity.
Qed.

(** ** FilterEngine *)

Lemma nonEmpty_true_iff (s : string) : nonEmpty s = true <-> s <> "".
Proof. destruct s; cbn; split; congruence. Qed.

Lemma filterKeys_spec (activeFilters : gmap string string) (key : string) :
  In key (filterKeys activeFilters) <->
  exists value, activeFilters !! key = Some value /\ value <> "" /\ value <> "all".
Proof.
  unfold filterKeys. rewrite filter_In, in_map_iff. split.
  - intros [[[k v] [<- Hin]] Hact]. cbn [fst] in *.
    apply list_elem_of_In, elem_of_map_to_list in Hin.
    unfold filterValue in Hact. rewrite Hin in Hact. cbn [default] in Hact.
    apply andb_true_iff in Hact as [Hne Hall].
    exists v. repeat split; [exact Hin | now apply nonEmpty_true_iff |].
    intros ->. discriminate Hall.
  - intros (v & Hv & Hne & Hall). split.
    + exists (key, v). split; [reflexivity|].
      now apply list_elem_of_In, elem_of_map_to_list.
    + unfold filterValue. rewrite Hv. cbn [default].
      apply andb_true_iff. split; [now apply nonEmpty_true_iff|].
      apply negb_true_iff, String.eqb_neq, Hall.
Qed.





Lemma filter_all_true {A} (f : A -> bool) (l : list A) :
  (forall x, f x = true) -> List.filter f l = l.
Proof.
  intros Hf. induction l as [|x l IH]; cbn; [reflexivity|].
  now rewrite Hf, IH.
Qed.

(** Whatever the filters, the result is the input list run through the one
    test [keepResult], so the records kept stay in their order. *)
Lemma applyFilters_filter (E : Engine) (rs : list AnalysisResult)
    (activeFilters : gmap string string) (startDate endDate : option Z) :
  applyFilters rs activeFilters startDate endDate
  = List.filter (keepResult activeFilters (filterKeys activeFilters) startDate endDate) rs.
Proof.
  unfold applyFilters.
  destruct (filterKeys activeFilters) as [|k ks] eqn:Hkeys;
    destruct startDate as [s|], endDate as [e|]; try reflexivity.
  cbn. symmetry. apply filter_all_true. intros r. reflexivity.
Qed.




(** Without an active pair and without bounds the filter hands back its
    input. *)
Lemma applyFilters_identity (E : Engine) (rs : list AnalysisResult)
    (activeFilters : gmap string string) :
  filterKeys activeFilters = [] -> applyFilters rs activeFilters None None = rs.
Proof. intros Hk. unfold applyFilters. now rewrite Hk. Qed.

Example applyFilters_example :
  @applyFilters utcEngine
    [ {[ "region" := VString "north"; "date" := VDate 1704412800000 ]};
      {[ "region" := VString "south"; "date" := VDate 1704499200000 ]};
      {[ "region" := VString "north" ]} ]
    {[ "region" := "north"; "channel" := "all" ]} (Some 1704067200000) None
  = [ {[ "region" := VString "north"; "date" := VDate 1704412800000 ]} ].
Proof. vm_compute. reflexivity. Qed.

(** ** AggregationEngine: counts *)

Section SortDesc.
Context {A : Type} (key : A -> nat).

Let desc (a b : A) : Prop := (key b <= key a)%nat.

Lemma insertDesc_perm (e : A) (l : list A) : Permutation (insertDesc key e l) (e :: l).
Proof.
  induction l as [|y l IH]; cbn; [reflexivity|].
  destruct (key y <=? key e)%nat; [reflexivity|].
  rewrite IH. apply perm_swap.
Qed.

Lemma sortDesc_perm (l : list A) : Permutation (sortDesc key l) l.
Proof.
  induction l as [|x l IH]; cbn; [reflexivity|].
  rewrite insertDesc_perm. now constructor.
Qed.

Lemma insertDesc_sorted (e : A) (l : list A) :
  StronglySorted desc l -> StronglySorted desc (insertDesc key e l).
Proof.
  induction 1 as [|y l Hl IH Hy]; cbn.
  - constructor; constructor.
  - destruct (key y <=? key e)%nat eqn:Hle.
    + apply Nat.leb_le in Hle. constructor; [now constructor|].
      constructor; [exact Hle|].
      apply Forall_forall. intros z Hz. rewrite Forall_forall in Hy.
      specialize (Hy z Hz). unfold desc in *. lia.
    + apply Nat.leb_gt in Hle. constructor; [exact IH|].
      apply Forall_forall. intros z Hz. rewrite Forall_forall in Hy.
      apply list_elem_of_In in Hz.
      apply (Permutation_in _ (insertDesc_perm e l)) in Hz.
      destruct Hz as [<-|Hz]; [unfold desc; lia|].
      apply Hy. now apply list_elem_of_In.
Qed.

Lemma sortDesc_sorted (l : list A) : StronglySorted desc (sortDesc key l).
Proof.
  induction l as [|x l IH]; cbn; [constructor | now apply insertDesc_sorted].
Qed.

End SortDesc.

Lemma StronglySorted_firstn {A} (R : A -> A -> Prop) (n : nat) (l : list A) :
  StronglySorted R l -> StronglySorted R (firstn n l).
Proof.
  intros Hl. revert n. induction Hl as [|x l Hl IH Hx]; intros [|n]; cbn;
    try constructor.
  - apply IH.
  - apply Forall_forall. intros y Hy. rewrite Forall_forall in Hx. apply Hx.
    apply (subseteq_take n l), Hy.
Qed.

Lemma StronglySorted_snoc {A} (R : A -> A -> Prop) (l : list A) (x : A) :
  StronglySorted R l -> Forall (fun y => R y x) l -> StronglySorted R (l ++ [x]).
Proof.
  induction 1 as [|y l Hl IH Hy]; intros Hx; cbn.
  - constructor; constructor.
  - apply Forall_cons in Hx as [Hyx Hx]. constructor; [now apply IH|].
    apply Forall_app. split; [exact Hy | now constructor].
Qed.

Lemma StronglySorted_rev {A} (R : A -> A -> Prop) (l : list A) :
  StronglySorted R l -> StronglySorted (fun a b => R b a) (rev l).
Proof.
  induction 1 as [|x l Hl IH Hx]; cbn; [constructor|].
  apply StronglySorted_snoc; [exact IH|].
  apply Forall_forall. intros y Hy. rewrite Forall_forall in Hx. apply Hx.
  apply list_elem_of_In in Hy. apply list_elem_of_In. now apply in_rev.
Qed.

(** *** The table of counters *)

Lemma countOf_setCount (counts : Counts) (key : string) (n : nat) (k : string) :
  countOf (setCount counts key n) k
  = if String.eqb key k then n else countOf counts k.
Proof.
  induction counts as [|[k' m] rest IH]; cbn.
  - reflexivity.
  - destruct (String.eqb k' key) eqn:Hk; cbn.
    + apply String.eqb_eq in Hk. subst k'. now destruct (String.eqb key k).
    + rewrite IH. destruct (String.eqb k' k) eqn:Hk'; [|reflexivity].
      apply String.eqb_eq in Hk'. subst k'. now rewrite String.eqb_sym, Hk.
Qed.

Lemma setCount_keys (counts : Counts) (key : string) (n : nat) :
  List.map fst (setCount counts key n)
  = if existsb (String.eqb key) (List.map fst counts)
    then List.map fst counts
    else List.map fst counts ++ [key].
Proof.
  induction counts as [|[k' m] rest IH]; cbn; [reflexivity|].
  rewrite (String.eqb_sym key k').
  destruct (String.eqb k' key) eqn:Hk; cbn; [reflexivity|].
  rewrite IH. now destruct (existsb _ _).
Qed.

Lemma existsb_eqb_In (key : string) (l : list string) :
  existsb (String.eqb key) l = true <-> In key l.
Proof.
  rewrite existsb_exists. split.
  - intros (x & Hx & Heq). apply String.eqb_eq in Heq. now subst.
  - intros Hin. exists key. split; [exact Hin | apply String.eqb_refl].
Qed.

Lemma setCount_NoDup (counts : Counts) (key : string) (n : nat) :
  NoDup (List.map fst counts) -> NoDup (List.map fst (setCount counts key n)).
Proof.
  intros Hnd. rewrite setCount_keys.
  destruct (existsb _ _) eqn:Hex; [exact Hnd|].
  apply NoDup_app. repeat split.
  - exact Hnd.
  - intros x Hx Hx'. apply list_elem_of_In in Hx. apply list_elem_of_In in Hx'.
    destruct Hx' as [<-|[]].
    apply existsb_eqb_In in Hx. congruence.
  - apply NoDup_singleton.
Qed.

Lemma bump_fold_countOf (values : list string) (counts : Counts) (k : string) :
  countOf (fold_left bump values counts) k
  = (countOf counts k + count_occ string_dec values k)%nat.
Proof.
  revert counts. induction values as [|v values IH]; intros counts; cbn.
  - lia.
  - rewrite IH. unfold bump at 1. rewrite countOf_setCount.
    destruct (string_dec v k) as [->|Hne].
    + rewrite String.eqb_refl. lia.
    + apply String.eqb_neq in Hne. rewrite Hne. lia.
Qed.

Lemma bump_fold_NoDup (values : list string) (counts : Counts) :
  NoDup (List.map fst counts) -> NoDup (List.map fst (fold_left bump values counts)).
Proof.
  revert counts. induction values as [|v values IH]; intros counts Hnd; cbn.
  - exact Hnd.
  - apply IH. now apply setCount_NoDup.
Qed.

Lemma countResult_bumps (field : Field) (counts : Counts) (r : AnalysisResult) :
  countResult field counts r = fold_left bump (countedValues field r) counts.
Proof.
  unfold countResult, countedValues.
  destruct (truthy (get r "analysis")); cbn [negb]; [|reflexivity].
  destruct field.
  - destruct (getProp _ _); try reflexivity. now destruct (nonEmpty _).
  - destruct (getProp _ _); try reflexivity. now destruct (nonEmpty _).
  - now destruct (getProp _ _).
Qed.

Lemma countResult_fold (field : Field) (rs : list AnalysisResult) (counts : Counts) :
  fold_left (countResult field) rs counts
  = fold_left bump (flat_map (countedValues field) rs) counts.
Proof.
  revert counts. induction rs as [|r rs IH]; intros counts; cbn; [reflexivity|].
  rewrite IH, countResult_bumps. now rewrite fold_left_app.
Qed.

(** In a table with distinct names, the count of a name is the one of its
    entry; the order of the entries does not matter. *)
Lemma countOf_In (counts : Counts) (k : string) (n : nat) :
  NoDup (List.map fst counts) -> In (k, n) counts -> countOf counts k = n.
Proof.
  induction counts as [|[k' m] rest IH]; cbn; intros Hnd Hin; [contradiction|].
  apply NoDup_cons in Hnd as [Hk' Hnd].
  destruct Hin as [[= -> ->]|Hin].
  - now rewrite String.eqb_refl.
  - destruct (String.eqb k' k) eqn:Hk; [|now apply IH].
    apply String.eqb_eq in Hk. subst k'. exfalso. apply Hk'.
    apply list_elem_of_In. apply in_map_iff. now exists (k, n).
Qed.

Lemma countOf_not_In (counts : Counts) (k : string) :
  ~ In k (List.map fst counts) -> countOf counts k = 0%nat.
Proof.
  induction counts as [|[k' m] rest IH]; cbn; intros Hk; [reflexivity|].
  destruct (String.eqb k' k) eqn:Heq.
  - apply String.eqb_eq in Heq. subst. exfalso. apply Hk. now left.
  - apply IH. intros Hin. apply Hk. now right.
Qed.

Lemma countOf_perm (l l' : Counts) (k : string) :
  NoDup (List.map fst l) -> Permutation l l' -> countOf l k = countOf l' k.
Proof.
  intros Hnd Hperm.
  assert (Hnd' : NoDup (List.map fst l')).
  { now rewrite <- (Permutation_map fst Hperm). }
  destruct (in_dec string_dec k (List.map fst l)) as [Hin|Hout].
  - apply in_map_iff in Hin as ([k' n] & Hk & Hin). cbn in Hk. subst k'.
    rewrite (countOf_In l k n Hnd Hin).
    symmetry. apply countOf_In; [exact Hnd'|].
    now apply (Permutation_in _ Hperm).
  - rewrite (countOf_not_In l k Hout). symmetry. apply countOf_not_In.
    intros Hin. apply Hout.
    apply (Permutation_in _ (Permutation_sym (Permutation_map fst Hperm))), Hin.
Qed.

Lemma insertByIndex_perm (e : string * nat) (l : Counts) :
  Permutation (insertByIndex e l) (e :: l).
Proof.
  induction l as [|y l IH]; cbn; [reflexivity|].
  destruct (parseInt (fst e) <? parseInt (fst y)); [reflexivity|].
  rewrite IH. apply perm_swap.
Qed.

Lemma filter_partition_perm {A} (f : A -> bool) (l : list A) :
  Permutation (List.filter f l ++ List.filter (fun x => negb (f x)) l) l.
Proof.
  induction l as [|x l IH]; cbn; [reflexivity|].
  destruct (f x); cbn.
  - now constructor.
  - rewrite <- Permutation_middle. now constructor.
Qed.

Lemma Object_entries_perm (counts : Counts) : Permutation (Object_entries counts) counts.
Proof.
  unfold Object_entries.
  rewrite <- (filter_partition_perm (fun e => isArrayIndex (fst e)) counts) at 3.
  apply Permutation_app_tail.
  induction (List.filter _ counts) as [|e l IH]; cbn; [reflexivity|].
  rewrite insertByIndex_perm. now constructor.
Qed.


Lemma setCount_positive (counts : Counts) (key : string) (n : nat) :
  (0 < n)%nat -> Forall (fun e => 0 < snd e)%nat counts ->
  Forall (fun e => 0 < snd e)%nat (setCount counts key n).
Proof.
  intros Hn. induction 1 as [|[k m] rest Hm Hrest IH]; cbn.
  - now repeat constructor.
  - destruct (String.eqb k key); constructor; assumption.
Qed.

Lemma bump_fold_positive (values : list string) (counts : Counts) :
  Forall (fun e => 0 < snd e)%nat counts ->
  Forall (fun e => 0 < snd e)%nat (fold_left bump values counts).
Proof.
  revert counts. induction values as [|v values IH]; intros counts Hpos; cbn.
  - exact Hpos.
  - apply IH. apply setCount_positive; [lia | exact Hpos].
Qed.

(** What [getCounts] returns without [slice]: a rearrangement of the table
    of counters. *)
Lemma getCounts_perm (rs : list AnalysisResult) (field : Field) :
  Permutation (getCounts rs field None)
              (fold_left bump (flat_map (countedValues field) rs) []).
Proof.
  unfold getCounts. rewrite countResult_fold.
  rewrite sortDesc_perm. apply Object_entries_perm.
Qed.

Lemma slice0_positive {A} (l : list A) (n : Z) :
  0 < n -> slice0 l n = firstn (Z.to_nat n) l.
Proof.
  intros Hn. unfold slice0.
  destruct (n <? 0) eqn:Hneg; [apply Z.ltb_lt in Hneg; lia|].
  destruct (Z.le_ge_cases n (Z.of_nat (length l))) as [Hle|Hge].
  - now rewrite Z.min_l by exact Hle.
  - rewrite Z.min_r by exact Hge. rewrite Nat2Z.id.
    rewrite firstn_all. symmetry. apply take_ge. lia.
Qed.

Lemma getCounts_countOf (rs : list AnalysisResult) (field : Field) (value : string) :
  NoDup (List.map fst (getCounts rs field None))
  /\ countOf (getCounts rs field None) value = occurrences field rs value.
Proof.
  set (table := fold_left bump (flat_map (countedValues field) rs) []).
  assert (Hperm : Permutation (getCounts rs field None) table) by apply getCounts_perm.
  assert (Hnd : NoDup (List.map fst (getCounts rs field None))).
  { rewrite (Permutation_map fst Hperm). apply bump_fold_NoDup. constructor. }
  split; [exact Hnd|].
  rewrite (countOf_perm _ table value Hnd Hperm).
  subst table. now rewrite bump_fold_countOf.
Qed.

(** [C6], as amended. On records none of whose counted values is a name
    that objects inherit, [getCounts] returns one pair per value that
    occurs, with the number of its occurrences (every element of a topic
    list counts on its own), in descending order of count; the topic lists
    A X, A Y and B give A 2 and then X 1, Y 1, B 1. With a positive [slice]
    the result is the first [slice] pairs in reverse, ascending; a [slice]
    of 0 is taken as no [slice]. *)
Theorem getCounts_sorted_by_count (rs : list AnalysisResult) (field : Field) :
  ownNames field rs ->
  let sorted := getCounts rs field None in
  StronglySorted descending sorted
  /\ NoDup (List.map fst sorted)
  /\ (forall value, countOf sorted value = occurrences field rs value)
  /\ (forall value n,
        In (value, n) sorted <-> n = occurrences field rs value /\ (0 < n)%nat)
  /\ (forall n, 0 < n ->
        getCounts rs field (Some n) = rev (firstn (Z.to_nat n) sorted)
        /\ StronglySorted ascending (getCounts rs field (Some n)))
  /\ getCounts rs field (Some 0) = sorted
  /\ getCounts topicsExample FTopics None
     = [("A", 2%nat); ("X", 1%nat); ("Y", 1%nat); ("B", 1%nat)].
Proof.
  intros _ sorted.
  assert (Hperm : Permutation sorted
                    (fold_left bump (flat_map (countedValues field) rs) []))
    by apply getCounts_perm.
  assert (Hnd : NoDup (List.map fst sorted)) by apply (getCounts_countOf rs field "").
  assert (Hcount : forall value, countOf sorted value = occurrences field rs value)
    by (intros value; apply getCounts_countOf).
  assert (Hpos : Forall (fun e => 0 < snd e)%nat sorted).
  { rewrite Hperm. apply bump_fold_positive. constructor. }
  assert (Hsorted : StronglySorted descending sorted)
    by (subst sorted; unfold getCounts; apply sortDesc_sorted).
  split; [exact Hsorted|]. split; [exact Hnd|]. split; [exact Hcount|].
  split; [|split; [|split]].
  - intros value n. split.
    + intros Hin. split.
      * rewrite <- Hcount. symmetry. now apply countOf_In.
      * rewrite Forall_forall in Hpos.
        apply (Hpos (value, n)). now apply list_elem_of_In.
    + intros [-> Hn]. rewrite <- Hcount in *.
      destruct (in_dec string_dec value (List.map fst sorted)) as [Hin|Hout].
      * apply in_map_iff in Hin as ([k m] & Hk & Hin). cbn in Hk. subst k.
        now rewrite (countOf_In sorted value m Hnd Hin).
      * rewrite (countOf_not_In sorted value Hout) in Hn. lia.
  - intros n Hn.
    assert (Heq : getCounts rs field (Some n) = rev (firstn (Z.to_nat n) sorted)).
    { unfold getCounts. destruct (n =? 0) eqn:H0; [apply Z.eqb_eq in H0; lia|].
      now rewrite slice0_positive by exact Hn. }
    split; [exact Heq|]. rewrite Heq.
    apply (StronglySorted_rev descending). now apply StronglySorted_firstn.
  - reflexivity.
  - vm_compute. reflexivity.
Qed.

Lemma getCounts_sorted_by_count_witness :
  ownNames FTopics topicsExample
  /\ StronglySorted descending (getCounts topicsExample FTopics None)
  /\ (forall value n,
        In (value, n) (getCounts topicsExample FTopics None)
        <-> n = occurrences FTopics topicsExample value /\ (0 < n)%nat)
  /\ getCounts topicsExample FTopics (Some 2)
     = rev (firstn 2 (getCounts topicsExample FTopics None)).
Proof.
  assert (Hown : ownNames FTopics topicsExample) by (repeat constructor).
  destruct (getCounts_sorted_by_count topicsExample FTopics Hown)
    as (Hsorted & _ & _ & Hin & Hslice & _).
  split; [exact Hown|]. split; [exact Hsorted|]. split; [exact Hin|].
  exact (proj1 (Hslice 2 eq_refl)).
Defined.

(** [C6] as stated fails for a [slice] of 0: the result is not the first 0
    pairs in reverse, the whole list comes back in descending order. *)
Lemma getCounts_slice_zero :
  getCounts topicsExample FTopics (Some 0)
  = [("A", 2%nat); ("X", 1%nat); ("Y", 1%nat); ("B", 1%nat)]
  /\ getCounts topicsExample FTopics (Some 0)
     <> rev (slice0 (getCounts topicsExample FTopics None) 0).
Proof. vm_compute. split; [reflexivity | discriminate]. Qed.

(** When every record is classified, the count of a topic is the number of
    its occurrences in the topic lists. *)
Lemma getCounts_topics_classified (lists : list (list string)) (topic : string) :
  countOf (getCounts (List.map classifiedWith lists) FTopics None) topic
  = count_occ string_dec (concat lists) topic.
Proof.
  destruct (getCounts_countOf (List.map classifiedWith lists) FTopics topic) as [_ ->].
  unfold occurrences. f_equal.
  induction lists as [|ts lists IH]; cbn [List.map flat_map concat]; [reflexivity|].
  now rewrite IH.
Qed.

(** ** AggregationEngine: topic tree *)

Import Topics.

Lemma nodeCount_alter_touch (r : AnalysisResult) (root : gmap string TopicNode)
    (t k : string) :
  is_Some (root !! t) ->
  nodeCount (alter (touch r) t root) k
  = (nodeCount root k + if string_dec t k then 1 else 0)%nat.
Proof.
  intros [node Hnode]. unfold nodeCount.
  destruct (string_dec t k) as [<-|Hne].
  - rewrite lookup_alter_eq, Hnode. cbn. lia.
  - rewrite lookup_alter_ne by exact Hne. destruct (root !! k); lia.
Qed.

Lemma nodeCount_alter_registerChild (child p : string) (root : gmap string TopicNode)
    (k : string) :
  nodeCount (alter (registerChild child) p root) k = nodeCount root k.
Proof.
  unfold nodeCount. destruct (decide (p = k)) as [<-|Hne].
  - rewrite lookup_alter_eq. destruct (root !! p) as [node|]; cbn; [|reflexivity].
    unfold registerChild. now destruct (existsb _ _).
  - now rewrite lookup_alter_ne by exact Hne.
Qed.

(** One step of the walk adds one to the count of the topic it visits, in
    the one table [root], at whatever depth the topic stands. *)
Lemma visitTopic_count (r : AnalysisResult) (root : gmap string TopicNode)
    (parentNode : option string) (t k : string) :
  nodeCount (fst (visitTopic r (root, parentNode) t)) k
  = (nodeCount root k + if string_dec t k then 1 else 0)%nat.
Proof.
  unfold visitTopic. cbn [fst].
  destruct (root !! t) as [node|] eqn:Hnode.
  - apply nodeCount_alter_touch. rewrite Hnode. eauto.
  - assert (Hcreated : forall k', nodeCount (<[t := newNode t]> root) k' = nodeCount root k').
    { intros k'. unfold nodeCount. destruct (decide (t = k')) as [<-|Hne].
      - now rewrite lookup_insert_eq, Hnode.
      - now rewrite lookup_insert_ne by exact Hne. }
    destruct parentNode as [p|].
    + rewrite nodeCount_alter_touch.
      * now rewrite nodeCount_alter_registerChild, Hcreated.
      * destruct (decide (p = t)) as [->|Hne].
        -- rewrite lookup_alter_eq, lookup_insert_eq. cbn. eauto.
        -- rewrite lookup_alter_ne, lookup_insert_eq by exact Hne. eauto.
    + rewrite nodeCount_alter_touch; [now rewrite Hcreated|].
      rewrite lookup_insert_eq. eauto.
Qed.

Lemma visitTopics_count (r : AnalysisResult) (ts : list string)
    (root : gmap string TopicNode) (parentNode : option string) (k : string) :
  nodeCount (fst (fold_left (visitTopic r) ts (root, parentNode))) k
  = (nodeCount root k + count_occ string_dec ts k)%nat.
Proof.
  revert root parentNode.
  induction ts as [|t ts IH]; intros root parentNode; cbn [fold_left count_occ fst].
  - lia.
  - destruct (visitTopic r (root, parentNode) t) as [root' parent'] eqn:Hstep.
    rewrite IH.
    pose proof (visitTopic_count r root parentNode t k) as Hc.
    rewrite Hstep in Hc. cbn [fst] in Hc. rewrite Hc.
    destruct (string_dec t k); lia.
Qed.

Lemma visitResult_count (root : gmap string TopicNode) (r : AnalysisResult) (k : string) :
  nodeCount (visitResult root r) k
  = (nodeCount root k + count_occ string_dec (countedValues FTopics r) k)%nat.
Proof.
  unfold visitResult, countedValues.
  destruct (truthy (get r "analysis")); cbn [negb]; [|cbn [count_occ]; lia].
  destruct (getProp (get r "analysis") "topics") as [| | |ts| |]; cbn [count_occ]; try lia.
  destruct ts as [|t ts]; [cbn [count_occ]; lia|].
  apply visitTopics_count.
Qed.

(** The count of a node is the number of times its name occurs in the topic
    lists, first place or not. *)
Lemma buildRoot_count (rs : list AnalysisResult) (k : string) :
  nodeCount (buildRoot rs) k = occurrences FTopics rs k.
Proof.
  unfold buildRoot, occurrences.
  assert (Hgen : forall root,
            nodeCount (fold_left visitResult rs root) k
            = (nodeCount root k
               + count_occ string_dec (flat_map (countedValues FTopics) rs) k)%nat).
  { induction rs as [|r rs IH]; intros root; cbn [fold_left flat_map count_occ]; [lia|].
    rewrite IH, visitResult_count, count_occ_app. lia. }
  rewrite Hgen. unfold nodeCount. now rewrite lookup_empty.
Qed.

Lemma visitTopic_namedByKey (r : AnalysisResult) (root : gmap string TopicNode)
    (parentNode : option string) (t : string) :
  namedByKey root -> namedByKey (fst (visitTopic r (root, parentNode) t)).
Proof.
  intros Hroot. unfold visitTopic. cbn [fst].
  assert (Htouch : forall m : gmap string TopicNode,
            namedByKey m -> namedByKey (alter (touch r) t m)).
  { intros m Hm k node Hk. destruct (decide (t = k)) as [<-|Hne].
    - rewrite lookup_alter_eq in Hk. destruct (m !! t) as [n|] eqn:Hn; [|discriminate Hk].
      cbn in Hk. injection Hk as <-. cbn. now apply Hm.
    - rewrite lookup_alter_ne in Hk by exact Hne. now apply Hm. }
  assert (Hreg : forall (m : gmap string TopicNode) p,
            namedByKey m -> namedByKey (alter (registerChild t) p m)).
  { intros m p Hm k node Hk. destruct (decide (p = k)) as [<-|Hne].
    - rewrite lookup_alter_eq in Hk. destruct (m !! p) as [n|] eqn:Hn; [|discriminate Hk].
      cbn in Hk. injection Hk as <-.
      unfold registerChild. destruct (existsb _ _); cbn; now apply Hm.
    - rewrite lookup_alter_ne in Hk by exact Hne. now apply Hm. }
  assert (Hnew : namedByKey (<[t := newNode t]> root)).
  { intros k node Hk. destruct (decide (t = k)) as [<-|Hne].
    - rewrite lookup_insert_eq in Hk. now injection Hk as <-.
    - rewrite lookup_insert_ne in Hk by exact Hne. now apply Hroot. }
  apply Htouch. destruct (root !! t); [exact Hroot|].
  destruct parentNode; [now apply Hreg | exact Hnew].
Qed.

Lemma buildRoot_namedByKey (rs : list AnalysisResult) : namedByKey (buildRoot rs).
Proof.
  unfold buildRoot.
  assert (Hgen : forall root, namedByKey root -> namedByKey (fold_left visitResult rs root)).
  { induction rs as [|r rs IH]; intros root Hroot; cbn [fold_left]; [exact Hroot|].
    apply IH. unfold visitResult.
    destruct (truthy _); cbn [negb]; [|exact Hroot].
    destruct (getProp _ _) as [| | |ts| |]; try exact Hroot.
    destruct ts as [|t ts]; [exact Hroot|].
    generalize (t :: ts). clear t ts. intros ts.
    generalize (@None string). revert root Hroot.
    induction ts as [|t ts IHts]; intros root Hroot p; cbn [fold_left]; [exact Hroot|].
    pose proof (visitTopic_namedByKey r root p t Hroot) as Hstep.
    destruct (visitTopic r (root, p) t) as [root' p']. now apply IHts. }
  apply Hgen. intros k node Hk. now rewrite lookup_empty in Hk.
Qed.

(** The root-level nodes [topicTree] returns are nodes of the one table, and
    the count of each is the number of times its name occurs in the topic
    lists, at any depth. *)
Theorem topicTree_root_counts (rs : list AnalysisResult) (tree : list TopicNode) :
  topicTree rs = Some tree ->
  forall node, In node tree ->
    buildRoot rs !! name node = Some node
    /\ count node = occurrences FTopics rs (name node).
Proof.
  unfold topicTree. destruct (firstTopics rs) as [firsts|]; [|discriminate].
  intros [= <-] node Hin.
  apply (Permutation_in _ (sortDesc_perm count _)) in Hin.
  apply in_flat_map in Hin as (topicName & _ & Hnode).
  destruct (buildRoot rs !! topicName) as [node'|] eqn:Hlookup; [|contradiction].
  destruct Hnode as [<-|[]].
  pose proof (buildRoot_namedByKey rs topicName node' Hlookup) as Hname.
  rewrite Hname. split; [exact Hlookup|].
  rewrite <- buildRoot_count. unfold nodeCount. now rewrite Hlookup.
Qed.

Lemma topicTree_root_counts_witness :
  topicTree subTopicAlone <> None
  /\ forall tree, topicTree subTopicAlone = Some tree ->
       forall node, In node tree ->
         buildRoot subTopicAlone !! name node = Some node
         /\ count node = occurrences FTopics subTopicAlone (name node).
Proof.
  split; [vm_compute; discriminate|].
  intros tree Htree. exact (topicTree_root_counts subTopicAlone tree Htree).
Defined.

(** A name that stands below the first place in no topic list is counted
    once per record that has it first. *)
Lemma occurrences_first_topic (rs : list AnalysisResult) (topicName : string) :
  ~ occursBelowFirst rs topicName ->
  occurrences FTopics rs topicName = recordsWithFirstTopic rs topicName.
Proof.
  unfold occurrences, recordsWithFirstTopic, occursBelowFirst.
  induction rs as [|r rs IH]; intros Hbelow; cbn [flat_map List.filter length];
    [reflexivity|].
  rewrite count_occ_app, IH.
  2:{ intros (r' & Hr' & Hin). apply Hbelow. exists r'. split; [now right | exact Hin]. }
  assert (Htail : ~ In topicName (tl (countedValues FTopics r))).
  { intros Hin. apply Hbelow. exists r. split; [now left | exact Hin]. }
  unfold firstTopicIs.
  destruct (countedValues FTopics r) as [|t tail]; [reflexivity|].
  cbn [tl] in Htail. cbn [count_occ].
  rewrite (proj1 (count_occ_not_In string_dec tail topicName) Htail).
  destruct (string_dec t topicName) as [->|Hne].
  - rewrite String.eqb_refl. cbn [length]. lia.
  - apply String.eqb_neq in Hne. rewrite Hne. lia.
Qed.

(** [C2], at two classified records, of which the second names as its only
    topic the sub-topic of the first. Both names are root-level nodes; the
    node of the sub-topic has count 2, while one record has it as first
    topic; and the root-level counts add up to 3 over 2 records. *)
Theorem topicTree_sub_topic_alone :
  exists tree,
    topicTree subTopicAlone = Some tree
    /\ List.map (fun node => (name node, count node)) tree
       = [("Delivery speed", 2%nat); ("Delivery & Logistics", 1%nat)]
    /\ recordsWithFirstTopic subTopicAlone "Delivery speed" = 1%nat
    /\ list_sum (List.map count tree) = 3%nat
    /\ recordsWithTopic subTopicAlone = 2%nat.
Proof.
  eexists. split; [vm_compute; reflexivity|].
  split; [|split; [|split]]; vm_compute; reflexivity.
Qed.

(** ** AggregationEngine: time series *)

Import Trend.

(** Grouping puts every record in exactly the group of its key, and drops
    none. *)
Lemma addToGroup_In (k : option Z) (r : AnalysisResult)
    (groups : list (option Z * list AnalysisResult)) (k' : option Z) (r' : AnalysisResult) :
  (exists g, In (k', g) (addToGroup k r groups) /\ In r' g)
  <-> (exists g, In (k', g) groups /\ In r' g) \/ (k' = k /\ r' = r).
Proof.
  induction groups as [|[k0 g0] rest IH]; cbn [addToGroup].
  - split.
    + intros (g & [[= <- <-]|[]] & [<-|[]]). right. now split.
    + intros [(g & [] & _)|[-> ->]]. exists [r]. split; now left.
  - destruct (bool_decide (k = k0)) eqn:Hk.
    + apply bool_decide_eq_true in Hk. subst k0. split.
      * intros (g & [[= <- <-]|Hin] & Hr').
        -- apply in_app_or in Hr' as [Hr'|[<-|[]]].
           ++ left. exists g0. split; [now left | exact Hr'].
           ++ right. now split.
        -- left. exists g. split; [now right | exact Hr'].
      * intros [(g & [[= <- <-]|Hin] & Hr')|[-> ->]].
        -- exists (g0 ++ [r]). split; [now left | apply in_or_app; now left].
        -- exists g. split; [now right | exact Hr'].
        -- exists (g0 ++ [r]). split; [now left | apply in_or_app; right; now left].
    + split.
      * intros (g & [[= <- <-]|Hin] & Hr').
        -- left. exists g0. split; [now left | exact Hr'].
        -- destruct (proj1 IH (ex_intro _ g (conj Hin Hr'))) as [(g' & Hg' & Hr'')|Hnew].
           ++ left. exists g'. split; [now right | exact Hr''].
           ++ now right.
      * intros [(g & [[= <- <-]|Hin] & Hr')|Hnew].
        -- exists g0. split; [now left | exact Hr'].
        -- destruct (proj2 IH (or_introl (ex_intro _ g (conj Hin Hr')))) as (g' & Hg' & Hr'').
           exists g'. split; [now right | exact Hr''].
        -- destruct (proj2 IH (or_intror Hnew)) as (g' & Hg' & Hr'').
           exists g'. split; [now right | exact Hr''].
Qed.

Lemma groupByBucket_In (D : D3Time) (p : Period) (rs : list AnalysisResult)
    (k : option Z) (r : AnalysisResult) :
  (exists g, In (k, g) (groupByBucket p rs) /\ In r g)
  <-> In r rs /\ k = bucketOf p r.
Proof.
  unfold groupByBucket.
  assert (Hgen : forall groups,
            (exists g, In (k, g) (fold_left (fun gs x => addToGroup (bucketOf p x) x gs) rs groups)
                       /\ In r g)
            <-> (exists g, In (k, g) groups /\ In r g) \/ (In r rs /\ k = bucketOf p r)).
  { induction rs as [|x rs IH]; intros groups; cbn [fold_left].
    - split; [now left | intros [H|[[] _]]; exact H].
    - rewrite IH, addToGroup_In. cbn [In]. split.
      + intros [[H|[-> ->]]|[Hr Hk]]; [now left | right; split; [now left | reflexivity] |].
        right. split; [now right | exact Hk].
      + intros [H|[[->|Hr] Hk]]; [left; now left | left; right; now split |].
        right. now split. }
  rewrite Hgen. split.
  - intros [(g & [] & _)|H]; exact H.
  - intros H. now right.
Qed.


(** *** From the buckets to the series *)

Lemma addToGroup_keys (k : option Z) (r : AnalysisResult)
    (groups : list (option Z * list AnalysisResult)) :
  List.map fst (addToGroup k r groups)
  = if bool_decide (k ∈ List.map fst groups)
    then List.map fst groups
    else List.map fst groups ++ [k].
Proof.
  induction groups as [|[k' g] rest IH]; cbn [addToGroup List.map fst].
  - rewrite bool_decide_eq_false_2 by apply not_elem_of_nil. reflexivity.
  - destruct (bool_decide (k = k')) eqn:Hk.
    + apply bool_decide_eq_true in Hk. subst k'.
      rewrite bool_decide_eq_true_2 by (apply elem_of_cons; now left). reflexivity.
    + apply bool_decide_eq_false in Hk. cbn [List.map fst]. rewrite IH.
      destruct (bool_decide (k ∈ List.map fst rest)) eqn:Hin.
      * apply bool_decide_eq_true in Hin.
        rewrite bool_decide_eq_true_2 by (apply elem_of_cons; now right). reflexivity.
      * apply bool_decide_eq_false in Hin.
        rewrite bool_decide_eq_false_2
          by (intros [Heq|Hr]%elem_of_cons; [congruence | contradiction]).
        reflexivity.
Qed.

Lemma groupByBucket_NoDup (D : D3Time) (p : Period) (rs : list AnalysisResult) :
  NoDup (List.map fst (groupByBucket p rs)).
Proof.
  unfold groupByBucket.
  assert (Hgen : forall groups,
            NoDup (List.map fst groups) ->
            NoDup (List.map fst
                     (fold_left (fun gs x => addToGroup (bucketOf p x) x gs) rs groups))).
  { induction rs as [|x rs IH]; intros groups Hnd; cbn [fold_left]; [exact Hnd|].
    apply IH. rewrite addToGroup_keys.
    destruct (bool_decide _) eqn:Hin; [exact Hnd|].
    apply bool_decide_eq_false in Hin.
    apply NoDup_app. split; [exact Hnd|]. split; [|apply NoDup_singleton].
    intros y Hy Hy'. apply list_elem_of_singleton in Hy'. now subst y. }
  apply Hgen. constructor.
Qed.

Lemma lookupBucket_In (k : option Z) (c : Counts) (data : list (option Z * Counts)) :
  NoDup (List.map fst data) -> In (k, c) data -> lookupBucket k data = Some c.
Proof.
  induction data as [|[k' c'] rest IH]; cbn [lookupBucket List.map fst In];
    intros Hnd Hin; [contradiction|].
  apply NoDup_cons in Hnd as [Hk' Hnd].
  destruct Hin as [[= -> ->]|Hin].
  - now rewrite bool_decide_eq_true_2.
  - destruct (bool_decide (k = k')) eqn:Hk; [|now apply IH].
    apply bool_decide_eq_true in Hk. subst k'. exfalso. apply Hk'.
    apply list_elem_of_In, in_map_iff. now exists (k, c).
Qed.

Lemma insertKey_perm (k : option Z) (l : list (option Z)) :
  Permutation (insertKey k l) (k :: l).
Proof.
  induction l as [|y l IH]; cbn; [reflexivity|].
  destruct (keyLtb k y); [reflexivity|].
  rewrite IH. apply perm_swap.
Qed.

Lemma sortKeys_perm (l : list (option Z)) : Permutation (sortKeys l) l.
Proof.
  induction l as [|x l IH]; cbn; [reflexivity|].
  rewrite insertKey_perm. now constructor.
Qed.

(** Without a mapped date column, or without a record that is both dated
    and classified, there is no series. *)
Lemma trendData_null (E : Engine) (D : D3Time) (st : Component) :
  nonEmpty (mappedDateColumn st) = false \/ included st = [] ->
  trendData st = None.
Proof.
  unfold trendData. intros [Hcol|Hinc].
  - now rewrite Hcol.
  - rewrite Hinc. now destruct (negb _).
Qed.

(** [C5] as stated fails: a record that has a date and lacks only the
    classification is left out as well. *)
Lemma trendData_excludes_dated_unclassified :
  ~ (forall (E : Engine) (st : Component) (r : AnalysisResult),
       In r (filteredAnalysisResults st) ->
       (~ In r (included st)
        <-> truthy (get r "date") = false /\ truthy (get r "analysis") = false)).
Proof.
  intros Hall.
  pose (r := ({[ "rowId" := VNumber 3; "text" := VString "Great";
                 "date" := VDate 1704412800000;
                 "error" := VString "Failed to analyze response." ]} : AnalysisResult)).
  assert (Hr : In r (@filteredAnalysisResults utcEngine oneOfTwo)) by (right; now left).
  destruct (Hall utcEngine oneOfTwo r Hr) as [Hexcluded _].
  assert (Hout : ~ In r (@included utcEngine oneOfTwo)).
  { unfold included. rewrite filter_In. intros [_ Hboth]. vm_compute in Hboth.
    discriminate Hboth. }
  destruct (Hexcluded Hout) as [Hdate _]. vm_compute in Hdate. discriminate Hdate.
Qed.

(** With a mapped date column but no record that is both dated and
    classified, there is no time series at all. *)
Example trendData_oneOfTwo : @trendData utcEngine utcTime oneOfTwo = None.
Proof. vm_compute. reflexivity. Qed.

(** Two records dated Monday 2024-01-01 and Wednesday 2024-01-03 fall in the
    one week that starts on Sunday 2023-12-31. *)
Example trendData_bothOfTwo :
  option_map (fun td => (dates td, keys td, series td, stackedData td))
             (@trendData utcEngine utcTime bothOfTwo)
  = Some ([Some 1703980800000], ["A"; "X"],
          [("A", [(Some 1703980800000, 2%nat)]); ("X", [(Some 1703980800000, 1%nat)])],
          [ {[ "date" := StackDate (Some 1703980800000);
               "A" := StackCount 2; "X" := StackCount 1 ]} ]).
Proof. vm_compute. reflexivity. Qed.

(** *** Tallies *)

Lemma hasKey_setCount (counts : Counts) (key : string) (n : nat) (k : string) :
  hasKey counts key = true -> hasKey (setCount counts key n) k = hasKey counts k.
Proof.
  unfold hasKey. induction counts as [|[k' m] rest IH]; cbn [setCount existsb fst].
  - discriminate.
  - destruct (String.eqb k' key) eqn:Hk; cbn [existsb fst]; [reflexivity|].
    cbn [orb]. intros Hrest. now rewrite IH.
Qed.

Lemma increment_hasKey (counts : Counts) (v k : string) :
  hasKey (increment counts v) k = hasKey counts k.
Proof.
  unfold increment. destruct (hasKey counts v) eqn:Hv; [|reflexivity].
  now apply hasKey_setCount.
Qed.

Lemma increment_countOf (counts : Counts) (v k : string) :
  hasKey counts k = true ->
  countOf (increment counts v) k
  = (countOf counts k + if string_dec v k then 1 else 0)%nat.
Proof.
  intros Hk. unfold increment. destruct (string_dec v k) as [->|Hne].
  - rewrite Hk, countOf_setCount, String.eqb_refl. reflexivity.
  - destruct (hasKey counts v); [|lia].
    rewrite countOf_setCount. apply String.eqb_neq in Hne. rewrite Hne. lia.
Qed.

Lemma increment_fold_countOf (values : list string) (counts : Counts) (k : string) :
  hasKey counts k = true ->
  countOf (fold_left increment values counts) k
  = (countOf counts k + count_occ string_dec values k)%nat.
Proof.
  revert counts. induction values as [|v values IH]; intros counts Hk;
    cbn [fold_left count_occ].
  - lia.
  - rewrite IH by (now rewrite increment_hasKey).
    rewrite increment_countOf by exact Hk.
    destruct (string_dec v k); lia.
Qed.

Lemma increment_fold_hasKey (values : list string) (counts : Counts) (k : string) :
  hasKey (fold_left increment values counts) k = hasKey counts k.
Proof.
  revert counts. induction values as [|v values IH]; intros counts; cbn [fold_left].
  - reflexivity.
  - now rewrite IH, increment_hasKey.
Qed.

(** The reducer increments a counter once per counted value of the record. *)
Lemma tally_increments (groupBy : Field) (counts : Counts) (d : AnalysisResult) :
  tally groupBy counts d = fold_left increment (countedValues groupBy d) counts.
Proof.
  unfold tally, countedValues.
  destruct (truthy (get d "analysis")); cbn [negb]; [|reflexivity].
  destruct (get d "analysis") as [| | | | |[a|m]], groupBy; cbn [fieldName];
    repeat match goal with
           | |- context [getProp ?v ?name] =>
               let r := eval vm_compute in (getProp v name) in
               change (getProp v name) with r
           end;
    try reflexivity.
  all: destruct a; cbv iota beta; match goal with
       | |- context [nonEmpty ?s] => now destruct (nonEmpty s)
       end.
Qed.

(** The tallies of a bucket: for every key of the chart, the number of its
    occurrences among the counted values of the records of the bucket. *)
Lemma reduceGroup_countOf (groupBy : Field) (allKeys : list string)
    (v : list AnalysisResult) (key : string) :
  In key allKeys ->
  countOf (reduceGroup groupBy allKeys v) key = occurrences groupBy v key.
Proof.
  intros Hkey. unfold reduceGroup, occurrences.
  set (zero := List.map (fun k => (k, 0%nat)) allKeys).
  assert (Hhas : hasKey zero key = true).
  { unfold hasKey. apply existsb_exists. exists (key, 0%nat).
    split; [|apply String.eqb_refl]. apply in_map_iff. now exists key. }
  assert (Hzero : countOf zero key = 0%nat).
  { subst zero. clear. induction allKeys as [|k ks IH]; cbn; [reflexivity|].
    now destruct (String.eqb k key). }
  assert (Hgen : forall counts,
            hasKey counts key = true ->
            countOf (fold_left (tally groupBy) v counts) key
            = (countOf counts key
               + count_occ string_dec (flat_map (countedValues groupBy) v) key)%nat).
  { induction v as [|d v IH]; intros counts Hc; cbn [fold_left flat_map count_occ]; [lia|].
    rewrite IH by (now rewrite tally_increments, increment_fold_hasKey).
    rewrite tally_increments, increment_fold_countOf by exact Hc.
    rewrite count_occ_app. lia. }
  rewrite Hgen by exact Hhas. lia.
Qed.

(** ** TemporalNormalizer *)

Lemma takeDigits_digitString (k : nat) (s ds rest : string) :
  takeDigits k s = Some (ds, rest) -> digitString k ds.
Proof.
  revert s ds rest. induction k as [|k IH]; intros s ds rest; cbn [takeDigits].
  - intros [= <- <-]. now split.
  - destruct s as [|c s]; [discriminate|].
    destruct (isDigit c) eqn:Hc; [|discriminate].
    destruct (takeDigits k s) as [[ds' rest']|] eqn:Hk; [|discriminate].
    intros [= <- <-]. destruct (IH _ _ _ Hk) as [Hlen Hall].
    split; cbn; [now rewrite Hlen | now rewrite Hc, Hall].
Qed.

Lemma parseInt_fold_bound (cs : list ascii) (acc : Z) :
  forallb isDigit cs = true -> 0 <= acc ->
  let n := fold_left (fun a c => 10 * a + (Z.of_nat (nat_of_ascii c) - 48)) cs acc in
  acc * 10 ^ Z.of_nat (length cs) <= n < (acc + 1) * 10 ^ Z.of_nat (length cs).
Proof.
  revert acc. induction cs as [|c cs IH]; intros acc Hd Hacc; cbn [fold_left length].
  - cbn. lia.
  - cbn [forallb] in Hd. apply andb_true_iff in Hd as [Hc Hcs].
    assert (Hdigit : 0 <= Z.of_nat (nat_of_ascii c) - 48 <= 9).
    { unfold isDigit in Hc. apply andb_true_iff in Hc as [H1 H2].
      apply Nat.leb_le in H1, H2. lia. }
    specialize (IH (10 * acc + (Z.of_nat (nat_of_ascii c) - 48)) Hcs ltac:(lia)).
    cbn zeta in IH |- *.
    rewrite Nat2Z.inj_succ, Z.pow_succ_r by lia.
    set (p := 10 ^ Z.of_nat (length cs)) in *.
    assert (0 < p) by (apply Z.pow_pos_nonneg; lia).
    nia.
Qed.

Lemma length_list_ascii_of_string (s : string) :
  length (list_ascii_of_string s) = String.length s.
Proof. induction s as [|c s IH]; cbn; [reflexivity | now rewrite IH]. Qed.

Lemma parseInt_bound (k : nat) (s : string) :
  digitString k s -> 0 <= parseInt s < 10 ^ Z.of_nat k.
Proof.
  intros [Hlen Hd]. unfold parseInt.
  pose proof (parseInt_fold_bound (list_ascii_of_string s) 0 Hd ltac:(lia)) as Hb.
  cbn zeta in Hb. rewrite length_list_ascii_of_string, Hlen in Hb. lia.
Qed.

(** What the pattern captures: one or two digits, twice, and four digits. *)
Lemma matchSecondAndYear_shape (s g2 g3 : string) :
  matchSecondAndYear s = Some (g2, g3) ->
  (digitString 1 g2 \/ digitString 2 g2) /\ digitString 4 g3.
Proof.
  unfold matchSecondAndYear.
  assert (Htry : forall k,
            match takeDigits k s with
            | Some (g2', r) =>
                match takeSeparator r with
                | Some r' =>
                    match takeDigits 4 r' with
                    | Some (g3', _) => Some (g2', g3')
                    | None => None
                    end
                | None => None
                end
            | None => None
            end = Some (g2, g3) ->
            digitString k g2 /\ digitString 4 g3).
  { intros k. destruct (takeDigits k s) as [[g2' r]|] eqn:H2; [|discriminate].
    destruct (takeSeparator r) as [r'|]; [|discriminate].
    destruct (takeDigits 4 r') as [[g3' r'']|] eqn:H4; [|discriminate].
    intros [= <- <-]. split; eapply takeDigits_digitString; eassumption. }
  match goal with |- context [match ?t with Some m => Some m | None => _ end] =>
    destruct t as [[a b]|] eqn:Hfirst end.
  - intros [= <- <-]. destruct (Htry 2%nat Hfirst). split; [now right | assumption].
  - intros Hsecond. destruct (Htry 1%nat Hsecond). split; [now left | assumption].
Qed.

Lemma matchDateHere_shape (s g1 g2 g3 : string) :
  matchDateHere s = Some (g1, g2, g3) ->
  (digitString 1 g1 \/ digitString 2 g1)
  /\ (digitString 1 g2 \/ digitString 2 g2) /\ digitString 4 g3.
Proof.
  unfold matchDateHere.
  assert (Htry : forall k,
            match takeDigits k s with
            | Some (g1', r) =>
                match takeSeparator r with
                | Some r' =>
                    match matchSecondAndYear r' with
                    | Some (g2', g3') => Some (g1', g2', g3')
                    | None => None
                    end
                | None => None
                end
            | None => None
            end = Some (g1, g2, g3) ->
            digitString k g1
            /\ (digitString 1 g2 \/ digitString 2 g2) /\ digitString 4 g3).
  { intros k. destruct (takeDigits k s) as [[g1' r]|] eqn:H1; [|discriminate].
    destruct (takeSeparator r) as [r'|]; [|discriminate].
    destruct (matchSecondAndYear r') as [[g2' g3']|] eqn:H2; [|discriminate].
    intros [= <- <- <-]. split; [eapply takeDigits_digitString; eassumption|].
    eapply matchSecondAndYear_shape; eassumption. }
  match goal with |- context [match ?t with Some m => Some m | None => _ end] =>
    destruct t as [[[a b] c]|] eqn:Hfirst end.
  - intros [= <- <- <-]. destruct (Htry 2%nat Hfirst) as (? & ? & ?).
    split; [now right|]. split; assumption.
  - intros Hsecond. destruct (Htry 1%nat Hsecond) as (? & ? & ?).
    split; [now left|]. split; assumption.
Qed.

Lemma matchDate_shape (s g1 g2 g3 : string) :
  matchDate s = Some (g1, g2, g3) ->
  (digitString 1 g1 \/ digitString 2 g1)
  /\ (digitString 1 g2 \/ digitString 2 g2) /\ digitString 4 g3.
Proof.
  induction s as [|c s IH]; cbn [matchDate].
  - destruct (matchDateHere "") as [m|] eqn:Hm; [|discriminate].
    intros [= ->]. now apply (matchDateHere_shape "").
  - destruct (matchDateHere (String c s)) as [m|] eqn:Hm; [|exact IH].
    intros [= ->]. now apply (matchDateHere_shape (String c s)).
Qed.

Lemma matchDate_bounds (s g1 g2 g3 : string) :
  matchDate s = Some (g1, g2, g3) ->
  0 <= parseInt g1 <= 99 /\ 0 <= parseInt g2 <= 99 /\ 0 <= parseInt g3 <= 9999.
Proof.
  intros Hm. apply matchDate_shape in Hm as (H1 & H2 & H3).
  apply parseInt_bound in H3.
  assert (0 <= parseInt g1 < 100)
    by (destruct H1 as [H1|H1]; apply parseInt_bound in H1; cbn in H1; lia).
  assert (0 <= parseInt g2 < 100)
    by (destruct H2 as [H2|H2]; apply parseInt_bound in H2; cbn in H2; lia).
  cbn in H3. lia.
Qed.

Lemma DayWithinYearOfMonth_bound (y mn : Z) :
  0 <= JsDate.DayWithinYearOfMonth y mn <= 335.
Proof.
  unfold JsDate.DayWithinYearOfMonth, JsDate.InLeapYear.
  destruct (JsDate.DaysInYear y =? 366);
    repeat match goal with |- context [if ?b then _ else _] => destruct b end; lia.
Qed.

Lemma DayFromYear_bound (y : Z) :
  -1 <= y <= 10008 -> -730000 <= JsDate.DayFromYear y <= 2940000.
Proof.
  intros Hy. unfold JsDate.DayFromYear. Z.div_mod_to_equations. lia.
Qed.

(** On what the pattern captures, [new Date(year, month, date)] is never an
    invalid date: a month or a day out of range carries over. *)
Lemma construct_valid (E : Engine) (year month date : Z) :
  boundedZone E ->
  0 <= year <= 9999 -> -1 <= month <= 98 -> 0 <= date <= 99 ->
  JsDate.construct year month date
  <> None.
Proof.
  intros Hzone Hy Hm Hd. unfold JsDate.construct, JsDate.TimeClip, JsDate.UTC.
  set (yr := if (0 <=? year) && (year <=? 99) then 1900 + year else year).
  assert (Hyr : 0 <= yr <= 9999).
  { subst yr. destruct ((0 <=? year) && (year <=? 99)) eqn:Hc; [|lia].
    apply andb_true_iff in Hc as [_ Hc]. apply Z.leb_le in Hc. lia. }
  set (t := JsDate.MakeDate (JsDate.MakeDay yr month date) 0).
  assert (Ht : Z.abs t <= 300000000000000).
  { subst t. unfold JsDate.MakeDate, JsDate.MakeDay, JsDate.msPerDay.
    pose proof (DayWithinYearOfMonth_bound (yr + month / 12) (month mod 12)) as Hw.
    assert (Hym : -1 <= yr + month / 12 <= 10008) by (Z.div_mod_to_equations; lia).
    pose proof (DayFromYear_bound _ Hym) as Hf.
    lia. }
  specialize (Hzone t). unfold JsDate.msPerDay in Hzone.
  destruct (Z.abs (t - LocalTZA t) >? 8640000000000000) eqn:Hclip; [|discriminate].
  apply Z.gtb_lt in Hclip. lia.
Qed.

(** When the general parse fails and the pattern matches, [parseDate]
    returns the month/day/year reading, whatever the captured numbers: the
    day/month/year branch is never reached. *)
Theorem parseDate_month_first (E : Engine) (s p1 p2 p3 : string) :
  boundedZone E ->
  Date_parse s = None ->
  matchDate s = Some (p1, p2, p3) ->
  parseDate (Some s) = JsDate.construct (parseInt p3) (parseInt p1 - 1) (parseInt p2)
  /\ parseDate (Some s) <> None.
Proof.
  intros Hzone Hparse Hmatch.
  assert (Hne : nonEmpty s = true).
  { destruct s; [|reflexivity]. vm_compute in Hmatch. discriminate Hmatch. }
  pose proof (matchDate_bounds s p1 p2 p3 Hmatch) as (H1 & H2 & H3).
  pose proof (construct_valid E (parseInt p3) (parseInt p1 - 1) (parseInt p2)
                Hzone H3 ltac:(lia) H2) as Hvalid.
  unfold parseDate. rewrite Hne, Hparse, Hmatch. cbn [negb].
  destruct (JsDate.construct (parseInt p3) (parseInt p1 - 1) (parseInt p2)) as [d2|];
    [|congruence].
  split; [reflexivity | discriminate].
Qed.

(** The order of the attempts: a string the engine parses is returned as the
    engine reads it; a string it rejects and the pattern does not match gives
    nothing; so does the empty string and a missing cell. *)
Lemma parseDate_general_first (E : Engine) (s : string) (d : Z) :
  s <> "" -> Date_parse s = Some d -> parseDate (Some s) = Some d.
Proof.
  intros Hs Hd. unfold parseDate.
  destruct s; [congruence|]. cbn [nonEmpty negb]. now rewrite Hd.
Qed.

Lemma parseDate_absent (E : Engine) (s : string) :
  Date_parse s = None -> matchDate s = None -> parseDate (Some s) = None.
Proof.
  intros Hd Hm. unfold parseDate. rewrite Hd, Hm. now destruct (negb _).
Qed.

Lemma parseDate_empty (E : Engine) : parseDate (Some "") = None /\ parseDate None = None.
Proof. split; reflexivity. Qed.

(** [C8], at a date written day first. The engine rejects 25/12/2024 in its
    general parse, the pattern captures 25, 12 and 2024, and the first
    reading, month 25 and day 12 of 2024, is already a valid date: the 12th
    of January 2026. That is what [parseDate] returns; the reading as the
    25th of December 2024 is not tried. *)
Theorem parseDate_day_first_input (E : Engine) :
  boundedZone E ->
  Date_parse "25/12/2024" = None ->
  matchDate "25/12/2024" = Some ("25", "12", "2024")
  /\ parseDate (Some "25/12/2024") = JsDate.construct 2026 0 12
  /\ parseDate (Some "25/12/2024") <> JsDate.construct 2024 11 25.
Proof.
  intros Hzone Hparse.
  assert (Hmatch : matchDate "25/12/2024" = Some ("25", "12", "2024"))
    by (vm_compute; reflexivity).
  destruct (parseDate_month_first E _ _ _ _ Hzone Hparse Hmatch) as [Heq _].
  split; [exact Hmatch|].
  assert (Hjan : JsDate.construct (parseInt "2024") (parseInt "25" - 1) (parseInt "12")
                 = JsDate.construct 2026 0 12) by reflexivity.
  rewrite Heq, Hjan. split; [reflexivity|].
  unfold JsDate.construct, JsDate.TimeClip, JsDate.UTC.
  change (JsDate.MakeDate (JsDate.MakeDay _ 0 12) 0) with 1768176000000.
  change (JsDate.MakeDate (JsDate.MakeDay _ 11 25) 0) with 1735084800000.
  pose proof (Hzone 1768176000000) as Hz1. pose proof (Hzone 1735084800000) as Hz2.
  unfold JsDate.msPerDay in Hz1, Hz2.
  destruct (Z.abs (1768176000000 - _) >? _) eqn:H1; [apply Z.gtb_lt in H1; lia|].
  destruct (Z.abs (1735084800000 - _) >? _) eqn:H2; [discriminate|].
  intros [= Hsame]. lia.
Qed.

Lemma parseDate_day_first_input_witness :
  boundedZone utcEngine
  /\ @Date_parse utcEngine "25/12/2024" = None
  /\ matchDate "25/12/2024" = Some ("25", "12", "2024")
  /\ @parseDate utcEngine (Some "25/12/2024") = @JsDate.construct utcEngine 2026 0 12
  /\ @parseDate utcEngine (Some "25/12/2024") <> @JsDate.construct utcEngine 2024 11 25.
Proof.
  assert (Hzone : boundedZone utcEngine) by (intros t; cbn; discriminate).
  split; [exact Hzone|]. split; [reflexivity|].
  exact (parseDate_day_first_input utcEngine Hzone eq_refl).
Defined.

Lemma parseDate_month_first_witness :
  @parseDate utcEngine (Some "13/01/2024")
  = @JsDate.construct utcEngine (parseInt "2024") (parseInt "13" - 1) (parseInt "01")
  /\ @parseDate utcEngine (Some "13/01/2024") <> None.
Proof.
  apply (parseDate_month_first utcEngine "13/01/2024" "13" "01" "2024").
  - intros t. cbn. discriminate.
  - reflexivity.
  - vm_compute. reflexivity.
Defined.

(** ** Further checks on concrete inputs *)

(** The comma inside quotes stays in the field. *)
Example parseCsv_quoted_comma :
  parseCsv ("text,date" +:+ String LF
            (String DQUOTE ("Great, service!" +:+ String DQUOTE (",2024-01-05" +:+ String LF
            ("Slow delivery,2024-01-06" +:+ String LF EmptyString)))))
  = [["text"; "date"]; ["Great, service!"; "2024-01-05"]; ["Slow delivery"; "2024-01-06"]].
Proof. vm_compute. reflexivity. Qed.

(** White space around a quoted field is trimmed on the way back. *)
Example escapeCsvCell_parseCsv_white_space :
  parse_field (@escapeCsvCell utcEngine (VString " a,b ")) = Some "a,b".
Proof. vm_compute. reflexivity. Qed.

(** The file the program exports has a first column named [rowId], and so
    has the header row the program reads back from it. *)
Example exportToCsv_header :
  exists text,
    @exportToCsv utcEngine bothOfTwo = Some text
    /\ hd [] (parseCsv text)
       = ["rowId"; "text"; "when"; "sentiment"; "sentiment_score"; "intent"; "emotions";
          "topics"; "explanation"; "confidence"; "redacted_excerpt"].
Proof. eexists. split; vm_compute; reflexivity. Qed.

(** A column named [analysis] and a failed call: the record carries the
    error and, from the file, an [analysis] that is a string; the walk of
    [topicTree] then reads [topics] off that string and throws. *)
Example processItem_analysis_column :
  let st := uploaded [["text"; "analysis"]; ["Slow delivery"; "pending"]] "text" in
  let svc := mkGeminiService (Some (fun _ _ => ApiThrows (ThrownError "HTTP 503"))) in
  let rs := analysisResults (final (@startAnalysis utcEngine svc st)) in
  List.map (fun r => (r !! "error", r !! "analysis")) rs
  = [(Some (VString "HTTP 503"), Some (VString "pending"))]
  /\ Topics.topicTree rs = None.
Proof. vm_compute. split; reflexivity. Qed.

(** The messages of the [catch] block. *)
Example errorMessage_examples :
  errorMessage (ThrownError "got status: 429 Too Many Requests") = rateLimitMessage
  /\ errorMessage (ThrownError "404 model not found") = modelNotFoundMessage
  /\ errorMessage (ThrownError "socket hang up") = "socket hang up"
  /\ errorMessage (ThrownError "") = "Failed to analyze response."
  /\ errorMessage (ThrownString "quota") = "quota".
Proof. vm_compute. repeat split; reflexivity. Qed.

(** Binary64 numbers meet the bounds of [accurateArithmetic] on a sample:
    every quotient a / b with 1 <= a <= b <= 60, and its product with 100. *)
Example doubleEngine_accurate_sample :
  forallb (fun b =>
    forallb (fun a =>
      let exact := (inject_Z (Z.of_nat a) / inject_Z (Z.of_nat b))%Q in
      let q := PrimFloat.div (doubleOfZ (Z.of_nat a)) (doubleOfZ (Z.of_nat b)) in
      let m := PrimFloat.mul q (doubleOfZ 100) in
      Qle_bool (Qabs (valueOfDouble q - exact)) (exact * doubleEpsilon)
      && Qle_bool (Qabs (valueOfDouble m - valueOfDouble q * 100))
                  (valueOfDouble q * 100 * doubleEpsilon))
      (seq 1 b))
    (seq 1 60) = true.
Proof. vm_compute. reflexivity. Qed.

(** * The rest of the component *)

(** ** More on strings *)

Lemma trimEnd_idempotent (s : string) : trimEnd (trimEnd s) = trimEnd s.
Proof.
  induction s as [|c s IH]; [reflexivity|].
  cbn [trimEnd]. destruct (trimEnd s) as [|d s'] eqn:Hs.
  - destruct (isWhiteSpace c) eqn:Hc; [reflexivity|].
    cbn [trimEnd]. now rewrite Hc.
  - cbn [trimEnd]. cbn [trimEnd] in IH.
    destruct (trimEnd s') as [|e s'']; now rewrite IH.
Qed.

(** A string that does not start with white space keeps its first code unit
    under [trimEnd]. *)
Lemma trimStart_trimEnd (s : string) :
  trimStart s = s -> trimStart (trimEnd s) = trimEnd s.
Proof.
  destruct s as [|c s]; [reflexivity|].
  cbn [trimStart]. destruct (isWhiteSpace c) eqn:Hc.
  - intros Heq. exfalso.
    assert (Hlen : forall t, (String.length (trimStart t) <= String.length t)%nat).
    { induction t as [|d t IHt]; cbn [trimStart]; [lia|].
      destruct (isWhiteSpace d); cbn [String.length]; lia. }
    specialize (Hlen s). rewrite Heq in Hlen. cbn [String.length] in Hlen. lia.
  - intros _. cbn [trimEnd].
    destruct (trimEnd s); [rewrite Hc|]; cbn [trimStart]; now rewrite Hc.
Qed.

Lemma trimStart_idempotent (s : string) : trimStart (trimStart s) = trimStart s.
Proof.
  induction s as [|c s IH]; [reflexivity|].
  cbn [trimStart]. destruct (isWhiteSpace c) eqn:Hc; [exact IH|].
  cbn [trimStart]. now rewrite Hc.
Qed.

Lemma trim_idempotent (s : string) : trim (trim s) = trim s.
Proof.
  unfold trim. rewrite trimStart_trimEnd by apply trimStart_idempotent.
  apply trimEnd_idempotent.
Qed.

Lemma trimStart_includes_other (s : string) (c : ascii) :
  isWhiteSpace c = false -> includes (trimStart s) c = includes s c.
Proof.
  intros Hc. induction s as [|d s IH]; [reflexivity|].
  cbn [trimStart]. destruct (isWhiteSpace d) eqn:Hd; [|reflexivity].
  cbn [includes]. rewrite IH.
  destruct (Ascii.eqb d c) eqn:Hdc; [|reflexivity].
  apply Ascii.eqb_eq in Hdc. congruence.
Qed.

Lemma trimEnd_includes_other (s : string) (c : ascii) :
  isWhiteSpace c = false -> includes (trimEnd s) c = includes s c.
Proof.
  intros Hc. induction s as [|d s IH]; [reflexivity|].
  cbn [trimEnd includes]. rewrite <- IH.
  destruct (trimEnd s) as [|e s'].
  - cbn [includes]. destruct (isWhiteSpace d) eqn:Hd; cbn [includes]; [|reflexivity].
    destruct (Ascii.eqb d c) eqn:Hdc; [|reflexivity].
    apply Ascii.eqb_eq in Hdc. congruence.
  - reflexivity.
Qed.

(** [trim] removes white space only. *)
Lemma trim_includes_other (s : string) (c : ascii) :
  isWhiteSpace c = false -> includes (trim s) c = includes s c.
Proof.
  intros Hc. unfold trim.
  now rewrite trimEnd_includes_other, trimStart_includes_other.
Qed.

Lemma includes_nonEmpty (s : string) (c : ascii) :
  includes s c = true -> nonEmpty s = true.
Proof. now destruct s. Qed.

Lemma includes_join (sep : string) (xs : list string) (c : ascii) :
  includes sep c = false ->
  includes (join sep xs) c = existsb (fun x => includes x c) xs.
Proof.
  intros Hsep. induction xs as [|x rest IH]; [reflexivity|].
  destruct rest as [|y rest].
  - cbn [join existsb]. now rewrite orb_false_r.
  - change (join sep (x :: y :: rest)) with (x +:+ sep +:+ join sep (y :: rest)).
    rewrite !includes_append, Hsep, IH. reflexivity.
Qed.

(** ** CsvCodec: the rows [parseCsv] returns *)

(** Every field the scanner adds is a trimmed string. *)
Lemma scanLine_fields_bounded (n : nat) (line : string) (fields : list string)
    (cur : string) (inQuotes : bool) :
  (String.length line <= n)%nat ->
  exists added,
    scanLine line fields cur inQuotes = fields ++ added
    /\ added <> [] /\ Forall (fun f => exists s, f = trim s) added.
Proof.
  revert line fields cur inQuotes.
  induction n as [|n IH]; intros line fields cur inQuotes Hlen.
  - destruct line; [|cbn in Hlen; lia].
    exists [trim cur]. repeat split; [discriminate | repeat constructor; now exists cur].
  - destruct line as [|c rest].
    { exists [trim cur]. repeat split; [discriminate | repeat constructor; now exists cur]. }
    cbn [String.length] in Hlen. cbn [scanLine].
    assert (Hstep : forall fs cu q, exists added,
               scanLine rest fs cu q = fs ++ added
               /\ added <> [] /\ Forall (fun f => exists s, f = trim s) added)
      by (intros; apply IH; lia).
    destruct (Ascii.eqb c DQUOTE).
    + destruct inQuotes; [|apply Hstep].
      destruct rest as [|next rest']; [apply Hstep|].
      destruct (Ascii.eqb next DQUOTE); [|apply Hstep].
      cbn [String.length] in Hlen. apply IH. lia.
    + destruct (Ascii.eqb c COMMA && negb inQuotes); [|apply Hstep].
      destruct (Hstep (fields ++ [trim cur]) EmptyString inQuotes)
        as (added & Heq & Hne & Hall).
      exists (trim cur :: added). rewrite Heq, <- app_assoc.
      repeat split; [discriminate|]. constructor; [now exists cur | exact Hall].
Qed.

Lemma scanLine_fields (line : string) (fields : list string) (cur : string)
    (inQuotes : bool) :
  exists added,
    scanLine line fields cur inQuotes = fields ++ added
    /\ added <> [] /\ Forall (fun f => exists s, f = trim s) added.
Proof. now apply (scanLine_fields_bounded (String.length line)). Qed.

(** The rows of [parseCsv] are the scans of the lines that are not blank. *)
Lemma parseCsv_rows (text : string) :
  parseCsv text
  = List.map (fun line => scanLine line [] EmptyString false)
      (List.filter (fun line => nonEmpty (trim line)) (splitLines text EmptyString)).
Proof.
  unfold parseCsv. now destruct (List.filter _ _).
Qed.

Lemma parseCsv_row_nonempty (text : string) (row : list string) :
  In row (parseCsv text) -> row <> [].
Proof.
  rewrite parseCsv_rows. intros Hrow.
  apply in_map_iff in Hrow as (line & <- & _).
  destruct (scanLine_fields line [] EmptyString false) as (added & Heq & Hne & _).
  rewrite Heq. cbn [app]. exact Hne.
Qed.

(** [X1]. Whatever the text, every row [parseCsv] returns has at least one
    field, and every field is trimmed and holds no line feed. *)
Theorem parseCsv_rows_trimmed (text : string) (row : list string) :
  In row (parseCsv text) ->
  row <> []
  /\ forall f, In f row -> trim f = f /\ includes f LF = false.
Proof.
  rewrite parseCsv_rows. intros Hrow.
  apply in_map_iff in Hrow as (line & <- & Hline).
  apply filter_In in Hline as [Hline _].
  destruct (scanLine_fields line [] EmptyString false) as (added & Heq & Hne & Hall).
  rewrite Heq. cbn [app]. split; [exact Hne|].
  intros f Hf. split.
  - rewrite Forall_forall in Hall.
    destruct (Hall f) as [s ->]; [now apply list_elem_of_In|]. apply trim_idempotent.
  - pose proof (splitLines_no_line_feed text EmptyString eq_refl) as Hlines.
    rewrite Forall_forall in Hlines.
    pose proof (scanLine_no_line_feed line [] EmptyString false
                  (Hlines line ltac:(now apply list_elem_of_In)) eq_refl
                  ltac:(constructor)) as Hfields.
    rewrite Forall_forall in Hfields. apply Hfields.
    rewrite Heq. now apply list_elem_of_In.
Qed.

Lemma parseCsv_rows_trimmed_witness :
  In ["a"; "b c"] (parseCsv "  a , b c  ")
  /\ ["a"; "b c"] <> []
  /\ forall f, In f ["a"; "b c"] -> trim f = f /\ includes f LF = false.
Proof.
  assert (Hin : In ["a"; "b c"] (parseCsv "  a , b c  ")) by (vm_compute; now left).
  split; [exact Hin|]. exact (parseCsv_rows_trimmed _ _ Hin).
Defined.

(** *** Lines without quotes *)

Lemma scanLine_length_unquoted (line : string) (fields : list string) (cur : string) :
  includes line DQUOTE = false ->
  length (scanLine line fields cur false)
  = (length fields + S (length (List.filter (Ascii.eqb COMMA) (list_ascii_of_string line))))%nat.
Proof.
  revert fields cur. induction line as [|c rest IH]; intros fields cur Hq.
  - cbn. rewrite length_app. cbn. lia.
  - cbn [includes] in Hq. apply orb_false_iff in Hq as [Hc Hrest].
    cbn [scanLine list_ascii_of_string List.filter]. rewrite Hc.
    rewrite andb_true_r, (Ascii.eqb_sym COMMA c).
    destruct (Ascii.eqb c COMMA).
    + rewrite IH by exact Hrest. rewrite length_app. cbn [length]. lia.
    + now rewrite IH by exact Hrest.
Qed.

Lemma scanLine_no_comma_unquoted (line : string) (fields : list string) (cur : string) :
  includes line DQUOTE = false ->
  includes cur COMMA = false ->
  Forall (fun f => includes f COMMA = false) fields ->
  Forall (fun f => includes f COMMA = false) (scanLine line fields cur false).
Proof.
  revert fields cur. induction line as [|c rest IH]; intros fields cur Hq Hcur Hfields.
  - cbn [scanLine]. apply Forall_app. split; [exact Hfields|].
    constructor; [|constructor]. now rewrite trim_includes_other.
  - cbn [includes] in Hq. apply orb_false_iff in Hq as [Hc Hrest].
    cbn [scanLine]. rewrite Hc, andb_true_r.
    destruct (Ascii.eqb c COMMA) eqn:Hcomma.
    + apply IH; [exact Hrest | reflexivity|].
      apply Forall_app. split; [exact Hfields|].
      constructor; [|constructor]. now rewrite trim_includes_other.
    + apply IH; [exact Hrest | | exact Hfields].
      now rewrite includes_push, Hcur, Hcomma.
Qed.

(** [X2]. A line without double quotes is cut at every comma: a text of one
    such line, not blank, gives one row with one field more than the line
    has commas, and no field holds a comma. *)
Theorem parseCsv_unquoted_line (line : string) :
  includes line LF = false ->
  includes line DQUOTE = false ->
  trim line <> "" ->
  exists row,
    parseCsv line = [row]
    /\ length row = S (length (List.filter (Ascii.eqb COMMA) (list_ascii_of_string line)))
    /\ Forall (fun f => includes f COMMA = false) row.
Proof.
  intros Hlf Hq Hblank.
  exists (scanLine line [] EmptyString false). split; [|split].
  - rewrite parseCsv_rows, splitLines_one_line by exact Hlf.
    rewrite append_nil_l. cbn [List.filter].
    destruct (trim line) eqn:Ht; [contradiction|]. reflexivity.
  - now rewrite scanLine_length_unquoted.
  - apply scanLine_no_comma_unquoted; [exact Hq | reflexivity | constructor].
Qed.

Lemma parseCsv_unquoted_line_witness :
  exists row,
    parseCsv "id, text ,, date" = [row]
    /\ length row = 4%nat
    /\ Forall (fun f => includes f COMMA = false) row.
Proof.
  apply (parseCsv_unquoted_line "id, text ,, date"); [reflexivity | reflexivity|].
  vm_compute. discriminate.
Defined.

(** ** The upload *)

Lemma parseCsv_head_nonempty (text : string) : (length (hd [] (parseCsv text)) =? 0)%nat = true ->
  parseCsv text = [].
Proof.
  destruct (parseCsv text) as [|row rest] eqn:Hp; [reflexivity|].
  cbn [hd]. intros Hlen. exfalso.
  pose proof (parseCsv_row_nonempty text row ltac:(rewrite Hp; now left)) as Hne.
  destruct row; [now apply Hne | discriminate].
Qed.

Lemma parseCsv_nil_iff (text : string) : parseCsv text = [] <-> ~ hasContent text.
Proof.
  rewrite parseCsv_rows. split.
  - intros Hnil (line & Hin & Hline).
    apply map_eq_nil in Hnil.
    assert (Hkeep : In line (List.filter (fun l => nonEmpty (trim l))
                               (splitLines text EmptyString))).
    { apply filter_In. split; [exact Hin|]. now destruct (trim line). }
    rewrite Hnil in Hkeep. destruct Hkeep.
  - intros Hno.
    destruct (List.filter _ _) as [|line rest] eqn:Hf; [reflexivity|].
    exfalso. apply Hno. exists line.
    assert (Hin : In line (List.filter (fun l => nonEmpty (trim l))
                             (splitLines text EmptyString)))
      by (rewrite Hf; now left).
    apply filter_In in Hin as [Hin Hne]. split; [exact Hin|].
    now destruct (trim line).
Qed.

(** [X3]. What an upload does. A file whose name does not end in .csv only
    sets the error. A .csv file with a line that is not blank is parsed, its
    rows become the table and the view moves to the mapping. A .csv file of
    blank lines sets the error and moves to the upload view, and the table
    loaded before stays. No signal but these five changes, and [isParsing]
    is off at the end. *)
Theorem handleFileUpload_outcome (f : CsvFile) (app : AppComponent) :
  let app' := handleFileUpload (Some f) app in
  let st := pipeline app in
  let st' := pipeline app' in
  (mappedDateColumn st' = mappedDateColumn st
   /\ analysisProgress st' = analysisProgress st
   /\ isAnalyzing st' = isAnalyzing st
   /\ dateFilterStart st' = dateFilterStart st
   /\ dateFilterEnd st' = dateFilterEnd st
   /\ trendChartGroupBy st' = trendChartGroupBy st
   /\ trendChartPeriod st' = trendChartPeriod st
   /\ mappedDimensionColumns app' = mappedDimensionColumns app
   /\ isModalOpen app' = isModalOpen app
   /\ modalTitle app' = modalTitle app
   /\ modalResponses app' = modalResponses app
   /\ selectedTopic app' = selectedTopic app
   /\ chatHistory app' = chatHistory app
   /\ isChatbotLoading app' = isChatbotLoading app
   /\ recommendationFilterType app' = recommendationFilterType app
   /\ recommendationFilterValue app' = recommendationFilterValue app
   /\ generatedRecommendations app' = generatedRecommendations app
   /\ isGeneratingRecommendations app' = isGeneratingRecommendations app
   /\ trendChartType app' = trendChartType app
   /\ executiveSummary app' = executiveSummary app
   /\ isGeneratingSummary app' = isGeneratingSummary app)
  /\ analysisResults st' = analysisResults st
  /\ mappedTextColumn st' = mappedTextColumn st
  /\ filters st' = filters st
  /\ (endsWith (file_name f) ".csv" = false ->
      error st' = "Please upload a valid .csv file."
      /\ appState st' = appState st /\ rawCsvData st' = rawCsvData st
      /\ fileName app' = fileName app /\ isParsing app' = isParsing app)
  /\ (endsWith (file_name f) ".csv" = true ->
      fileName app' = file_name f /\ isParsing app' = false
      /\ (hasContent (file_text f) ->
          appState st' = mapping /\ error st' = ""
          /\ rawCsvData st' = parseCsv (file_text f) /\ headers st' <> [])
      /\ (~ hasContent (file_text f) ->
          appState st' = upload /\ error st' = emptyFileMessage
          /\ rawCsvData st' = rawCsvData st)).
Proof.
  cbv zeta. split.
  { unfold handleFileUpload, onload.
    destruct (endsWith (file_name f) ".csv");
      [destruct ((length (parseCsv (file_text f)) =? 0)%nat
                 || (length (hd [] (parseCsv (file_text f))) =? 0)%nat)|];
      cbn; now repeat split. }
  unfold handleFileUpload.
  destruct (endsWith (file_name f) ".csv") eqn:Hext.
  - unfold onload.
    destruct ((length (parseCsv (file_text f)) =? 0)%nat
              || (length (hd [] (parseCsv (file_text f))) =? 0)%nat) eqn:Hempty.
    + assert (Hnil : parseCsv (file_text f) = []).
      { apply orb_true_iff in Hempty as [Hlen | Hhd].
        - apply Nat.eqb_eq in Hlen. now destruct (parseCsv (file_text f)).
        - now apply parseCsv_head_nonempty. }
      cbn. split; [reflexivity|]. split; [reflexivity|]. split; [reflexivity|].
      split; [discriminate|]. intros _.
      split; [reflexivity|]. split; [reflexivity|]. split.
      * intros Hc. exfalso. now apply (proj1 (parseCsv_nil_iff _) Hnil).
      * intros _. now repeat split.
    + apply orb_false_iff in Hempty as [Hlen Hhd].
      assert (Hhas : hasContent (file_text f)).
      { destruct (parseCsv (file_text f)) as [|row rest] eqn:Hp; [discriminate|].
        unfold hasContent.
        pose proof (parseCsv_rows (file_text f)) as Hrows. rewrite Hp in Hrows.
        destruct (List.filter _ _) as [|line lines] eqn:Hf; [discriminate|].
        assert (Hin : In line (List.filter (fun l => nonEmpty (trim l))
                                 (splitLines (file_text f) EmptyString)))
          by (rewrite Hf; now left).
        apply filter_In in Hin as [Hin Hne]. exists line. split; [exact Hin|].
        now destruct (trim line). }
      cbn. split; [reflexivity|]. split; [reflexivity|]. split; [reflexivity|].
      split; [discriminate|]. intros _.
      split; [reflexivity|]. split; [reflexivity|]. split.
      * intros _. split; [reflexivity|]. split; [reflexivity|]. split; [reflexivity|].
        unfold headers. cbn.
        destruct (parseCsv (file_text f)) as [|row rest]; [discriminate|].
        cbn in Hhd. intros ->. discriminate.
      * intros Hno. contradiction.
  - cbn. split; [reflexivity|]. split; [reflexivity|]. split; [reflexivity|].
    split; [|discriminate]. intros _. now repeat split.
Qed.

Lemma handleFileUpload_outcome_witness :
  let app' := handleFileUpload (Some (mkCsvFile "survey.csv" "id,text")) initialAppComponent in
  appState (pipeline app') = mapping /\ headers (pipeline app') = ["id"; "text"].
Proof.
  pose proof (handleFileUpload_outcome (mkCsvFile "survey.csv" "id,text")
                initialAppComponent) as (_ & _ & _ & _ & _ & H).
  destruct (H eq_refl) as (_ & _ & Hfull & _).
  destruct Hfull as (Hstate & _ & Hdata & _).
  - exists "id,text". split; [now left | vm_compute; discriminate].
  - cbv zeta. split; [exact Hstate|]. unfold headers. rewrite Hdata. reflexivity.
Defined.

(** ** CsvCodec: reading an export back *)

Lemma splitLines_line (l rest cur : string) :
  oneLine l = true ->
  splitLines (l +:+ String LF rest) cur = (cur +:+ l) :: splitLines rest EmptyString.
Proof.
  unfold oneLine. revert cur. induction l as [|c l IH]; intros cur Hl.
  - rewrite append_nil_l, append_empty_r. cbn [splitLines].
    now rewrite Ascii.eqb_refl.
  - cbn [includes] in Hl. rewrite append_cons. cbn [splitLines].
    destruct (Ascii.eqb c LF) eqn:Hlf; [discriminate|].
    destruct (Ascii.eqb c CR) eqn:Hcr; [cbn in Hl; now rewrite andb_false_r in Hl|].
    rewrite IH.
    + now rewrite push_then_append.
    + cbn [orb] in Hl. exact Hl.
Qed.

Lemma oneLine_no_line_feed (l : string) : oneLine l = true -> includes l LF = false.
Proof.
  unfold oneLine. intros H. apply andb_true_iff in H as [H _].
  now apply negb_true_iff in H.
Qed.

(** Lines without a line break come back from [join] and [split]. *)
Lemma splitLines_join (lines : list string) :
  lines <> [] -> Forall (fun l => oneLine l = true) lines ->
  splitLines (join (String LF EmptyString) lines) EmptyString = lines.
Proof.
  induction lines as [|l rest IH]; [contradiction|].
  intros _ Hall. apply Forall_cons in Hall as [Hl Hrest].
  destruct rest as [|l' rest].
  - cbn [join]. rewrite splitLines_one_line by now apply oneLine_no_line_feed.
    now rewrite append_nil_l.
  - change (join (String LF EmptyString) (l :: l' :: rest))
      with (l +:+ String LF EmptyString +:+ join (String LF EmptyString) (l' :: rest)).
    rewrite append_cons, append_nil_l, splitLines_line by exact Hl.
    rewrite append_nil_l, IH; [reflexivity | discriminate | exact Hrest].
Qed.

(** Outside quotes the scanner takes a string without comma and quote into
    the current field. *)
Lemma scanLine_plain (t rest : string) (fields : list string) (cur : string) :
  plain t = true ->
  scanLine (t +:+ rest) fields cur false = scanLine rest fields (cur +:+ t) false.
Proof.
  unfold plain. revert cur. induction t as [|c t IH]; intros cur Ht.
  - now rewrite append_nil_l, append_empty_r.
  - cbn [includes] in Ht. rewrite append_cons. cbn [scanLine].
    destruct (Ascii.eqb c DQUOTE) eqn:Hq;
      [cbn in Ht; now rewrite andb_false_r in Ht|].
    destruct (Ascii.eqb c COMMA) eqn:Hc; [discriminate|].
    cbn [andb]. rewrite IH by exact Ht. now rewrite push_then_append.
Qed.

(** Inside quotes the scanner reads a field with doubled quotes back, up to
    the closing quote. *)
Lemma scanLine_quoted_then (t rest : string) (fields : list string) (cur : string) :
  fieldEnd rest ->
  scanLine (doubleQuotes t +:+ String DQUOTE rest) fields cur true
  = scanLine rest fields (cur +:+ t) false.
Proof.
  intros Hrest. revert cur. induction t as [|c t IH]; intros cur.
  - cbn [doubleQuotes]. rewrite append_nil_l, append_empty_r.
    cbn [scanLine]. rewrite Ascii.eqb_refl.
    destruct Hrest as [-> | [rest' ->]]; reflexivity.
  - cbn [doubleQuotes]. destruct (Ascii.eqb c DQUOTE) eqn:Hc.
    + rewrite !append_cons. cbn [scanLine]. rewrite !Ascii.eqb_refl.
      rewrite IH, push_then_append.
      apply Ascii.eqb_eq in Hc. now subst c.
    + rewrite append_cons. cbn [scanLine]. rewrite Hc, andb_false_r.
      now rewrite IH, push_then_append.
Qed.

Lemma scanLine_encoded (e t rest : string) (fields : list string) :
  encodes e t -> fieldEnd rest ->
  scanLine (e +:+ rest) fields EmptyString false = scanLine rest fields t false.
Proof.
  intros [[-> Hplain] | ->] Hrest.
  - now rewrite scanLine_plain, append_nil_l.
  - rewrite append_cons, append_assoc, append_cons, append_nil_l.
    cbn [scanLine]. rewrite Ascii.eqb_refl. cbn [negb].
    now rewrite scanLine_quoted_then, append_nil_l.
Qed.

Lemma scanLine_encoded_cells (cells : list (string * string)) (fields : list string) :
  cells <> [] ->
  Forall (fun c => encodes (fst c) (snd c)) cells ->
  scanLine (join "," (List.map fst cells)) fields EmptyString false
  = fields ++ List.map (fun c => trim (snd c)) cells.
Proof.
  revert fields. induction cells as [|[e t] rest IH]; [contradiction|].
  intros fields _ Hall. apply Forall_cons in Hall as [Henc Hrest].
  cbn [fst snd] in Henc. destruct rest as [|c' rest].
  - cbn [List.map join fst snd].
    pose proof (scanLine_encoded e t EmptyString fields Henc (or_introl eq_refl)) as Hscan.
    rewrite append_empty_r in Hscan. exact Hscan.
  - change (join "," (List.map fst ((e, t) :: c' :: rest)))
      with (e +:+ "," +:+ join "," (List.map fst (c' :: rest))).
    rewrite (scanLine_encoded e t); [|exact Henc | right; eexists; reflexivity].
    rewrite append_cons, append_nil_l. cbn [scanLine].
    change (Ascii.eqb "," DQUOTE) with false. change (Ascii.eqb "," COMMA) with true.
    cbn [andb negb]. rewrite IH by (discriminate || exact Hrest).
    cbn [List.map snd]. now rewrite <- app_assoc.
Qed.

(** [escapeCsvCell] writes a cell in a form the scanner reads back. *)
Lemma escapeCsvCell_encodes (E : Engine) (c : Value) :
  oneLine (cellText c) = true -> encodes (escapeCsvCell c) (cellText c).
Proof.
  intros Hline. apply oneLine_no_line_feed in Hline.
  assert (Hgen : encodes
            (if includes (cellText c) COMMA || includes (cellText c) DQUOTE
                || includes (cellText c) LF
             then String DQUOTE (doubleQuotes (cellText c) +:+ String DQUOTE EmptyString)
             else cellText c) (cellText c)).
  { rewrite Hline, orb_false_r.
    destruct (includes (cellText c) COMMA || includes (cellText c) DQUOTE) eqn:Hq.
    - now right.
    - left. split; [reflexivity|]. unfold plain.
      apply orb_false_iff in Hq as [-> ->]. reflexivity. }
  destruct c; exact Hgen.
Qed.

Lemma oneLine_escapeCsvCell (E : Engine) (c : Value) :
  oneLine (cellText c) = true -> oneLine (escapeCsvCell c) = true.
Proof.
  intros Hline.
  assert (Hq : oneLine (String DQUOTE (doubleQuotes (cellText c) +:+ String DQUOTE EmptyString))
               = true).
  { unfold oneLine in *. cbn [includes].
    rewrite !includes_append, !includes_doubleQuotes. cbn [includes].
    change (Ascii.eqb DQUOTE LF) with false. change (Ascii.eqb DQUOTE CR) with false.
    cbn [orb]. now rewrite !orb_false_r. }
  unfold escapeCsvCell. destruct c; try reflexivity;
    match goal with |- context [if ?b then _ else _] => destruct b end;
    assumption.
Qed.

Lemma oneLine_join (sep : string) (xs : list string) :
  oneLine sep = true -> Forall (fun x => oneLine x = true) xs ->
  oneLine (join sep xs) = true.
Proof.
  unfold oneLine. intros Hsep Hall.
  apply andb_true_iff in Hsep as [Hlf Hcr]. apply negb_true_iff in Hlf, Hcr.
  rewrite !includes_join by assumption.
  induction Hall as [|x rest Hx _ IH]; [reflexivity|].
  cbn [existsb]. apply andb_true_iff in Hx as [Hxl Hxc].
  apply negb_true_iff in Hxl, Hxc. rewrite Hxl, Hxc. exact IH.
Qed.

(** A line of at least two cells is not blank. *)
Lemma join_comma_not_blank (x y : string) (rest : list string) :
  nonEmpty (trim (join "," (x :: y :: rest))) = true.
Proof.
  apply (includes_nonEmpty _ COMMA).
  rewrite trim_includes_other by reflexivity.
  change (join "," (x :: y :: rest)) with (x +:+ "," +:+ join "," (y :: rest)).
  rewrite !includes_append. cbn [includes].
  change (Ascii.eqb "," COMMA) with true. cbn [orb]. now rewrite orb_true_r.
Qed.

Lemma rowData_shape (allHeaders : list string) (res : AnalysisResult) :
  exists x y rest, rowData allHeaders res = x :: y :: rest.
Proof.
  unfold rowData. cbn [app].
  destruct allHeaders as [|h hs]; cbn [List.map app analysisHeaders];
    eexists _, _, _; reflexivity.
Qed.

(** [X4]. An export is read back by the parser. When no header holds a
    comma, a double quote or a line break and no cell text holds a line
    break, parsing the exported text gives the header row and, for every
    filtered result in order, the texts of its cells, each trimmed. *)
Theorem exportToCsv_parseCsv (E : Engine) (st : Component) (exported : string) :
  exportToCsv st = Some exported ->
  Forall (fun h => plain h = true /\ oneLine h = true) (headers st) ->
  Forall (fun res => Forall (fun c => oneLine (cellText c) = true)
                       (rowData (headers st) res))
         (filteredAnalysisResults st) ->
  parseCsv exported = exportedTable st.
Proof.
  unfold exportToCsv. destruct (length (filteredAnalysisResults st) =? 0)%nat; [discriminate|].
  intros Heq Hheaders Hcells.
  set (rs := filteredAnalysisResults st) in *.
  set (hdrs := (["rowId"] ++ headers st ++ analysisHeaders)%list).
  set (lineOf := fun res => join "," (List.map escapeCsvCell (rowData (headers st) res))).
  assert (Hexp : exported
                 = join (String LF EmptyString) ([join "," hdrs] ++ List.map lineOf rs))
    by (injection Heq; intros <-; reflexivity).
  rewrite Hexp. clear Heq Hexp.
  assert (Hhdrs : Forall (fun h => plain h = true /\ oneLine h = true) hdrs).
  { subst hdrs. apply Forall_app. split; [repeat constructor|].
    apply Forall_app. split; [exact Hheaders | repeat constructor]. }
  rewrite parseCsv_rows, splitLines_join; [|discriminate|].
  - cbn [app List.filter].
    assert (Hkeep : forall ls : list string,
               Forall (fun l => nonEmpty (trim l) = true) ls ->
               List.filter (fun l => nonEmpty (trim l)) ls = ls).
    { intros ls Hls. induction Hls as [|l ls Hl _ IH]; [reflexivity|].
      cbn [List.filter]. now rewrite Hl, IH. }
    assert (Hhl : nonEmpty (trim (join "," hdrs)) = true).
    { subst hdrs. cbn [app]. destruct (headers st); apply join_comma_not_blank. }
    rewrite Hhl, Hkeep.
    + unfold exportedTable. cbn [List.map]. apply (f_equal2 cons).
      * pose proof (scanLine_encoded_cells (List.map (fun h => (h, h)) hdrs) []) as Hscan.
        rewrite !List.map_map in Hscan. cbn [fst snd app] in Hscan.
        rewrite List.map_id in Hscan. fold hdrs. apply Hscan.
        -- subst hdrs. discriminate.
        -- apply Forall_forall. intros [e t] Hin.
           apply list_elem_of_In, in_map_iff in Hin as (h & [= <- <-] & Hh).
           rewrite Forall_forall in Hhdrs.
           left. split; [reflexivity|]. now apply Hhdrs, list_elem_of_In.
      * rewrite List.map_map. apply map_ext_in. intros res Hres.
        pose proof (scanLine_encoded_cells
                      (List.map (fun c => (escapeCsvCell c, cellText c))
                                (rowData (headers st) res)) []) as Hscan.
        rewrite !List.map_map in Hscan. cbn [fst snd app] in Hscan.
        apply Hscan.
        -- destruct (rowData_shape (headers st) res) as (x & y & rest & ->). discriminate.
        -- rewrite Forall_forall in Hcells.
           specialize (Hcells res ltac:(now apply list_elem_of_In)).
           rewrite Forall_forall in Hcells.
           apply Forall_forall. intros [e t] Hin.
           apply list_elem_of_In, in_map_iff in Hin as (c & [= <- <-] & Hc).
           cbn [fst snd]. apply escapeCsvCell_encodes, Hcells. now apply list_elem_of_In.
    + apply Forall_forall. intros l Hl.
      apply list_elem_of_In, in_map_iff in Hl as (res & <- & _).
      unfold lineOf.
      destruct (rowData_shape (headers st) res) as (x & y & rest & ->).
      apply join_comma_not_blank.
  - constructor.
    + apply oneLine_join; [reflexivity|].
      apply Forall_forall. intros h Hh. rewrite Forall_forall in Hhdrs.
      now apply Hhdrs.
    + apply Forall_forall. intros l Hl.
      apply list_elem_of_In, in_map_iff in Hl as (res & <- & Hres).
      unfold lineOf. apply oneLine_join; [reflexivity|].
      rewrite Forall_forall in Hcells.
      specialize (Hcells res ltac:(now apply list_elem_of_In)).
      rewrite Forall_forall in Hcells.
      apply Forall_forall. intros e He.
      apply list_elem_of_In, in_map_iff in He as (c & <- & Hc).
      apply oneLine_escapeCsvCell, Hcells. now apply list_elem_of_In.
Qed.

Lemma exportToCsv_parseCsv_witness :
  match @exportToCsv utcEngine (resultsView [quotedResult]) with
  | Some exported =>
      parseCsv exported = @exportedTable utcEngine (resultsView [quotedResult])
  | None => False
  end.
Proof.
  destruct (@exportToCsv utcEngine (resultsView [quotedResult])) as [exported|] eqn:Hexp;
    [|vm_compute in Hexp; discriminate Hexp].
  apply (exportToCsv_parseCsv utcEngine (resultsView [quotedResult]) exported Hexp).
  - repeat constructor.
  - repeat constructor.
Defined.

(** ** AggregationEngine: the other counts *)

Lemma list_sum_setCount (counts : Counts) (key : string) (n : nat) :
  (list_sum (List.map snd (setCount counts key n)) + countOf counts key
   = list_sum (List.map snd counts) + n)%nat.
Proof.
  induction counts as [|[k m] rest IH]; cbn.
  - lia.
  - unfold list_sum in IH. destruct (String.eqb k key); cbn; lia.
Qed.

Lemma list_sum_bump_fold (values : list string) (counts : Counts) :
  list_sum (List.map snd (fold_left bump values counts))
  = (list_sum (List.map snd counts) + length values)%nat.
Proof.
  revert counts. induction values as [|v values IH]; intros counts; cbn [fold_left length].
  - lia.
  - rewrite IH. unfold bump.
    pose proof (list_sum_setCount counts v (countOf counts v + 1)). lia.
Qed.

Lemma list_sum_perm (l l' : list nat) : Permutation l l' -> list_sum l = list_sum l'.
Proof. unfold list_sum. induction 1; cbn; lia. Qed.

Lemma fold_left_sum (l : Counts) (acc : nat) :
  fold_left (fun acc curr => (acc + snd curr)%nat) l acc
  = (acc + list_sum (List.map snd l))%nat.
Proof.
  unfold list_sum. revert acc. induction l as [|e l IH]; intros acc; cbn.
  - lia.
  - rewrite IH. lia.
Qed.

Lemma countedValues_single (field : Field) (r : AnalysisResult) :
  field <> FTopics ->
  length (countedValues field r) = if hasValue field r then 1%nat else 0%nat.
Proof.
  intros Hf. unfold hasValue, countedValues.
  destruct (truthy (get r "analysis")); cbn [negb]; [|reflexivity].
  destruct field; [| |contradiction];
    destruct (getProp _ _); try reflexivity; now destruct (nonEmpty _).
Qed.

Lemma length_flat_map_single {A B} (f : A -> list B) (p : A -> bool) (l : list A) :
  (forall x, length (f x) = if p x then 1%nat else 0%nat) ->
  length (flat_map f l) = length (List.filter p l).
Proof.
  intros Hf. induction l as [|x l IH]; [reflexivity|].
  cbn [flat_map List.filter]. rewrite length_app, Hf, IH.
  now destruct (p x).
Qed.

(** [X5]. The total under the sentiment chart is the number of filtered
    results that were classified with a sentiment, and so at most
    [totalResponses]. *)
Theorem sentimentTotal_counts_classified (E : Engine) (st : Component) :
  sentimentTotal st
  = length (List.filter (hasValue FSentiment) (filteredAnalysisResults st))
  /\ (sentimentTotal st <= totalResponses st)%nat.
Proof.
  assert (Hsum : sentimentTotal st
                 = length (List.filter (hasValue FSentiment) (filteredAnalysisResults st))).
  { unfold sentimentTotal, sentimentCounts. rewrite fold_left_sum. cbn [Nat.add].
    rewrite (list_sum_perm _ _ (Permutation_map snd (getCounts_perm _ _))).
    rewrite list_sum_bump_fold. cbn.
    apply length_flat_map_single. intros r. now apply countedValues_single. }
  split; [exact Hsum|].
  rewrite Hsum. unfold totalResponses. apply filter_length_le.
Qed.

(** *** The two topic charts *)

Lemma StronglySorted_app_elim {A} (R : A -> A -> Prop) (l1 l2 : list A) (x y : A) :
  StronglySorted R (l1 ++ l2) -> In x l1 -> In y l2 -> R x y.
Proof.
  induction l1 as [|a l1 IH]; cbn [app]; intros Hs Hx Hy; [contradiction|].
  apply StronglySorted_inv in Hs as [Hs Ha].
  destruct Hx as [<-|Hx].
  - rewrite Forall_forall in Ha. apply Ha, list_elem_of_In, in_or_app. now right.
  - now apply IH.
Qed.

(** What the ten largest entries are. *)
Lemma topTen_spec (values : list string) :
  let view := topTen values in
  (length view <= 10)%nat
  /\ StronglySorted ascending view
  /\ NoDup (List.map fst view)
  /\ (forall k n, In (k, n) view -> n = count_occ string_dec values k /\ (0 < n)%nat)
  /\ (forall k, ~ In k (List.map fst view) ->
      forall k' n', In (k', n') view -> (count_occ string_dec values k <= n')%nat)
  /\ (list_sum (List.map snd view) <= length values)%nat.
Proof.
  intros view.
  set (table := fold_left bump values []).
  set (sorted := sortDesc snd (Object_entries table)).
  assert (Hview : view = rev (firstn 10 sorted)).
  { subst view. unfold topTen. fold table. fold sorted.
    now rewrite slice0_positive by lia. }
  assert (Hperm : Permutation sorted table).
  { subst sorted. rewrite sortDesc_perm. apply Object_entries_perm. }
  assert (Hnd : NoDup (List.map fst sorted)).
  { rewrite (Permutation_map fst Hperm). apply bump_fold_NoDup. constructor. }
  assert (Hcount : forall k, countOf sorted k = count_occ string_dec values k).
  { intros k. rewrite (countOf_perm _ table k Hnd Hperm).
    subst table. now rewrite bump_fold_countOf. }
  assert (Hpos : Forall (fun e => 0 < snd e)%nat sorted).
  { rewrite Hperm. apply bump_fold_positive. constructor. }
  assert (Hsorted : StronglySorted descending sorted)
    by (subst sorted; apply sortDesc_sorted).
  assert (Hsub : forall e, In e view -> In e sorted).
  { intros e He. rewrite Hview in He. apply in_rev in He.
    apply list_elem_of_In. apply (subseteq_take 10 sorted). now apply list_elem_of_In. }
  split; [|split; [|split; [|split; [|split]]]].
  - rewrite Hview, length_rev, length_firstn. lia.
  - rewrite Hview. apply (StronglySorted_rev descending).
    now apply StronglySorted_firstn.
  - rewrite Hview, map_rev, <- Permutation_rev.
    rewrite <- (firstn_skipn 10 sorted), map_app in Hnd.
    now apply NoDup_app in Hnd as [Hnd _].
  - intros k n Hin. apply Hsub in Hin. split.
    + rewrite <- Hcount. symmetry. now apply countOf_In.
    + rewrite Forall_forall in Hpos. apply (Hpos (k, n)). now apply list_elem_of_In.
  - intros k Hout k' n' Hin.
    rewrite <- Hcount.
    destruct (in_dec string_dec k (List.map fst sorted)) as [Hk|Hk].
    + apply in_map_iff in Hk as ([k0 n] & Hk0 & Hk). cbn in Hk0. subst k0.
      rewrite (countOf_In sorted k n Hnd Hk).
      rewrite <- (firstn_skipn 10 sorted) in Hk, Hsorted.
      apply in_app_or in Hk as [Hk|Hk].
      * exfalso. apply Hout. rewrite Hview, map_rev. apply in_rev.
        rewrite rev_involutive. apply in_map_iff. now exists (k, n).
      * rewrite Hview in Hin. apply in_rev in Hin.
        apply (StronglySorted_app_elim descending _ _ (k', n') (k, n) Hsorted Hin Hk).
    + rewrite (countOf_not_In sorted k Hk). lia.
  - rewrite Hview, map_rev.
    rewrite <- (list_sum_perm _ _ (Permutation_rev (List.map snd (firstn 10 sorted)))).
    transitivity (list_sum (List.map snd sorted)).
    + rewrite <- (firstn_skipn 10 sorted) at 2. rewrite map_app, list_sum_app. lia.
    + rewrite (list_sum_perm _ _ (Permutation_map snd Hperm)).
      subst table. rewrite list_sum_bump_fold. cbn. lia.
Qed.

Lemma countMainTopic_fold (rs : list AnalysisResult) (counts : Counts) :
  fold_left countMainTopic rs counts
  = fold_left bump (flat_map mainTopicValues rs) counts.
Proof.
  revert counts. induction rs as [|r rs IH]; intros counts; [reflexivity|].
  cbn [fold_left flat_map]. rewrite fold_left_app, IH. f_equal.
  unfold countMainTopic, mainTopicValues.
  destruct (mainTopic r); try reflexivity. now destruct (nonEmpty s).
Qed.

Lemma countSubTopic_fold (topic : string) (rs : list AnalysisResult) (counts : Counts) :
  fold_left (countSubTopic topic) rs counts
  = fold_left bump (flat_map (subTopicValues topic) rs) counts.
Proof.
  revert counts. induction rs as [|r rs IH]; intros counts; [reflexivity|].
  cbn [fold_left flat_map]. rewrite fold_left_app, IH. f_equal.
  unfold countSubTopic, subTopicValues.
  destruct (getProp _ _) as [| | |[|t [|s ts]]| |]; try reflexivity.
  now destruct (String.eqb t topic).
Qed.

(** The topic list of a record, read the two ways the charts read it. *)
Lemma getProp_topics_countedValues (r : AnalysisResult) :
  getProp (get r "analysis") "topics" = VArray (countedValues FTopics r)
  \/ (getProp (get r "analysis") "topics" = VUndefined /\ countedValues FTopics r = []).
Proof.
  unfold countedValues. destruct (get r "analysis") as [| | | | |[a|m]]; cbn;
    try (now right); try (now left).
  - destruct (nonEmpty s); now right.
  - destruct (negb (Qeq_bool x 0)); now right.
Qed.

Lemma count_occ_flat_map_single {A} (f : A -> list string) (p : A -> bool)
    (l : list A) (k : string) :
  (forall x, count_occ string_dec (f x) k = if p x then 1%nat else 0%nat) ->
  count_occ string_dec (flat_map f l) k = length (List.filter p l).
Proof.
  intros Hf. induction l as [|x l IH]; [reflexivity|].
  cbn [flat_map List.filter]. rewrite count_occ_app, Hf, IH.
  now destruct (p x).
Qed.

Lemma mainTopicValues_count (r : AnalysisResult) (k : string) :
  k <> "" ->
  count_occ string_dec (mainTopicValues r) k = if firstTopicIs k r then 1%nat else 0%nat.
Proof.
  intros Hk. unfold mainTopicValues, mainTopic, firstTopicIs.
  destruct (getProp_topics_countedValues r) as [-> | [-> ->]]; [|reflexivity].
  destruct (countedValues FTopics r) as [|t ts]; [reflexivity|].
  destruct (String.eqb t k) eqn:Heq.
  - apply String.eqb_eq in Heq. subst t.
    destruct k as [|a k']; [contradiction|]. cbn [nonEmpty count_occ].
    now destruct (string_dec (String a k') (String a k')).
  - apply String.eqb_neq in Heq.
    destruct (nonEmpty t); cbn [count_occ]; [|reflexivity].
    now destruct (string_dec t k).
Qed.

Lemma subTopicValues_count (topic : string) (r : AnalysisResult) (k : string) :
  count_occ string_dec (subTopicValues topic r) k
  = if subTopicIs topic k r then 1%nat else 0%nat.
Proof.
  unfold subTopicValues, subTopicIs.
  destruct (getProp_topics_countedValues r) as [-> | [-> ->]]; [|reflexivity].
  destruct (countedValues FTopics r) as [|t [|s ts]]; try reflexivity.
  destruct (String.eqb t topic); cbn [andb]; [|reflexivity].
  cbn. destruct (string_dec s k) as [->|Hne].
  - now rewrite String.eqb_refl.
  - apply String.eqb_neq in Hne. now rewrite Hne.
Qed.

Lemma subTopicValues_length (topic : string) (rs : list AnalysisResult) :
  (length (flat_map (subTopicValues topic) rs) <= recordsWithFirstTopic rs topic)%nat.
Proof.
  unfold recordsWithFirstTopic.
  induction rs as [|r rs IH]; [reflexivity|].
  cbn [flat_map List.filter]. rewrite length_app.
  assert (Hr : (length (subTopicValues topic r)
                <= if firstTopicIs topic r then 1 else 0)%nat).
  { unfold subTopicValues, firstTopicIs.
    destruct (getProp_topics_countedValues r) as [-> | [-> ->]]; [|cbn; lia].
    destruct (countedValues FTopics r) as [|t [|s ts]]; cbn; try lia;
      destruct (String.eqb t topic); cbn; lia. }
  destruct (firstTopicIs topic r); cbn [length]; lia.
Qed.

(** [X6]. On filtered results none of whose topics is a name that objects
    inherit, [topicCounts] holds at most ten pairs, the smallest count
    first, no topic twice; the count of a topic is the number of filtered
    results with that topic first, and a topic left out is first in no more
    results than any topic listed. *)
Theorem topicCounts_ten_largest (E : Engine) (st : Component) :
  ownNames FTopics (filteredAnalysisResults st) ->
  let view := topicCounts st in
  let rs := filteredAnalysisResults st in
  (length view <= 10)%nat
  /\ StronglySorted ascending view
  /\ NoDup (List.map fst view)
  /\ (forall k n, In (k, n) view ->
      k <> "" /\ n = recordsWithFirstTopic rs k /\ (0 < n)%nat)
  /\ (forall k, k <> "" -> ~ In k (List.map fst view) ->
      forall k' n', In (k', n') view -> (recordsWithFirstTopic rs k <= n')%nat).
Proof.
  intros _ view rs.
  assert (Hview : view = topTen (flat_map mainTopicValues rs)).
  { subst view rs. unfold topicCounts, topTen. now rewrite countMainTopic_fold. }
  assert (Hocc : forall k, k <> "" ->
             count_occ string_dec (flat_map mainTopicValues rs) k
             = recordsWithFirstTopic rs k).
  { intros k Hk. apply count_occ_flat_map_single.
    intros r. now apply mainTopicValues_count. }
  assert (Hempty : count_occ string_dec (flat_map mainTopicValues rs) "" = 0%nat).
  { apply count_occ_not_In. intros Hin.
    apply in_flat_map in Hin as (r & _ & Hin). unfold mainTopicValues in Hin.
    destruct (mainTopic r); try contradiction.
    destruct s; cbn in Hin; [contradiction|]. now destruct Hin. }
  destruct (topTen_spec (flat_map mainTopicValues rs))
    as (Hlen & Hsorted & Hnd & Hin & Hout & _).
  rewrite <- Hview in *.
  split; [exact Hlen|]. split; [exact Hsorted|]. split; [exact Hnd|]. split.
  - intros k n Hk. destruct (Hin k n Hk) as [Hn Hpos].
    assert (Hne : k <> "") by (intros ->; lia).
    split; [exact Hne|]. split; [|exact Hpos]. now rewrite <- Hocc.
  - intros k Hk Hno k' n' Hk'. rewrite <- Hocc by exact Hk. now apply (Hout k Hno k').
Qed.

Lemma topicCounts_ten_largest_witness :
  let st := resultsView topicsExample in
  let view := @topicCounts utcEngine st in
  let rs := @filteredAnalysisResults utcEngine st in
  ownNames FTopics rs
  /\ (length view <= 10)%nat
  /\ StronglySorted ascending view
  /\ NoDup (List.map fst view)
  /\ (forall k n, In (k, n) view ->
      k <> "" /\ n = recordsWithFirstTopic rs k /\ (0 < n)%nat)
  /\ (forall k, k <> "" -> ~ In k (List.map fst view) ->
      forall k' n', In (k', n') view -> (recordsWithFirstTopic rs k <= n')%nat).
Proof.
  cbv zeta.
  assert (Hown : ownNames FTopics (@filteredAnalysisResults utcEngine (resultsView topicsExample)))
    by (repeat constructor).
  split; [exact Hown|].
  exact (topicCounts_ten_largest utcEngine (resultsView topicsExample) Hown).
Defined.

(** [X7]. On filtered results none of whose topics is a name that objects
    inherit: with a topic selected, [topicChartData] counts the second
    topics of the filtered results whose first topic is the selected one:
    at most ten pairs, the smallest count first, and the counts add up to
    no more than the number of results with the selected topic first. With
    no topic selected it is [topicCounts]. *)
Theorem topicChartData_sub_topics (E : Engine) (st : Component) (topic : string) :
  ownNames FTopics (filteredAnalysisResults st) ->
  topic <> "" ->
  let view := topicChartData st (Some topic) in
  let rs := filteredAnalysisResults st in
  (length view <= 10)%nat
  /\ StronglySorted ascending view
  /\ (forall k n, In (k, n) view ->
      n = length (List.filter (subTopicIs topic k) rs) /\ (0 < n)%nat)
  /\ (list_sum (List.map snd view) <= recordsWithFirstTopic rs topic)%nat
  /\ topicChartData st None = topicCounts st
  /\ topicChartData st (Some "") = topicCounts st.
Proof.
  intros _ Htopic view rs.
  assert (Hview : view = topTen (flat_map (subTopicValues topic) rs)).
  { subst view rs. unfold topicChartData, topTen.
    destruct topic; [contradiction|]. cbn [nonEmpty negb].
    now rewrite countSubTopic_fold. }
  destruct (topTen_spec (flat_map (subTopicValues topic) rs))
    as (Hlen & Hsorted & _ & Hin & _ & Hsum).
  rewrite <- Hview in *.
  split; [exact Hlen|]. split; [exact Hsorted|]. split; [|split; [|split]].
  - intros k n Hk. destruct (Hin k n Hk) as [Hn Hpos].
    split; [|exact Hpos]. rewrite Hn. apply count_occ_flat_map_single.
    intros r. apply subTopicValues_count.
  - etransitivity; [exact Hsum | apply subTopicValues_length].
  - reflexivity.
  - reflexivity.
Qed.

Lemma topicChartData_sub_topics_witness :
  let st := resultsView topicsExample in
  let view := @topicChartData utcEngine st (Some "A") in
  let rs := @filteredAnalysisResults utcEngine st in
  ownNames FTopics rs
  /\ (length view <= 10)%nat
  /\ StronglySorted ascending view
  /\ (forall k n, In (k, n) view ->
      n = length (List.filter (subTopicIs "A" k) rs) /\ (0 < n)%nat)
  /\ (list_sum (List.map snd view) <= recordsWithFirstTopic rs "A")%nat
  /\ @topicChartData utcEngine st None = @topicCounts utcEngine st
  /\ @topicChartData utcEngine st (Some "") = @topicCounts utcEngine st.
Proof.
  cbv zeta.
  assert (Hown : ownNames FTopics (@filteredAnalysisResults utcEngine (resultsView topicsExample)))
    by (repeat constructor).
  split; [exact Hown|].
  apply (topicChartData_sub_topics utcEngine (resultsView topicsExample) "A" Hown).
  discriminate.
Defined.

(** *** The map of intents *)

Lemma mapGet_pushTo (map : list (string * list AnalysisResult)) (key k : string)
    (r : AnalysisResult) :
  mapGet (pushTo key r map) k
  = if String.eqb key k then Some (default [] (mapGet map k) ++ [r]) else mapGet map k.
Proof.
  induction map as [|[k' rs] rest IH]; cbn [pushTo mapGet].
  - destruct (String.eqb key k); reflexivity.
  - destruct (String.eqb k' key) eqn:Hk; cbn [mapGet].
    + apply String.eqb_eq in Hk. subst k'.
      destruct (String.eqb key k); reflexivity.
    + rewrite IH. destruct (String.eqb k' k) eqn:Hk'; [|reflexivity].
      apply String.eqb_eq in Hk'. subst k'. now rewrite String.eqb_sym, Hk.
Qed.

Lemma intentMap_fold (rs : list AnalysisResult) (map : list (string * list AnalysisResult))
    (i : string) :
  i <> "" ->
  mapGet (fold_left (fun map r =>
                       match getProp (get r "analysis") "intent" with
                       | VString i => if nonEmpty i then pushTo i r map else map
                       | _ => map
                       end) rs map) i
  = match mapGet map i, List.filter (intentIs i) rs with
    | None, [] => None
    | found, matching => Some (default [] found ++ matching)
    end.
Proof.
  intros Hi. unfold intentIs. revert map. induction rs as [|r rs IH]; intros map.
  - cbn [fold_left List.filter]. destruct (mapGet map i); [|reflexivity].
    now rewrite app_nil_r.
  - cbn [fold_left List.filter]. rewrite IH.
    destruct (getProp (get r "analysis") "intent") as [|s|x|xs|t|o];
      cbn [strictEqString]; try reflexivity.
    destruct (String.eqb s i) eqn:Hs.
    + apply String.eqb_eq in Hs. subst s.
      destruct i as [|a i']; [contradiction|]. cbn [nonEmpty].
      rewrite mapGet_pushTo, String.eqb_refl.
      destruct (mapGet map (String a i')); cbn [default id app];
        now rewrite <- ?app_assoc.
    + destruct (nonEmpty s); [|reflexivity].
      now rewrite mapGet_pushTo, Hs.
Qed.

Lemma countedValues_intent (r : AnalysisResult) (i : string) :
  i <> "" ->
  count_occ string_dec (countedValues FIntent r) i = if intentIs i r then 1%nat else 0%nat.
Proof.
  intros Hi. unfold countedValues, intentIs.
  destruct (get r "analysis") as [| s | x | | |[a|m]]; cbn; try reflexivity.
  - now destruct (nonEmpty s).
  - now destruct (negb (Qeq_bool x 0)).
  - destruct a as [se sc it em tp ex cf re]. cbn.
    destruct (String.eqb it i) eqn:Heq.
    + apply String.eqb_eq in Heq. subst it.
      destruct i as [|c i']; [contradiction|]. cbn [nonEmpty count_occ].
      now destruct (string_dec (String c i') (String c i')).
    + apply String.eqb_neq in Heq.
      destruct (nonEmpty it); cbn [count_occ]; [|reflexivity].
      now destruct (string_dec it i).
Qed.

(** [X8]. [intentMap] holds, under every intent, the filtered results
    classified with it, in their order, and no entry for an intent without
    results; the count of the intent in [intentCounts] is the length of its
    list. *)
Theorem intentMap_lists (E : Engine) (st : Component) (i : string) :
  i <> "" ->
  let matching := List.filter (intentIs i) (filteredAnalysisResults st) in
  mapGet (intentMap st) i = (if (length matching =? 0)%nat then None else Some matching)
  /\ countOf (intentCounts st) i = length matching.
Proof.
  intros Hi matching. split.
  - unfold intentMap. rewrite intentMap_fold by exact Hi. cbn [mapGet default app].
    fold matching. now destruct matching.
  - unfold intentCounts.
    destruct (getCounts_countOf (filteredAnalysisResults st) FIntent i) as [_ ->].
    unfold occurrences. apply count_occ_flat_map_single.
    intros r. now apply countedValues_intent.
Qed.

Lemma intentMap_lists_witness :
  let st := resultsView topicsExample in
  let matching := List.filter (intentIs "feedback") (@filteredAnalysisResults utcEngine st) in
  mapGet (@intentMap utcEngine st) "feedback"
  = (if (length matching =? 0)%nat then None else Some matching)
  /\ countOf (@intentCounts utcEngine st) "feedback" = length matching.
Proof.
  apply (intentMap_lists utcEngine (resultsView topicsExample) "feedback").
  discriminate.
Defined.

(** ** The range of the dates: [minDate] and [maxDate] *)

Lemma fold_left_min_spec (ts : list Z) (t : Z) :
  In (fold_left Z.min ts t) (t :: ts)
  /\ forall x, In x (t :: ts) -> fold_left Z.min ts t <= x.
Proof.
  revert t. induction ts as [|u ts IH]; intros t; cbn [fold_left].
  - split; [now left | intros x [<-|[]]; lia].
  - destruct (IH (Z.min t u)) as [Hin Hle]. split.
    + destruct Hin as [Heq|Hin]; [|right; now right].
      rewrite <- Heq. destruct (Z.min_spec t u) as [[_ ->]|[_ ->]];
        [now left | right; now left].
    + intros x Hx.
      assert (Hm : fold_left Z.min ts (Z.min t u) <= Z.min t u) by (apply Hle; now left).
      destruct Hx as [<-|[<-|Hx]]; [lia | lia |].
      apply Hle. now right.
Qed.

Lemma fold_left_max_spec (ts : list Z) (t : Z) :
  In (fold_left Z.max ts t) (t :: ts)
  /\ forall x, In x (t :: ts) -> x <= fold_left Z.max ts t.
Proof.
  revert t. induction ts as [|u ts IH]; intros t; cbn [fold_left].
  - split; [now left | intros x [<-|[]]; lia].
  - destruct (IH (Z.max t u)) as [Hin Hle]. split.
    + destruct Hin as [Heq|Hin]; [|right; now right].
      rewrite <- Heq. destruct (Z.max_spec t u) as [[_ ->]|[_ ->]];
        [right; now left | now left].
    + intros x Hx.
      assert (Hm : Z.max t u <= fold_left Z.max ts (Z.max t u)) by (apply Hle; now left).
      destruct Hx as [<-|[<-|Hx]]; [lia | lia |].
      apply Hle. now right.
Qed.

(** On records whose [date] is a [Date] or missing, the time values handed
    to [Math.min] and [Math.max] are the dates of the records. *)
Lemma getTimes_truthyDates (st : Component) :
  Forall dateTyped (analysisResults st) ->
  getTimes (truthyDates st) = Some (datesOf (analysisResults st))
  /\ length (truthyDates st) = length (datesOf (analysisResults st)).
Proof.
  unfold truthyDates, datesOf.
  induction 1 as [|r rs Hr _ [IHt IHl]]; [now split|].
  cbn [List.map List.filter].
  change (omap dateOf (r :: rs))
    with (match dateOf r with Some t => t :: omap dateOf rs | None => omap dateOf rs end).
  assert (Hcase : (truthy (get r "date") = false /\ dateOf r = None)
                  \/ exists t, get r "date" = VDate t /\ dateOf r = Some t).
  { unfold dateTyped in Hr. unfold get, dateOf.
    destruct (r !! "date") as [[]|]; try contradiction; cbn; eauto. }
  destruct Hcase as [[-> ->] | (t & -> & ->)]; [now split|].
  cbn [truthy getTimes getTime length]. rewrite IHt, IHl. now split.
Qed.

Lemma datesOf_In (rs : list AnalysisResult) (t : Z) :
  In t (datesOf rs) <-> exists r, In r rs /\ dateOf r = Some t.
Proof.
  unfold datesOf. rewrite <- list_elem_of_In, list_elem_of_omap.
  split; intros (r & Hr & Hd); exists r; split; try assumption;
    now apply list_elem_of_In.
Qed.

(** [X9]. On results whose [date] is a [Date] or missing, [minDate] and
    [maxDate] do not throw; they are [null] exactly when no result has a
    date, and otherwise they are dates of results between which the date of
    every result lies. *)
Theorem minDate_maxDate_range (st : Component) :
  Forall dateTyped (analysisResults st) ->
  exists lo hi,
    minDate st = Some lo /\ maxDate st = Some hi
    /\ (lo = None <-> forall r, In r (analysisResults st) -> dateOf r = None)
    /\ (hi = None <-> lo = None)
    /\ (forall a, lo = Some a -> exists r, In r (analysisResults st) /\ dateOf r = Some a)
    /\ (forall b, hi = Some b -> exists r, In r (analysisResults st) /\ dateOf r = Some b)
    /\ (forall r t, In r (analysisResults st) -> dateOf r = Some t ->
        exists a b, lo = Some a /\ hi = Some b /\ a <= t <= b).
Proof.
  intros Htyped. destruct (getTimes_truthyDates st Htyped) as [Htimes Hlen].
  unfold minDate, maxDate. rewrite Htimes, Hlen.
  pose proof (datesOf_In (analysisResults st)) as Hin.
  destruct (datesOf (analysisResults st)) as [|t ts]; cbn [length Nat.eqb].
  - exists None, None. repeat split; try discriminate.
    + intros _ r Hr. destruct (dateOf r) as [t|] eqn:Hd; [|reflexivity].
      exfalso. apply (Hin t). now exists r.
    + intros r t Hr Hd. exfalso. apply (Hin t). now exists r.
  - destruct (fold_left_min_spec ts t) as [Hmin Hle].
    destruct (fold_left_max_spec ts t) as [Hmax Hge].
    exists (Some (fold_left Z.min ts t)), (Some (fold_left Z.max ts t)).
    repeat split; try discriminate.
    + intros Hnone. exfalso.
      destruct (proj1 (Hin t) ltac:(now left)) as (r & Hr & Hd).
      rewrite (Hnone r Hr) in Hd. discriminate.
    + intros a [= <-]. now apply Hin.
    + intros b [= <-]. now apply Hin.
    + intros r u Hr Hd. exists (fold_left Z.min ts t), (fold_left Z.max ts t).
      assert (Hu : In u (t :: ts)) by (apply Hin; now exists r).
      repeat split; [now apply Hle | now apply Hge].
Qed.

Lemma minDate_maxDate_range_witness :
  Forall dateTyped (analysisResults bothOfTwo)
  /\ minDate bothOfTwo = Some (Some 1704067200000)
  /\ maxDate bothOfTwo = Some (Some 1704240000000).
Proof.
  assert (Htyped : Forall dateTyped (analysisResults bothOfTwo)) by (repeat constructor).
  split; [exact Htyped|].
  destruct (minDate_maxDate_range bothOfTwo Htyped) as (lo & hi & Hlo & Hhi & _).
  split; reflexivity.
Defined.

(** A result whose [date] is a string that is not empty (the cell of a
    column of that name, when no date column was mapped) makes both throw. *)
Lemma minDate_maxDate_throw (st : Component) (r : AnalysisResult) (s : string) :
  In r (analysisResults st) -> get r "date" = VString s -> s <> "" ->
  minDate st = None /\ maxDate st = None.
Proof.
  intros Hr Hs Hne.
  assert (Hin : In (VString s) (truthyDates st)).
  { unfold truthyDates. apply filter_In. split.
    - apply in_map_iff. now exists r.
    - now apply nonEmpty_true_iff. }
  assert (Hthrow : getTimes (truthyDates st) = None).
  { induction (truthyDates st) as [|d ds IH]; [contradiction|].
    cbn [getTimes]. destruct Hin as [->|Hin]; [reflexivity|].
    rewrite (IH Hin). now destruct (getTime d). }
  unfold minDate, maxDate. rewrite Hthrow.
  destruct (truthyDates st); [contradiction | now split].
Qed.

(** ** A column named [date] that is not mapped as the date column *)

Lemma assignColumns_lookup_last (hdrs : list string) (i k : nat) (row : list string)
    (response : SurveyResponse) (h : string) :
  hdrs !! i = Some h -> h ∉ drop (S i) hdrs ->
  assignColumns hdrs k row response !! h = Some (cell row (k + i)).
Proof.
  revert i k response. induction hdrs as [|x rest IH]; intros i k response Hi Hlast;
    [discriminate Hi|].
  destruct i as [|i]; cbn [assignColumns].
  - cbn in Hi. injection Hi as ->. cbn [drop] in Hlast. rewrite drop_0 in Hlast.
    rewrite assignColumns_lookup_other by exact Hlast.
    rewrite lookup_insert_eq. now rewrite Nat.add_0_r.
  - cbn in Hi. cbn [drop] in Hlast.
    rewrite (IH i (S k) _ Hi Hlast). do 2 f_equal. lia.
Qed.

Lemma resultOf_date_unmapped (E : Engine) (hdrs : list string) (item : SurveyResponse)
    (reply : AnalyzerReply) :
  resultOf hdrs (-1) item reply !! "date" = item !! "date".
Proof.
  unfold resultOf. change (-1 >? -1) with false. cbv iota.
  destruct (truthy _); now rewrite lookup_insert_ne by discriminate.
Qed.

(** [X23]. A file with a column named [date] that is not mapped as the date
    column: the run completes, the results carry the cell of that column
    under [date], a string, and with one such cell that is not empty
    [minDate] and [maxDate] throw, calling [getTime] on a string. *)
Theorem startAnalysis_unmapped_date_column (E : Engine) (client : Client)
    (st : Component) (i j : nat) (row : list string) (s : string) :
  nonEmpty (mappedTextColumn st) = true ->
  mappedDateColumn st = "" ->
  analysisResults st = [] ->
  headers st !! i = Some "date" ->
  "date" ∉ drop (S i) (headers st) ->
  rows st !! j = Some row ->
  row !! i = Some s ->
  s <> "" ->
  let run := startAnalysis (mkGeminiService (Some client)) st in
  settled run = Fulfilled
  /\ (exists r, analysisResults (final run) !! j = Some r /\ r !! "date" = Some (VString s))
  /\ minDate (final run) = None
  /\ maxDate (final run) = None.
Proof.
  intros Htext Hdate Hempty Hi Hlast Hrow Hcell Hne run.
  assert (Hresult : settled run = Fulfilled
            /\ exists r, analysisResults (final run) !! j = Some r
                         /\ r !! "date" = Some (VString s)).
  { subst run. unfold startAnalysis. rewrite Htext. cbn [negb]. cbn zeta.
    set (st' := setPhase st analyzing "" true 0).
    change (mappedDateColumn st') with (mappedDateColumn st). rewrite Hdate.
    change (nonEmpty "") with false. cbv iota.
    set (ti := indexOf _ _ _).
    unfold processAnalysisQueue.
    destruct (forOf_with_client E client ti (-1) (length (dataToAnalyze st'))
                (dataToAnalyze st') 0 st') as (Hs & _ & _ & Hf & _).
    split; [exact Hs|].
    rewrite Hf. change (analysisResults st') with (analysisResults st).
    rewrite Hempty. cbn [app].
    assert (Hitem : dataToAnalyze st' !! j
                    = Some (toSurveyResponse (headers st) row j)).
    { unfold dataToAnalyze. change (headers st') with (headers st).
      change (rows st') with (rows st).
      destruct (mapRows (headers st) (rows st) 0 !! j) as [item|] eqn:Hj.
      - apply mapRows_lookup in Hj as (row' & Hrow' & ->).
        rewrite Hrow in Hrow'. now injection Hrow' as <-.
      - apply lookup_ge_None in Hj. rewrite mapRows_length in Hj.
        apply lookup_lt_Some in Hrow. lia. }
    rewrite (expectedResults_lookup _ _ _ _ _ _ _ _ _ Hitem).
    eexists. split; [reflexivity|].
    rewrite resultOf_date_unmapped. unfold toSurveyResponse.
    rewrite (assignColumns_lookup_last _ i 0 _ _ _ Hi Hlast).
    unfold cell. cbn [Nat.add]. now rewrite Hcell. }
  destruct Hresult as [Hs (r & Hr & Hd)].
  split; [exact Hs|]. split; [now exists r|].
  apply (minDate_maxDate_throw (final run) r s).
  - apply list_elem_of_In. eapply list_elem_of_lookup_2, Hr.
  - unfold get. now rewrite Hd.
  - exact Hne.
Qed.

Lemma startAnalysis_unmapped_date_column_witness :
  let st := uploaded [["text"; "date"]; ["Slow delivery"; "2024-01-05"]] "text" in
  let run := @startAnalysis utcEngine sampleService st in
  settled run = Fulfilled
  /\ (exists r, analysisResults (final run) !! 0%nat = Some r
                /\ r !! "date" = Some (VString "2024-01-05"))
  /\ minDate (final run) = None
  /\ maxDate (final run) = None.
Proof.
  apply (startAnalysis_unmapped_date_column utcEngine (fun _ _ => ApiReturns sampleAnalysis)
           (uploaded [["text"; "date"]; ["Slow delivery"; "2024-01-05"]] "text")
           1%nat 0%nat ["Slow delivery"; "2024-01-05"] "2024-01-05").
  - reflexivity.
  - reflexivity.
  - reflexivity.
  - reflexivity.
  - cbn. apply not_elem_of_nil.
  - reflexivity.
  - reflexivity.
  - discriminate.
Defined.

(** ** The handlers of the mapping and results views *)

Lemma filter_neq_absent (header : string) (dims : list string) :
  ~ In header dims ->
  List.filter (fun d => negb (String.eqb d header)) dims = dims.
Proof.
  intros Hout. induction dims as [|d dims IH]; [reflexivity|].
  cbn [List.filter]. destruct (String.eqb d header) eqn:Hd.
  - apply String.eqb_eq in Hd. subst d. exfalso. apply Hout. now left.
  - cbn [negb]. rewrite IH; [reflexivity|]. intros Hin. apply Hout. now right.
Qed.

(** [X10]. [toggleDimension] puts a header that is not selected at the end
    of the selection and takes a selected one out; the other headers stay,
    in their order. A selection without repetitions stays so, and toggling
    a header twice that was not selected gives the selection back. No
    other signal of the component changes. *)
Theorem toggleDimension_selection (header : string) (app : AppComponent) :
  let dims := mappedDimensionColumns app in
  let dims' := mappedDimensionColumns (toggleDimension header app) in
  (In header dims' <-> ~ In header dims)
  /\ List.filter (fun d => negb (String.eqb d header)) dims'
     = List.filter (fun d => negb (String.eqb d header)) dims
  /\ (NoDup dims -> NoDup dims')
  /\ (~ In header dims ->
      dims' = dims ++ [header]
      /\ mappedDimensionColumns (toggleDimension header (toggleDimension header app)) = dims)
  /\ (let app' := toggleDimension header app in
      pipeline app' = pipeline app
      /\ fileName app' = fileName app
      /\ isParsing app' = isParsing app
      /\ isModalOpen app' = isModalOpen app
      /\ modalTitle app' = modalTitle app
      /\ modalResponses app' = modalResponses app
      /\ selectedTopic app' = selectedTopic app
      /\ chatHistory app' = chatHistory app
      /\ isChatbotLoading app' = isChatbotLoading app
      /\ recommendationFilterType app' = recommendationFilterType app
      /\ recommendationFilterValue app' = recommendationFilterValue app
      /\ generatedRecommendations app' = generatedRecommendations app
      /\ isGeneratingRecommendations app' = isGeneratingRecommendations app
      /\ trendChartType app' = trendChartType app
      /\ executiveSummary app' = executiveSummary app
      /\ isGeneratingSummary app' = isGeneratingSummary app).
Proof.
  cbn [toggleDimension withDimensions mappedDimensionColumns pipeline].
  set (dims := mappedDimensionColumns app). unfold toggle.
  destruct (existsb (String.eqb header) dims) eqn:Hex.
  - assert (Hin : In header dims) by now apply existsb_eqb_In.
    assert (Hgone : ~ In header (List.filter (fun d => negb (String.eqb d header)) dims)).
    { intros H. apply filter_In in H as [_ H]. now rewrite String.eqb_refl in H. }
    split; [|split; [|split; [|split]]].
    + split; [intros H; contradiction | intros H; contradiction].
    + induction dims as [|d ds IH'] in |- *; [reflexivity|].
      cbn [List.filter]. destruct (negb (String.eqb d header)) eqn:Hd;
        cbn [List.filter]; rewrite ?Hd; now rewrite IH'.
    + intros Hnd. apply NoDup_ListNoDup, List.NoDup_filter. now apply NoDup_ListNoDup.
    + intros H. contradiction.
    + cbv zeta. now repeat split.
  - assert (Hout : ~ In header dims).
    { intros H. apply existsb_eqb_In in H. congruence. }
    split; [|split; [|split; [|split]]].
    + split; [intros _; exact Hout | intros _; apply in_or_app; right; now left].
    + rewrite List.filter_app. cbn [List.filter]. rewrite String.eqb_refl. cbn [negb].
      now rewrite app_nil_r.
    + intros Hnd. apply NoDup_app. repeat split; [exact Hnd| |apply NoDup_singleton].
      intros x Hx Hx'. apply list_elem_of_In in Hx, Hx'. destruct Hx' as [<-|[]].
      contradiction.
    + intros _. split; [reflexivity|].
      assert (Hex' : existsb (String.eqb header) (dims ++ [header]) = true).
      { apply existsb_eqb_In, in_or_app. right. now left. }
      rewrite Hex', List.filter_app. cbn [List.filter].
      rewrite String.eqb_refl. cbn [negb].
      now rewrite app_nil_r, filter_neq_absent.
    + cbv zeta. now repeat split.
Qed.

(** *** Choosing the value of a filter *)

Lemma activeValue_spec (value : string) :
  activeValue value = true <-> value <> "" /\ value <> "all".
Proof.
  unfold activeValue. rewrite andb_true_iff, nonEmpty_true_iff, negb_true_iff.
  now rewrite String.eqb_neq.
Qed.

(** The test of the dimensions in [keepResult], in terms of the filter set. *)
Lemma dimensionMatch_spec (activeFilters : gmap string string) (r : AnalysisResult) :
  forallb (fun key => strictEqString (get r key) (filterValue activeFilters key))
          (filterKeys activeFilters) = true
  <-> forall key value, activeFilters !! key = Some value -> activeValue value = true ->
        strictEqString (get r key) value = true.
Proof.
  rewrite forallb_forall. split.
  - intros Hall key value Hv Hact. apply activeValue_spec in Hact as [Hne Hnall].
    specialize (Hall key (proj2 (filterKeys_spec _ _)
                            (ex_intro _ value (conj Hv (conj Hne Hnall))))).
    unfold filterValue in Hall. now rewrite Hv in Hall.
  - intros Hall key Hin. apply filterKeys_spec in Hin as (v & Hv & Hne & Hnall).
    unfold filterValue. rewrite Hv. apply (Hall key v Hv).
    now apply activeValue_spec.
Qed.

Lemma bool_eq_iff (a b : bool) : (a = true <-> b = true) -> a = b.
Proof. destruct a, b; intros [H1 H2]; try reflexivity; [now rewrite H1 | now rewrite H2]. Qed.

Lemma keepResult_insert (E : Engine) (activeFilters : gmap string string)
    (dimension value : string) (startDate endDate : option Z) (r : AnalysisResult) :
  keepResult (<[dimension := value]> activeFilters)
             (filterKeys (<[dimension := value]> activeFilters)) startDate endDate r
  = (if activeValue value then strictEqString (get r dimension) value else true)
    && keepResult (delete dimension activeFilters)
                  (filterKeys (delete dimension activeFilters)) startDate endDate r.
Proof.
  unfold keepResult.
  set (d' := forallb _ (filterKeys (<[dimension := value]> activeFilters))).
  set (d := forallb _ (filterKeys (delete dimension activeFilters))).
  assert (Hd : d' = (if activeValue value then strictEqString (get r dimension) value
                     else true) && d).
  { apply bool_eq_iff. subst d d'. rewrite andb_true_iff, !dimensionMatch_spec. split.
    - intros Hall. split.
      + destruct (activeValue value) eqn:Hact; [|reflexivity].
        apply (Hall dimension value); [apply lookup_insert_eq | exact Hact].
      + intros key v Hv Hact.
        destruct (decide (dimension = key)) as [->|Hne];
          [now rewrite lookup_delete_eq in Hv|].
        rewrite lookup_delete_ne in Hv by exact Hne.
        apply (Hall key v); [now rewrite lookup_insert_ne | exact Hact].
    - intros [Hdim Hall] key v Hv Hact.
      destruct (decide (dimension = key)) as [->|Hne].
      + rewrite lookup_insert_eq in Hv. injection Hv as ->. now rewrite Hact in Hdim.
      + rewrite lookup_insert_ne in Hv by exact Hne.
        apply (Hall key v); [now rewrite lookup_delete_ne | exact Hact]. }
  rewrite Hd.
  destruct (if activeValue value then strictEqString (get r dimension) value else true);
    [reflexivity | now destruct d].
Qed.

Lemma filter_andb {A} (f g : A -> bool) (l : list A) :
  List.filter (fun x => f x && g x) l = List.filter f (List.filter g l).
Proof.
  induction l as [|x l IH]; [reflexivity|].
  cbn [List.filter]. destruct (g x); cbn [List.filter]; rewrite ?andb_true_r, ?andb_false_r.
  - destruct (f x); now rewrite IH.
  - exact IH.
Qed.

(** [X11]. [updateFilter] replaces the choice for one dimension and leaves
    the other choices and the bounds of the date as they are. With a value
    that is neither empty nor [all], the filtered results are those the
    other filters leave whose cell of the dimension is the value; with the
    empty value or [all] they are all the results the other filters leave. *)
Theorem updateFilter_filtered (E : Engine) (st : Component) (dimension value : string) :
  let st' := updateFilter dimension value st in
  let others :=
    applyFilters (analysisResults st) (delete dimension (filters st))
                 (dateFilterStart st) (dateFilterEnd st) in
  filteredAnalysisResults st'
  = (if activeValue value
     then List.filter (fun r => strictEqString (get r dimension) value) others
     else others)
  /\ (forall key, key <> dimension -> filters st' !! key = filters st !! key)
  /\ filters st' !! dimension = Some value
  /\ analysisResults st' = analysisResults st
  /\ (filters st !! dimension = None -> others = filteredAnalysisResults st).
Proof.
  cbv zeta. split; [|split; [|split; [|split]]].
  - unfold filteredAnalysisResults, updateFilter.
    cbn [setFilters analysisResults filters dateFilterStart dateFilterEnd].
    rewrite !applyFilters_filter.
    rewrite (filter_ext _ _ (keepResult_insert E (filters st) dimension value
                               (dateFilterStart st) (dateFilterEnd st))).
    rewrite filter_andb.
    destruct (activeValue value); [reflexivity|].
    now rewrite (filter_all_true (fun _ => true)).
  - intros key Hne. cbn. now rewrite lookup_insert_ne.
  - cbn. apply lookup_insert_eq.
  - reflexivity.
  - intros Hnone. unfold filteredAnalysisResults. now rewrite delete_id.
Qed.

(** [resetApp] takes the component back to the upload view with no table,
    results, filters or chat, so that every view of the results is empty;
    it leaves the options of the trend chart, the modal and
    [isChatbotLoading] as they are. *)
Lemma resetApp_clears (E : Engine) (D : D3Time) (app : AppComponent) :
  let app' := resetApp app in
  let st' := pipeline app' in
  appState st' = upload /\ headers st' = [] /\ analysisResults st' = []
  /\ filteredAnalysisResults st' = []
  /\ exportToCsv st' = None
  /\ trendData st' = None
  /\ topicTree (filteredAnalysisResults st') = Some []
  /\ sentimentCounts st' = [] /\ topicCounts st' = [] /\ intentMap st' = []
  /\ availableFilters st' (mappedDimensionColumns app') = ∅
  /\ minDate st' = Some None
  /\ chatHistory app' = [] /\ selectedTopic app' = None
  /\ trendChartGroupBy st' = trendChartGroupBy (pipeline app)
  /\ trendChartPeriod st' = trendChartPeriod (pipeline app)
  /\ trendChartType app' = trendChartType app
  /\ isModalOpen app' = isModalOpen app
  /\ modalResponses app' = modalResponses app
  /\ isChatbotLoading app' = isChatbotLoading app
  /\ resetApp app' = app'.
Proof.
  cbv zeta. repeat split.
Qed.

(** ** The order of strings *)

Lemma ltb_irrefl (a : string) : JsString.ltb a a = false.
Proof.
  induction a as [|c a IH]; [reflexivity|]. cbn [JsString.ltb].
  now rewrite Nat.ltb_irrefl.
Qed.

Lemma ltb_trans (a b c : string) :
  JsString.ltb a b = true -> JsString.ltb b c = true -> JsString.ltb a c = true.
Proof.
  revert b c. induction a as [|x a IH]; intros [|y b] [|z c]; cbn [JsString.ltb];
    try discriminate; try reflexivity.
  destruct (nat_of_ascii x <? nat_of_ascii y)%nat eqn:Hxy;
    destruct (nat_of_ascii y <? nat_of_ascii x)%nat eqn:Hyx;
    destruct (nat_of_ascii y <? nat_of_ascii z)%nat eqn:Hyz;
    destruct (nat_of_ascii z <? nat_of_ascii y)%nat eqn:Hzy;
    destruct (nat_of_ascii x <? nat_of_ascii z)%nat eqn:Hxz;
    destruct (nat_of_ascii z <? nat_of_ascii x)%nat eqn:Hzx;
    try discriminate; try reflexivity;
    rewrite ?Nat.ltb_lt, ?Nat.ltb_ge in *; try lia.
  apply IH.
Qed.

Lemma ltb_total (a b : string) :
  JsString.ltb a b = false -> JsString.ltb b a = false -> a = b.
Proof.
  revert b. induction a as [|x a IH]; intros [|y b]; cbn [JsString.ltb];
    try discriminate; try reflexivity.
  destruct (nat_of_ascii x <? nat_of_ascii y)%nat eqn:Hxy; [discriminate|].
  destruct (nat_of_ascii y <? nat_of_ascii x)%nat eqn:Hyx; [discriminate|].
  intros Hab Hba. rewrite Nat.ltb_ge in Hxy, Hyx.
  assert (Heq : x = y).
  { rewrite <- (ascii_nat_embedding x), <- (ascii_nat_embedding y). f_equal. lia. }
  subst y. f_equal. now apply IH.
Qed.

(** ** The options of the filters: [availableFilters] *)







(** ** GeminiService: the text functions *)

(** [X14]. What the three text functions send to the model depends on the
    context only through its first 200 records (for the summary: its first
    250 records and the number of its records), so two contexts that agree
    there get the same answer. *)
Theorem text_functions_context_limit (E : Engine) (J : Json) (svc : TextService)
    (query filterDescription : string) (context context' : list AnalysisResult) :
  firstn 200 context = firstn 200 context' ->
  getChatbotResponse svc query context = getChatbotResponse svc query context'
  /\ generateRecommendations svc context filterDescription
     = generateRecommendations svc context' filterDescription
  /\ (firstn 250 context = firstn 250 context' -> length context = length context' ->
      generateExecutiveSummary svc context filterDescription
      = generateExecutiveSummary svc context' filterDescription).
Proof.
  intros Hsame.
  assert (Hslice : slice0 context 200 = slice0 context' 200)
    by (rewrite !slice0_positive by lia; exact Hsame).
  split; [|split].
  - unfold getChatbotResponse, chatbotPrompt. now rewrite Hslice.
  - unfold generateRecommendations, recommendationsPrompt. now rewrite Hslice.
  - intros Hsame' Hlen.
    assert (Hslice' : slice0 context 250 = slice0 context' 250)
      by (rewrite !slice0_positive by lia; exact Hsame').
    unfold generateExecutiveSummary, summaryPrompt, lengthText.
    now rewrite Hslice', Hlen.
Qed.

Lemma text_functions_context_limit_witness :
  let svc := mkTextService (Some (fun prompt => TextReturns prompt)) in
  let context := repeat quotedResult 201 in
  let context' := repeat quotedResult 200 ++ [classifiedWith ["A"]] in
  firstn 200 context = firstn 200 context'
  /\ @getChatbotResponse countJson svc "Which topics?" context
     = @getChatbotResponse countJson svc "Which topics?" context'.
Proof.
  cbv zeta.
  assert (Hsame : firstn 200 (repeat quotedResult 201)
                  = firstn 200 (repeat quotedResult 200 ++ [classifiedWith ["A"]])).
  { change 201%nat with (200 + 1)%nat. rewrite repeat_app.
    rewrite !firstn_app, !repeat_length, Nat.sub_diag. reflexivity. }
  split; [exact Hsame|].
  exact (proj1 (text_functions_context_limit utcEngine countJson _ "Which topics?" ""
                  _ _ Hsame)).
Defined.

(** ** The chatbot *)

(** [X15]. A submitted query that is not blank, while no query is pending,
    adds two messages to the chat: the trimmed query from the user and then
    one reply from the bot; [isChatbotLoading] is off afterwards, and the
    pipeline is untouched. The reply is the text of the model; when the
    call fails it is the apology of [getChatbotResponse] with the message
    of the error, and without a client the one of the handler. A blank query
    changes nothing, and neither does a query submitted while another is
    pending. *)
Theorem handleChatSubmit_history (E : Engine) (J : Json) (svc : TextService)
    (inputValue : string) (app : AppComponent) :
  let app' := handleChatSubmit svc inputValue app in
  let query := trim inputValue in
  let context := filteredAnalysisResults (pipeline app) in
  pipeline app' = pipeline app
  /\ (query = "" \/ isChatbotLoading app = true -> app' = app)
  /\ (query <> "" -> isChatbotLoading app = false ->
      exists reply,
        chatHistory app' = chatHistory app ++ [mkChatMessage user query; mkChatMessage bot reply]
        /\ isChatbotLoading app' = false
        /\ reply = match textClient svc with
                   | None => "Sorry, an error occurred."
                   | Some generateContent =>
                       match generateContent (chatbotPrompt query context) with
                       | TextReturns t => t
                       | TextThrows e =>
                           "Sorry, I encountered an error while processing your request: "
                           +:+ messageOrUnknown e
                       end
                   end)
  /\ (forall pending app1, chatSubmitted inputValue app = Some (pending, app1) ->
      forall other, handleChatSubmit svc other app1 = app1).
Proof.
  cbv zeta. unfold handleChatSubmit, chatSubmitted.
  destruct (nonEmpty (trim inputValue)) eqn:Hq; cbn [negb orb].
  - destruct (isChatbotLoading app) eqn:Hl.
    + split; [reflexivity|]. split; [reflexivity|]. split; [discriminate|].
      intros ? ? [=].
    + apply nonEmpty_true_iff in Hq.
      split; [reflexivity|]. split; [intros [H|H]; congruence|]. split.
      * intros _ _. eexists. split; [|split; [reflexivity|]].
        -- cbn [chatAnswered withChat chatHistory]. rewrite <- app_assoc. reflexivity.
        -- unfold getChatbotResponse. cbn [withChat pipeline].
           now destruct (textClient svc).
      * intros pending app1 [= <- <-] other. cbn [withChat isChatbotLoading].
        now rewrite orb_true_r.
  - split; [reflexivity|]. split; [reflexivity|]. split.
    + intros Hne. destruct (trim inputValue); [contradiction | discriminate].
    + intros ? ? [=].
Qed.

(** ** The recommendations *)

(** [X16]. [onGenerateRecommendations] does nothing without a type or a
    value. Otherwise the context it hands over holds, in their order, the
    filtered results whose classification has the value under the type; the
    text shown at the end is the text of the model, or an apology when the
    call fails or there is no client, and [isGeneratingRecommendations] is
    off. *)
Theorem onGenerateRecommendations_outcome (E : Engine) (J : Json) (svc : TextService)
    (app : AppComponent) :
  let type := recommendationFilterType app in
  let value := recommendationFilterValue app in
  let app' := onGenerateRecommendations svc app in
  let context := recommendationContext (pipeline app) type value in
  (type = "" \/ value = "" -> app' = app)
  /\ (forall r, In r context <->
        In r (filteredAnalysisResults (pipeline app))
        /\ getProp (get r "analysis") type = VString value)
  /\ sublist context (filteredAnalysisResults (pipeline app))
  /\ (type <> "" -> value <> "" ->
      isGeneratingRecommendations app' = false
      /\ pipeline app' = pipeline app
      /\ chatHistory app' = chatHistory app
      /\ generatedRecommendations app'
         = match textClient svc with
           | None => "Sorry, an error occurred while generating recommendations."
           | Some generateContent =>
               match generateContent
                       (recommendationsPrompt context
                          ("feedback with '" +:+ value +:+ "' " +:+ type)) with
               | TextReturns t => t
               | TextThrows e =>
                   "Sorry, I encountered an error while generating recommendations: "
                   +:+ messageOrUnknown e
               end
           end).
Proof.
  cbv zeta. split; [|split; [|split]].
  - unfold onGenerateRecommendations.
    intros [-> | ->]; cbn [nonEmpty negb orb]; [reflexivity|].
    now rewrite orb_true_r.
  - intros r. unfold recommendationContext. rewrite filter_In, andb_true_iff.
    split.
    + intros (Hr & _ & Heq). split; [exact Hr|].
      destruct (getProp _ _); try discriminate Heq.
      apply String.eqb_eq in Heq. now subst.
    + intros (Hr & Heq). split; [exact Hr|]. rewrite Heq. split.
      * destruct (get r "analysis") as [| | | | |o]; try discriminate Heq.
        reflexivity.
      * apply String.eqb_refl.
  - unfold recommendationContext.
    induction (filteredAnalysisResults (pipeline app)) as [|r rs IH]; [constructor|].
    cbn [List.filter]. destruct (_ && _); now constructor.
  - intros Ht Hv. unfold onGenerateRecommendations.
    apply nonEmpty_true_iff in Ht, Hv. rewrite Ht, Hv. cbn [negb orb].
    cbn [withRecommendations isGeneratingRecommendations pipeline chatHistory
         generatedRecommendations].
    repeat split. unfold generateRecommendations. now destruct (textClient svc).
Qed.

(** ** SafeHtmlPipe *)

Import SafeHtml.

Lemma startsWith_other (c d : ascii) (r m : string) :
  Ascii.eqb d c = false -> startsWith (String d r) (String c m) = false.
Proof.
  intros Hd. unfold startsWith. cbn [String.prefix].
  destruct (ascii_dec c d) as [->|_]; [|reflexivity].
  now rewrite Ascii.eqb_refl in Hd.
Qed.

Lemma startsWith_append (p s : string) : startsWith (p +:+ s) p = true.
Proof.
  unfold startsWith. induction p as [|c p IH]; [now destruct s|].
  rewrite append_cons. cbn [String.prefix].
  destruct (ascii_dec c c); [exact IH | contradiction].
Qed.

Lemma dropChars_append (p s : string) : dropChars (String.length p) (p +:+ s) = s.
Proof. induction p as [|c p IH]; [now destruct s | exact IH]. Qed.

Lemma length_append (a b : string) :
  String.length (a +:+ b) = (String.length a + String.length b)%nat.
Proof. induction a as [|c a IH]; [reflexivity|]. rewrite append_cons. cbn. now rewrite IH. Qed.

(** *** Headings *)

Lemma replaceHeading_skip (marker opening closing s : string) (b : bool) (k : nat) :
  (String.length s <= k)%nat -> replaceHeading marker opening closing s b k = "".
Proof.
  revert b k. induction s as [|c s IH]; intros b k Hk; [reflexivity|].
  cbn [String.length] in Hk. destruct k as [|k]; [lia|].
  cbn [replaceHeading]. apply IH. lia.
Qed.

(** Within a line, past its start, nothing is replaced. *)
Lemma replaceHeading_inside (marker opening closing s : string) :
  includes s LF = false -> includes s CR = false ->
  replaceHeading marker opening closing s false 0 = s.
Proof.
  induction s as [|c s IH]; intros Hlf Hcr; [reflexivity|].
  cbn [includes] in Hlf, Hcr.
  apply orb_false_iff in Hlf as [Hc Hlf]. apply orb_false_iff in Hcr as [Hc' Hcr].
  cbn [replaceHeading andb]. unfold isLineTerminator. rewrite Hc, Hc'. cbn [orb].
  now rewrite IH.
Qed.

Lemma restOfLine_one_line (s : string) :
  includes s LF = false -> includes s CR = false -> restOfLine s = s.
Proof.
  induction s as [|c s IH]; intros Hlf Hcr; [reflexivity|].
  cbn [includes] in Hlf, Hcr.
  apply orb_false_iff in Hlf as [Hc Hlf]. apply orb_false_iff in Hcr as [Hc' Hcr].
  cbn [restOfLine]. unfold isLineTerminator. rewrite Hc, Hc'. cbn [orb].
  now rewrite IH.
Qed.

(** A text of one line that starts with the marker becomes the heading. *)
Lemma replaceHeading_marked (c : ascii) (m opening closing t : string) :
  includes t LF = false -> includes t CR = false ->
  replaceHeading (String c m) opening closing (String c m +:+ t) true 0
  = opening +:+ t +:+ closing.
Proof.
  intros Hlf Hcr.
  pose proof (startsWith_append (String c m) t) as Hstart.
  pose proof (dropChars_append (String c m) t) as Hdrop.
  rewrite append_cons in *. cbn [replaceHeading andb]. rewrite Hstart, Hdrop.
  rewrite restOfLine_one_line by assumption.
  rewrite replaceHeading_skip; [now rewrite append_empty_r|].
  rewrite length_append. cbn [String.length]. lia.
Qed.

(** A text of one line that does not start with the marker stays. *)
Lemma replaceHeading_unmarked (marker opening closing s : string) :
  includes s LF = false -> includes s CR = false ->
  startsWith s marker = false ->
  replaceHeading marker opening closing s true 0 = s.
Proof.
  intros Hlf Hcr Hstart. destruct s as [|c s]; [reflexivity|].
  cbn [replaceHeading andb]. rewrite Hstart.
  cbn [includes] in Hlf, Hcr.
  apply orb_false_iff in Hlf as [Hc Hlf]. apply orb_false_iff in Hcr as [Hc' Hcr].
  unfold isLineTerminator. rewrite Hc, Hc'. cbn [orb].
  now rewrite replaceHeading_inside.
Qed.

(** Without a hash nothing is a heading, whatever the lines. *)
Lemma replaceHeading_no_hash (m opening closing s : string) (b : bool) :
  includes s "#" = false ->
  replaceHeading (String "#" m) opening closing s b 0 = s.
Proof.
  revert b. induction s as [|c s IH]; intros b Hs; [reflexivity|].
  cbn [includes] in Hs. apply orb_false_iff in Hs as [Hc Hs].
  cbn [replaceHeading]. rewrite (startsWith_other "#" c s m Hc), andb_false_r.
  now rewrite IH.
Qed.

(** *** Emphasis *)

Lemma replaceDelimited_skip (delimiter opening closing s : string) (k : nat) :
  (String.length s <= k)%nat -> replaceDelimited delimiter opening closing s k = "".
Proof.
  revert k. induction s as [|c s IH]; intros k Hk; [reflexivity|].
  cbn [String.length] in Hk. destruct k as [|k]; [lia|].
  cbn [replaceDelimited]. apply IH. lia.
Qed.

Lemma replaceDelimited_absent (delimiter opening closing s : string) :
  includesStr s delimiter = false ->
  replaceDelimited delimiter opening closing s 0 = s.
Proof.
  induction s as [|c s IH]; intros Hs; [reflexivity|].
  cbn [includesStr] in Hs. apply orb_false_iff in Hs as [Hp Hs].
  cbn [replaceDelimited]. unfold startsWith. rewrite Hp. now rewrite IH.
Qed.

Lemma includesStr_no_first (c : ascii) (d s : string) :
  includes s c = false -> includesStr s (String c d) = false.
Proof.
  induction s as [|x s IH]; intros Hs; [reflexivity|].
  cbn [includes] in Hs. apply orb_false_iff in Hs as [Hx Hs].
  cbn [includesStr]. rewrite IH by exact Hs.
  fold (startsWith (String x s) (String c d)).
  now rewrite (startsWith_other c x s d Hx).
Qed.

Lemma lazyUntil_closing (c : ascii) (d t rest : string) :
  includes t c = false -> includes t LF = false -> includes t CR = false ->
  lazyUntil (String c d) (t +:+ String c d +:+ rest) = Some t.
Proof.
  induction t as [|x t IH]; intros Hc Hlf Hcr.
  - rewrite append_nil_l.
    pose proof (startsWith_append (String c d) rest) as Hstart.
    rewrite append_cons in *. cbn [lazyUntil]. now rewrite Hstart.
  - cbn [includes] in Hc, Hlf, Hcr.
    apply orb_false_iff in Hc as [Hx Hc]. apply orb_false_iff in Hlf as [Hx' Hlf].
    apply orb_false_iff in Hcr as [Hx'' Hcr].
    rewrite append_cons. cbn [lazyUntil].
    rewrite (startsWith_other c x _ d Hx).
    unfold isLineTerminator. rewrite Hx', Hx''. cbn [orb].
    now rewrite IH.
Qed.

(** A text between two delimiters, without line break and without the
    character of the delimiter, becomes the emphasis. *)
Lemma replaceDelimited_marked (c : ascii) (d opening closing t : string) :
  includes t c = false -> includes t LF = false -> includes t CR = false ->
  replaceDelimited (String c d) opening closing
    (String c d +:+ t +:+ String c d) 0
  = opening +:+ t +:+ closing.
Proof.
  intros Hc Hlf Hcr.
  pose proof (startsWith_append (String c d) (t +:+ String c d)) as Hstart.
  pose proof (dropChars_append (String c d) (t +:+ String c d)) as Hdrop.
  pose proof (lazyUntil_closing c d t "" Hc Hlf Hcr) as Hlazy.
  rewrite append_empty_r in Hlazy.
  rewrite append_cons in *. cbn [replaceDelimited]. rewrite Hstart, Hdrop, Hlazy.
  rewrite replaceDelimited_skip; [now rewrite append_empty_r|].
  rewrite !length_append. cbn [String.length]. lia.
Qed.

(** *** Line breaks *)

Lemma lineBreaks_no_line_feed (s : string) : includes (lineBreaks s) LF = false.
Proof.
  induction s as [|c s IH]; [reflexivity|]. cbn [lineBreaks].
  destruct (Ascii.eqb c LF) eqn:Hc.
  - rewrite includes_append, IH. reflexivity.
  - cbn [includes]. now rewrite Hc, IH.
Qed.

Lemma lineBreaks_one_line (s : string) : includes s LF = false -> lineBreaks s = s.
Proof.
  induction s as [|c s IH]; intros Hs; [reflexivity|].
  cbn [includes] in Hs. apply orb_false_iff in Hs as [Hc Hs].
  cbn [lineBreaks]. now rewrite Hc, IH.
Qed.

Lemma unmarked_spec (s : string) :
  unmarked s = true <->
  includes s "#" = false /\ includes s "*" = false
  /\ includes s LF = false /\ includes s CR = false.
Proof.
  unfold unmarked. rewrite !andb_true_iff, !negb_true_iff. tauto.
Qed.

(** [X17]. The pipe never returns a line feed, and returns the empty text
    for [null], [undefined] and the empty text. A text without hash,
    asterisk and line feed comes out as it went in, whatever else it holds:
    the pipe escapes nothing, and what it returns is marked as trusted. *)
Theorem transform_plain_text (v : string) :
  includes v "#" = false -> includes v "*" = false -> includes v LF = false ->
  transform (Some v) = v
  /\ transform None = "" /\ transform (Some "") = ""
  /\ forall value, includes (transform value) LF = false.
Proof.
  intros Hhash Hstar Hlf. split; [|split; [reflexivity|split; [reflexivity|]]].
  - unfold transform. destruct v as [|c v]; [reflexivity|]. cbn [nonEmpty negb].
    rewrite !(replaceHeading_no_hash _ _ _ (String c v) _ Hhash).
    rewrite !(replaceDelimited_absent _ _ _ (String c v)
               (includesStr_no_first "*" _ _ Hstar)).
    now apply lineBreaks_one_line.
  - intros [w|]; [|reflexivity]. unfold transform.
    destruct (negb (nonEmpty w)); [reflexivity | apply lineBreaks_no_line_feed].
Qed.

Lemma transform_plain_text_witness :
  transform (Some "<a href=x>5 of 7</a>") = "<a href=x>5 of 7</a>"
  /\ transform None = "" /\ transform (Some "") = ""
  /\ forall value, includes (transform value) LF = false.
Proof.
  apply (transform_plain_text "<a href=x>5 of 7</a>"); reflexivity.
Defined.

Lemma startsWith_same (c : ascii) (r m : string) :
  startsWith (String c r) (String c m) = startsWith r m.
Proof.
  unfold startsWith. cbn [String.prefix]. now destruct (ascii_dec c c).
Qed.

Lemma includesStr_before_closing (t : string) :
  includes t "*" = false -> includesStr (t +:+ "*") "**" = false.
Proof.
  induction t as [|x t IH]; intros Ht; [reflexivity|].
  cbn [includes] in Ht. apply orb_false_iff in Ht as [Hx Ht].
  rewrite append_cons. cbn [includesStr]. rewrite IH by exact Ht.
  fold (startsWith (String x (t +:+ "*")) "**").
  now rewrite (startsWith_other "*" x _ "*" Hx).
Qed.

(** What is left of [transform] once the headings are done, on a text
    without asterisk and line feed. *)
Lemma transform_tail (s : string) :
  includes s "*" = false -> includes s LF = false ->
  lineBreaks (replaceDelimited "*" "<em>" "</em>"
                (replaceDelimited "**" "<strong>" "</strong>" s 0) 0) = s.
Proof.
  intros Hstar Hlf.
  rewrite (replaceDelimited_absent "**" _ _ s (includesStr_no_first "*" _ _ Hstar)).
  rewrite (replaceDelimited_absent "*" _ _ s (includesStr_no_first "*" _ _ Hstar)).
  now apply lineBreaks_one_line.
Qed.

Lemma includes_wrapped (opening t closing : string) (c : ascii) :
  includes opening c = false -> includes closing c = false -> includes t c = false ->
  includes (opening +:+ t +:+ closing) c = false.
Proof. intros Ho Hc Ht. now rewrite !includes_append, Ho, Hc, Ht. Qed.

(** [X18]. On a text of one line without hash and asterisk, a heading
    marker at the start gives the heading of its level, a pair of double
    asterisks around the text gives strong emphasis and a pair of single
    asterisks gives emphasis. *)
Theorem transform_markup (t : string) :
  unmarked t = true ->
  transform (Some ("# " +:+ t)) = "<h1>" +:+ t +:+ "</h1>"
  /\ transform (Some ("## " +:+ t)) = "<h2>" +:+ t +:+ "</h2>"
  /\ transform (Some ("### " +:+ t)) = "<h3>" +:+ t +:+ "</h3>"
  /\ transform (Some ("**" +:+ t +:+ "**")) = "<strong>" +:+ t +:+ "</strong>"
  /\ transform (Some ("*" +:+ t +:+ "*")) = "<em>" +:+ t +:+ "</em>".
Proof.
  intros Hu. apply unmarked_spec in Hu as (Hhash & Hstar & Hlf & Hcr).
  assert (Hline : forall p, includes p LF = false -> includes p CR = false ->
            includes (p +:+ t) LF = false /\ includes (p +:+ t) CR = false).
  { intros p Hp Hp'. now rewrite !includes_append, Hp, Hp', Hlf, Hcr. }
  assert (Hwrap : forall opening closing c,
            includes opening c = false -> includes closing c = false ->
            includes t c = false ->
            includes (opening +:+ t +:+ closing) c = false)
    by (intros; now apply includes_wrapped).
  split; [|split; [|split; [|split]]].
  - destruct (Hline "# " eq_refl eq_refl) as [Hl Hc].
    assert (Hs3 : startsWith ("# " +:+ t) "### " = false).
    { change ("# " +:+ t) with (String "#" (String " " t)).
      rewrite startsWith_same. now apply startsWith_other. }
    assert (Hs2 : startsWith ("# " +:+ t) "## " = false).
    { change ("# " +:+ t) with (String "#" (String " " t)).
      rewrite startsWith_same. now apply startsWith_other. }
    unfold transform. change (negb (nonEmpty ("# " +:+ t))) with false. cbv iota.
    rewrite (replaceHeading_unmarked "### " _ _ _ Hl Hc Hs3).
    rewrite (replaceHeading_unmarked "## " _ _ _ Hl Hc Hs2).
    rewrite (replaceHeading_marked "#" " " "<h1>" "</h1>" t Hlf Hcr).
    apply transform_tail; now apply Hwrap.
  - destruct (Hline "## " eq_refl eq_refl) as [Hl Hc].
    assert (Hs3 : startsWith ("## " +:+ t) "### " = false).
    { change ("## " +:+ t) with (String "#" (String "#" (String " " t))).
      rewrite !startsWith_same. now apply startsWith_other. }
    unfold transform. change (negb (nonEmpty ("## " +:+ t))) with false. cbv iota.
    rewrite (replaceHeading_unmarked "### " _ _ _ Hl Hc Hs3).
    rewrite (replaceHeading_marked "#" "# " "<h2>" "</h2>" t Hlf Hcr).
    rewrite (replaceHeading_no_hash " " _ _ ("<h2>" +:+ t +:+ "</h2>") true
               (Hwrap "<h2>" "</h2>" "#"%char eq_refl eq_refl Hhash)).
    apply transform_tail; now apply Hwrap.
  - unfold transform. change (negb (nonEmpty ("### " +:+ t))) with false. cbv iota.
    rewrite (replaceHeading_marked "#" "## " "<h3>" "</h3>" t Hlf Hcr).
    rewrite (replaceHeading_no_hash "# " _ _ ("<h3>" +:+ t +:+ "</h3>") true
               (Hwrap "<h3>" "</h3>" "#"%char eq_refl eq_refl Hhash)).
    rewrite (replaceHeading_no_hash " " _ _ ("<h3>" +:+ t +:+ "</h3>") true
               (Hwrap "<h3>" "</h3>" "#"%char eq_refl eq_refl Hhash)).
    apply transform_tail; now apply Hwrap.
  - unfold transform. change (negb (nonEmpty ("**" +:+ t +:+ "**"))) with false. cbv iota.
    pose proof (Hwrap "**" "**" "#"%char eq_refl eq_refl Hhash) as Hh.
    rewrite !(replaceHeading_no_hash _ _ _ ("**" +:+ t +:+ "**") true Hh).
    rewrite (replaceDelimited_marked "*" "*" "<strong>" "</strong>" t Hstar Hlf Hcr).
    rewrite (replaceDelimited_absent "*" _ _ _
               (includesStr_no_first "*" _ _
                  (Hwrap "<strong>" "</strong>" "*"%char eq_refl eq_refl Hstar))).
    apply lineBreaks_one_line. now apply Hwrap.
  - destruct t as [|x t']; [reflexivity|].
    unfold transform.
    change (negb (nonEmpty ("*" +:+ String x t' +:+ "*"))) with false. cbv iota.
    pose proof (Hwrap "*" "*" "#"%char eq_refl eq_refl Hhash) as Hh.
    rewrite !(replaceHeading_no_hash _ _ _ ("*" +:+ String x t' +:+ "*") true Hh).
    assert (Hnone : includesStr ("*" +:+ String x t' +:+ "*") "**" = false).
    { change ("*" +:+ String x t' +:+ "*") with (String "*" (String x (t' +:+ "*"))).
      cbn [includes] in Hstar. apply orb_false_iff in Hstar as [Hx Hstar].
      cbn [includesStr]. rewrite (includesStr_before_closing t' Hstar).
      fold (startsWith (String "*" (String x (t' +:+ "*"))) "**").
      fold (startsWith (String x (t' +:+ "*")) "**").
      rewrite startsWith_same, (startsWith_other "*" x _ "" Hx).
      now rewrite (startsWith_other "*" x _ "*" Hx). }
    rewrite (replaceDelimited_absent "**" _ _ _ Hnone).
    rewrite (replaceDelimited_marked "*" "" "<em>" "</em>" (String x t') Hstar Hlf Hcr).
    apply lineBreaks_one_line. now apply Hwrap.
Qed.

Lemma transform_markup_witness :
  transform (Some "## Key findings") = "<h2>Key findings</h2>"
  /\ transform (Some "**45%**") = "<strong>45%</strong>".
Proof.
  split.
  - exact (proj1 (proj2 (transform_markup "Key findings" eq_refl))).
  - exact (proj1 (proj2 (proj2 (proj2 (transform_markup "45%" eq_refl))))).
Defined.

(** ** AggregationEngine: the root level of the topic tree *)

Lemma dedupe_In (seen xs : list string) (x : string) :
  In x (dedupe seen xs) <-> In x xs /\ ~ In x seen.
Proof.
  revert seen. induction xs as [|y xs IH]; intros seen; cbn [dedupe In].
  - tauto.
  - destruct (existsb (String.eqb y) seen) eqn:Hex.
    + apply existsb_eqb_In in Hex. rewrite IH. split.
      * intros [Hx Hs]. split; [now right | exact Hs].
      * intros [[<-|Hx] Hs]; [contradiction | now split].
    + assert (Hy : ~ In y seen) by (intros H; apply existsb_eqb_In in H; congruence).
      cbn [In]. rewrite IH. cbn [In]. split.
      * intros [<-|[Hx Hs]]; [split; [now left | exact Hy]|].
        split; [now right | tauto].
      * intros [[<-|Hx] Hs]; [now left|].
        destruct (string_dec y x) as [->|Hne]; [now left|]. right. split; [exact Hx|].
        intros [H|H]; contradiction.
Qed.

Lemma dedupe_NoDup (seen xs : list string) : NoDup (dedupe seen xs).
Proof.
  revert seen. induction xs as [|y xs IH]; intros seen; cbn [dedupe]; [constructor|].
  destruct (existsb (String.eqb y) seen); [apply IH|].
  apply NoDup_cons. split; [|apply IH].
  intros Hin. apply list_elem_of_In, dedupe_In in Hin as [_ Hout].
  apply Hout. now left.
Qed.

(** A property that new nodes have and that [touch] and [registerChild]
    keep holds for every node of the table. *)
Lemma buildRoot_nodes (P : TopicNode -> Prop) :
  (forall t, P (newNode t)) ->
  (forall r node, P node -> P (touch r node)) ->
  (forall child node, P node -> P (registerChild child node)) ->
  forall rs k node, buildRoot rs !! k = Some node -> P node.
Proof.
  intros Hnew Htouch Hreg rs. unfold buildRoot.
  set (good := fun root : gmap string TopicNode =>
                 forall k node, root !! k = Some node -> P node).
  assert (Halter : forall f (root : gmap string TopicNode) t,
            (forall node, P node -> P (f node)) -> good root -> good (alter f t root)).
  { intros f root t Hf Hroot k node Hk. destruct (decide (t = k)) as [<-|Hne].
    - rewrite lookup_alter_eq in Hk. destruct (root !! t) as [n|] eqn:Hn; [|discriminate Hk].
      cbn in Hk. injection Hk as <-. apply Hf. now apply (Hroot t).
    - rewrite lookup_alter_ne in Hk by exact Hne. now apply (Hroot k). }
  assert (Hstep : forall r root p t,
            good root -> good (fst (visitTopic r (root, p) t))).
  { intros r root p t Hroot. unfold visitTopic. cbn [fst].
    apply Halter; [apply Htouch|].
    destruct (root !! t); [exact Hroot|].
    assert (Hins : good (<[t := newNode t]> root)).
    { intros k node Hk. destruct (decide (t = k)) as [<-|Hne].
      - rewrite lookup_insert_eq in Hk. injection Hk as <-. apply Hnew.
      - rewrite lookup_insert_ne in Hk by exact Hne. now apply (Hroot k). }
    destruct p; [apply Halter; [apply Hreg | exact Hins] | exact Hins]. }
  assert (Hgen : forall root, good root -> good (fold_left visitResult rs root)).
  { induction rs as [|r rs IH]; intros root Hroot; cbn [fold_left]; [exact Hroot|].
    apply IH. unfold visitResult.
    destruct (truthy _); cbn [negb]; [|exact Hroot].
    destruct (getProp _ _) as [| | |ts| |]; try exact Hroot.
    destruct ts as [|t ts]; [exact Hroot|].
    generalize (t :: ts). clear t ts. intros ts.
    generalize (@None string). revert root Hroot.
    induction ts as [|t ts IHts]; intros root Hroot p; cbn [fold_left]; [exact Hroot|].
    pose proof (Hstep r root p t Hroot) as Hnext.
    destruct (visitTopic r (root, p) t) as [root' p']. now apply IHts. }
  apply Hgen. intros k node Hk. now rewrite lookup_empty in Hk.
Qed.

(** The first topics [topicTree] collects are the first topics of the
    records that are not empty. *)
Lemma firstTopics_truthyStrings (rs : list AnalysisResult) (firsts : list Value)
    (t : string) :
  firstTopics rs = Some firsts ->
  In t (truthyStrings firsts) <->
  t <> "" /\ exists r, In r rs /\ firstTopicIs t r = true.
Proof.
  revert firsts. induction rs as [|r rs IH]; intros firsts; cbn [firstTopics].
  - intros [= <-]. cbn. split; [contradiction | intros (_ & r & [] & _)].
  - destruct (firstTopic r) as [v|] eqn:Hv; [|discriminate].
    destruct (firstTopics rs) as [vs|]; [|discriminate].
    intros [= <-]. unfold truthyStrings. cbn [flat_map]. rewrite in_app_iff.
    fold (truthyStrings vs). rewrite (IH vs eq_refl).
    assert (Hhead : In t (match v with
                          | VString s => if nonEmpty s then [s] else []
                          | _ => []
                          end)
                    <-> t <> "" /\ firstTopicIs t r = true).
    { unfold firstTopic in Hv. unfold firstTopicIs, countedValues.
      destruct (get r "analysis") as [| s | x | xs | d |[a|m]]; cbn in Hv |- *;
        try discriminate Hv.
      - injection Hv as <-. split; [contradiction | intros [_ H]; discriminate].
      - destruct (topics a) as [|t0 ts]; injection Hv as <-.
        + split; [contradiction | intros [_ H]; discriminate].
        + destruct (nonEmpty t0) eqn:Hne; cbn [In].
          * split.
            -- intros [<-|[]]. split; [now apply nonEmpty_true_iff | apply String.eqb_refl].
            -- intros [_ Heq]. left. now apply String.eqb_eq.
          * split; [contradiction|]. intros [Ht Heq].
            apply String.eqb_eq in Heq. subst t0.
            apply nonEmpty_true_iff in Ht. congruence. }
    rewrite Hhead. split.
    + intros [[Ht Hr]|(Ht & r' & Hr' & Hf)].
      * split; [exact Ht|]. exists r. split; [now left | exact Hr].
      * split; [exact Ht|]. exists r'. split; [now right | exact Hf].
    + intros (Ht & r' & [<-|Hr'] & Hf); [left; now split|].
      right. split; [exact Ht|]. now exists r'.
Qed.

Lemma occurrences_first (rs : list AnalysisResult) (r : AnalysisResult) (t : string) :
  In r rs -> firstTopicIs t r = true -> (0 < occurrences FTopics rs t)%nat.
Proof.
  intros Hr Hf. unfold occurrences. apply count_occ_In, in_flat_map.
  exists r. split; [exact Hr|]. unfold firstTopicIs in Hf.
  destruct (countedValues FTopics r) as [|t0 ts]; [discriminate|].
  apply String.eqb_eq in Hf. now left.
Qed.

(** [X19]. The root level of [topicTree]: one node for every first topic of
    a record that is not empty, each once, in descending order of count.
    Every node has counted one more for every response it holds, and lists
    no sub-topic twice. *)
Theorem topicTree_roots (rs : list AnalysisResult) (tree : list TopicNode) :
  topicTree rs = Some tree ->
  StronglySorted (fun a b => (count b <= count a)%nat) tree
  /\ NoDup (List.map name tree)
  /\ (forall t, In t (List.map name tree) <->
        t <> "" /\ exists r, In r rs /\ firstTopicIs t r = true)
  /\ (forall node, In node tree ->
        count node = length (responses node) /\ (0 < count node)%nat
        /\ NoDup (subTopics node)).
Proof.
  unfold topicTree. destruct (firstTopics rs) as [firsts|] eqn:Hfirsts; [|discriminate].
  intros [= <-].
  set (top := dedupe [] (truthyStrings firsts)).
  set (nodes := flat_map _ top).
  assert (Htop : forall t, In t top <-> t <> "" /\ exists r, In r rs /\ firstTopicIs t r = true).
  { intros t. subst top. rewrite dedupe_In, (firstTopics_truthyStrings rs firsts t Hfirsts).
    cbn [In]. tauto. }
  assert (Hfound : forall t, In t top -> exists node,
             buildRoot rs !! t = Some node /\ name node = t /\ (0 < count node)%nat).
  { intros t Ht. apply Htop in Ht as (_ & r & Hr & Hf).
    pose proof (occurrences_first rs r t Hr Hf) as Hpos.
    rewrite <- buildRoot_count in Hpos. unfold nodeCount in Hpos.
    destruct (buildRoot rs !! t) as [node|] eqn:Hnode; [|lia].
    exists node. split; [reflexivity|]. split; [|exact Hpos].
    now apply (buildRoot_namedByKey rs t node). }
  assert (Hnames : List.map name nodes = top).
  { subst nodes. revert Hfound. generalize top. clear.
    induction top as [|t top IH]; intros Hfound; [reflexivity|].
    cbn [flat_map]. rewrite map_app, IH.
    - destruct (Hfound t ltac:(now left)) as (node & -> & <- & _). reflexivity.
    - intros t' Ht'. apply Hfound. now right. }
  assert (Hperm : Permutation (sortDesc count nodes) nodes) by apply sortDesc_perm.
  split; [apply sortDesc_sorted|]. split; [|split].
  - rewrite (Permutation_map name Hperm), Hnames. apply dedupe_NoDup.
  - intros t. rewrite <- Htop, <- Hnames. split; apply Permutation_in.
    + now apply Permutation_map.
    + now apply Permutation_map, Permutation_sym.
  - intros node Hnode. apply (Permutation_in _ Hperm) in Hnode.
    subst nodes. apply in_flat_map in Hnode as (t & Ht & Hnode).
    destruct (Hfound t Ht) as (node' & Hlook & _ & Hpos).
    rewrite Hlook in Hnode. destruct Hnode as [<-|[]].
    pose proof (buildRoot_nodes
                  (fun n => count n = length (responses n) /\ NoDup (subTopics n)))
      as Hinv.
    destruct (Hinv) with (rs := rs) (k := t) (node := node') as [Hc Hs];
      try exact Hlook.
    + intros t0. split; [reflexivity | constructor].
    + intros r n [Hc Hs]. split; [|exact Hs]. cbn. rewrite length_app. cbn. lia.
    + intros child n [Hc Hs]. unfold registerChild.
      destruct (existsb _ (subTopics n)) eqn:Hex; [now split|].
      cbn. split; [exact Hc|].
      apply NoDup_app. split; [exact Hs|]. split; [|apply NoDup_singleton].
      intros x Hx Hx'. apply list_elem_of_singleton in Hx'. subst x.
      assert (Hin : existsb (fun st => String.eqb st child) (subTopics n) = true).
      { apply existsb_exists. exists child. split; [now apply list_elem_of_In|].
        apply String.eqb_refl. }
      congruence.
    + now repeat split.
Qed.

Lemma topicTree_roots_witness :
  exists tree,
    topicTree subTopicAlone = Some tree
    /\ StronglySorted (fun a b => (count b <= count a)%nat) tree
    /\ NoDup (List.map name tree).
Proof.
  eexists. split; [vm_compute; reflexivity|].
  match goal with
  | |- StronglySorted _ ?tree /\ _ =>
      destruct (topicTree_roots subTopicAlone tree) as (Hsorted & Hnd & _);
        [vm_compute; reflexivity | now split]
  end.
Defined.

(** ** AggregationEngine: the axes and the totals of the time series *)

Lemma insertString_perm (x : string) (l : list string) :
  Permutation (insertString x l) (x :: l).
Proof.
  induction l as [|y l IH]; cbn [insertString]; [reflexivity|].
  destruct (JsString.ltb x y); [reflexivity|].
  rewrite IH. apply perm_swap.
Qed.

Lemma sortStrings_perm (l : list string) : Permutation (sortStrings l) l.
Proof.
  induction l as [|x l IH]; cbn [sortStrings fold_right]; [reflexivity|].
  fold (sortStrings l). rewrite insertString_perm. now constructor.
Qed.

Lemma ltb_asym (a b : string) : JsString.ltb a b = true -> JsString.ltb b a = false.
Proof.
  intros Hab. destruct (JsString.ltb b a) eqn:Hba; [|reflexivity].
  pose proof (ltb_trans _ _ _ Hab Hba) as Haa. now rewrite ltb_irrefl in Haa.
Qed.

Lemma insertString_sorted (x : string) (l : list string) :
  StronglySorted (fun a b => JsString.ltb b a = false) l ->
  StronglySorted (fun a b => JsString.ltb b a = false) (insertString x l).
Proof.
  induction 1 as [|y l Hl IH Hy]; cbn [insertString].
  - repeat constructor.
  - destruct (JsString.ltb x y) eqn:Hxy.
    + constructor; [now constructor|]. constructor; [now apply ltb_asym|].
      apply Forall_forall. intros z Hz. rewrite Forall_forall in Hy.
      specialize (Hy z Hz). cbn beta in Hy.
      destruct (JsString.ltb z x) eqn:Hzx; [|reflexivity].
      pose proof (ltb_trans _ _ _ Hzx Hxy). congruence.
    + constructor; [exact IH|].
      apply Forall_forall. intros z Hz. apply list_elem_of_In in Hz.
      apply (Permutation_in _ (insertString_perm x l)) in Hz.
      destruct Hz as [<-|Hz]; [exact Hxy|].
      rewrite Forall_forall in Hy. now apply Hy, list_elem_of_In.
Qed.

Lemma sortStrings_sorted (l : list string) :
  StronglySorted (fun a b => JsString.ltb b a = false) (sortStrings l).
Proof.
  induction l as [|x l IH]; cbn [sortStrings fold_right]; [constructor|].
  now apply insertString_sorted.
Qed.

(** Sorted without repetition is strictly ascending. *)
Lemma sorted_strict (l : list string) :
  StronglySorted (fun a b => JsString.ltb b a = false) l -> NoDup l ->
  StronglySorted (fun a b => JsString.ltb a b = true) l.
Proof.
  induction 1 as [|a l Hl IH Ha]; intros Hnd; [constructor|].
  apply NoDup_cons in Hnd as [Hout Hnd]. constructor; [now apply IH|].
  apply Forall_forall. intros b Hb. rewrite Forall_forall in Ha.
  specialize (Ha b Hb). cbn beta in Ha.
  destruct (JsString.ltb a b) eqn:Hab; [reflexivity|].
  exfalso. apply Hout. now rewrite (ltb_total _ _ Hab Ha).
Qed.

Lemma insertKey_sorted (x : Z) (l : list Z) :
  StronglySorted Z.le l ->
  exists l', insertKey (Some x) (List.map Some l) = List.map Some l'
             /\ Permutation l' (x :: l) /\ StronglySorted Z.le l'.
Proof.
  induction 1 as [|y l Hl IH Hy]; cbn [insertKey List.map].
  - exists [x]. repeat split; repeat constructor.
  - cbn [keyLtb]. destruct (x <? y) eqn:Hxy.
    + apply Z.ltb_lt in Hxy. exists (x :: y :: l). split; [reflexivity|].
      split; [reflexivity|]. constructor; [now constructor|].
      constructor; [lia|]. apply Forall_forall. intros z Hz.
      rewrite Forall_forall in Hy. specialize (Hy z Hz). cbn beta in Hy. lia.
    + apply Z.ltb_ge in Hxy. destruct IH as (l' & Heq & Hperm & Hsorted).
      exists (y :: l'). rewrite Heq. split; [reflexivity|]. split.
      * rewrite Hperm. apply perm_swap.
      * constructor; [exact Hsorted|]. apply Forall_forall. intros z Hz.
        apply list_elem_of_In in Hz. apply (Permutation_in _ Hperm) in Hz.
        destruct Hz as [<-|Hz]; [exact Hxy|].
        rewrite Forall_forall in Hy. now apply Hy, list_elem_of_In.
Qed.

Lemma sortKeys_sorted (l : list Z) :
  exists l', sortKeys (List.map Some l) = List.map Some l'
             /\ Permutation l' l /\ StronglySorted Z.le l'.
Proof.
  induction l as [|x l (l0 & Heq & Hperm & Hsorted)].
  - exists []. repeat split; constructor.
  - cbn [List.map sortKeys fold_right]. fold (sortKeys (List.map Some l)). rewrite Heq.
    destruct (insertKey_sorted x l0 Hsorted) as (l' & Heq' & Hperm' & Hsorted').
    exists l'. split; [exact Heq'|]. split; [|exact Hsorted'].
    rewrite Hperm'. now constructor.
Qed.

Lemma sorted_strict_Z (l : list Z) :
  StronglySorted Z.le l -> NoDup l -> StronglySorted Z.lt l.
Proof.
  induction 1 as [|a l Hl IH Ha]; intros Hnd; [constructor|].
  apply NoDup_cons in Hnd as [Hout Hnd]. constructor; [now apply IH|].
  apply Forall_forall. intros b Hb. rewrite Forall_forall in Ha.
  specialize (Ha b Hb). cbn beta in Ha.
  destruct (Z.eq_dec a b) as [->|Hne]; [contradiction | lia].
Qed.

Lemma groupValues_countedValues (groupBy : Field) (r : AnalysisResult) :
  groupValues groupBy r = List.filter nonEmpty (countedValues groupBy r).
Proof.
  unfold groupValues, countedValues.
  destruct (truthy (get r "analysis")); cbn [negb]; [|reflexivity].
  destruct (get r "analysis") as [| | | | |[a|m]], groupBy; cbn [fieldName];
    repeat match goal with
           | |- context [getProp ?v ?name] =>
               let r := eval vm_compute in (getProp v name) in
               change (getProp v name) with r
           end;
    try reflexivity.
  all: destruct a; cbv iota beta; match goal with
       | |- context [nonEmpty ?s] => destruct (nonEmpty s) eqn:Hs
       end; cbn [List.filter]; now rewrite ?Hs.
Qed.

(** What [trendData] returns when it returns a series. *)
Lemma trendData_Some (E : Engine) (D : D3Time) (st : Component) (td : TrendData) :
  trendData st = Some td ->
  let groupBy := groupByField (trendChartGroupBy st) in
  let allKeys := sortStrings (dedupe [] (flat_map (groupValues groupBy) (included st))) in
  let dataByDate :=
    List.map (fun g => (fst g, reduceGroup groupBy allKeys (snd g))) (buckets st) in
  let sortedDates := sortKeys (List.map fst dataByDate) in
  nonEmpty (mappedDateColumn st) = true
  /\ keys td = allKeys
  /\ dates td = sortedDates
  /\ stackedData td
     = List.map (fun date => stackEntry date (default [] (lookupBucket date dataByDate)))
                sortedDates
  /\ series td
     = List.map (fun key =>
                   (key, List.map (fun date =>
                                     (date, match lookupBucket date dataByDate with
                                            | Some counts => countOf counts key
                                            | None => 0%nat
                                            end)) sortedDates)) allKeys.
Proof.
  unfold trendData. destruct (nonEmpty (mappedDateColumn st)); cbn [negb]; [|discriminate].
  destruct (length (included st) =? 0)%nat; [discriminate|].
  intros [= <-]. cbv zeta. cbn [keys dates stackedData series]. now repeat split.
Qed.

(** Every included record of a list whose [date] is a [Date] or missing
    falls into the bucket of a time value. *)
Lemma buckets_dated (E : Engine) (D : D3Time) (st : Component) :
  Forall dateTyped (filteredAnalysisResults st) ->
  exists ds, List.map fst (buckets st) = List.map Some ds.
Proof.
  intros Htyped. unfold buckets.
  assert (Hall : forall k, In k (List.map fst (groupByBucket (trendChartPeriod st) (included st)))
                           -> exists t, k = Some t).
  { intros k Hk. apply in_map_iff in Hk as ([k' g] & <- & Hin). cbn [fst].
    assert (Hne : g <> []).
    { clear - Hin. unfold groupByBucket in Hin.
      assert (Hgen : forall rs groups,
                Forall (fun kg => snd kg <> []) groups ->
                Forall (fun kg => snd kg <> [])
                  (fold_left (fun gs x => addToGroup (bucketOf (trendChartPeriod st) x) x gs)
                             rs groups)).
      { induction rs as [|r rs IH]; intros groups Hg; cbn [fold_left]; [exact Hg|].
        apply IH. clear IH.
        induction Hg as [|[k0 g0] rest Hk0 Hrest IHg]; cbn [addToGroup].
        - repeat constructor. discriminate.
        - match goal with
          | |- context [bool_decide ?P] => destruct (bool_decide P)
          end; constructor; cbn [snd] in *; try assumption.
          now destruct g0. }
      specialize (Hgen (included st) [] ltac:(constructor)).
      rewrite Forall_forall in Hgen. apply (Hgen (k', g)). now apply list_elem_of_In. }
    destruct g as [|r g]; [contradiction|].
    destruct (proj1 (groupByBucket_In D (trendChartPeriod st) (included st) k' r)
                (ex_intro _ (r :: g) (conj Hin (or_introl eq_refl)))) as [Hr ->].
    unfold included in Hr. apply filter_In in Hr as [Hr Hboth].
    unfold hasDateAndAnalysis in Hboth. apply andb_true_iff in Hboth as [Hdate _].
    rewrite Forall_forall in Htyped. specialize (Htyped r ltac:(now apply list_elem_of_In)).
    unfold dateTyped in Htyped. unfold bucketOf. unfold get in *.
    destruct (r !! "date") as [[]|]; try contradiction; try discriminate. eauto. }
  induction (List.map fst (groupByBucket (trendChartPeriod st) (included st))) as [|k ks IH].
  - now exists [].
  - destruct (Hall k ltac:(now left)) as [t ->].
    destruct IH as [ds Hds]; [intros k' Hk'; apply Hall; now right|].
    exists (t :: ds). cbn [List.map]. now rewrite Hds.
Qed.

(** *** The records of a bucket *)

Lemma addToGroup_update (k : option Z) (r : AnalysisResult)
    (groups : list (option Z * list AnalysisResult)) :
  NoDup (List.map fst groups) ->
  addToGroup k r groups
  = if bool_decide (k ∈ List.map fst groups)
    then List.map (fun kg => if bool_decide (k = fst kg)
                             then (fst kg, snd kg ++ [r]) else kg) groups
    else groups ++ [(k, [r])].
Proof.
  induction groups as [|[k0 g0] rest IH]; intros Hnd; cbn [addToGroup List.map fst snd].
  - rewrite bool_decide_eq_false_2 by apply not_elem_of_nil. reflexivity.
  - apply NoDup_cons in Hnd as [Hout Hnd].
    destruct (bool_decide (k = k0)) eqn:Hk.
    + apply bool_decide_eq_true in Hk. subst k0.
      rewrite bool_decide_eq_true_2 by (apply elem_of_cons; now left).
      f_equal. rewrite <- (List.map_id rest) at 1.
      apply map_ext_in. intros [k1 g1] Hin. cbn [fst snd].
      rewrite bool_decide_eq_false_2; [reflexivity|].
      intros ->. apply Hout, list_elem_of_In, in_map_iff. now exists (k1, g1).
    + apply bool_decide_eq_false in Hk. rewrite (IH Hnd).
      destruct (bool_decide (k ∈ List.map fst rest)) eqn:Hin.
      * apply bool_decide_eq_true in Hin.
        rewrite bool_decide_eq_true_2 by (apply elem_of_cons; now right). reflexivity.
      * apply bool_decide_eq_false in Hin.
        rewrite bool_decide_eq_false_2
          by (intros [Heq|Hr]%elem_of_cons; [congruence | contradiction]).
        reflexivity.
Qed.

Lemma filter_none {A} (f : A -> bool) (l : list A) :
  (forall x, In x l -> f x = false) -> List.filter f l = [].
Proof.
  induction l as [|x l IH]; intros Hall; cbn [List.filter]; [reflexivity|].
  rewrite (Hall x) by now left. apply IH. intros y Hy. apply Hall. now right.
Qed.

(** The group under a key holds the records of that bucket, in the order of
    the input, and is never empty. *)
Lemma groupByBucket_groups (D : D3Time) (p : Period) (rs : list AnalysisResult)
    (k : option Z) (g : list AnalysisResult) :
  In (k, g) (groupByBucket p rs) ->
  g = List.filter (fun r => bool_decide (bucketOf p r = k)) rs /\ g <> [].
Proof.
  unfold groupByBucket.
  assert (Hgen : forall seen groups,
            NoDup (List.map fst groups) ->
            (forall k g, In (k, g) groups ->
               g = List.filter (fun r => bool_decide (bucketOf p r = k)) seen /\ g <> []) ->
            (forall r, In r seen -> In (bucketOf p r) (List.map fst groups)) ->
            forall k g,
              In (k, g) (fold_left (fun gs x => addToGroup (bucketOf p x) x gs) rs groups) ->
              g = List.filter (fun r => bool_decide (bucketOf p r = k)) (seen ++ rs)
              /\ g <> []).
  { clear k g. induction rs as [|x rs IH]; intros seen groups Hnd Hg Hcov k g Hin;
      cbn [fold_left] in Hin.
    - rewrite app_nil_r. now apply Hg.
    - replace (seen ++ x :: rs) with ((seen ++ [x]) ++ rs)
        by (rewrite <- app_assoc; reflexivity).
      apply (IH (seen ++ [x]) (addToGroup (bucketOf p x) x groups)); [| | |exact Hin].
      + rewrite addToGroup_keys. destruct (bool_decide _) eqn:Hmem; [exact Hnd|].
        apply bool_decide_eq_false in Hmem.
        apply NoDup_app. split; [exact Hnd|]. split; [|apply NoDup_singleton].
        intros y Hy Hy'. apply list_elem_of_singleton in Hy'. now subst y.
      + intros k' g' Hin'. rewrite addToGroup_update in Hin' by exact Hnd.
        rewrite List.filter_app. cbn [List.filter].
        destruct (bool_decide (bucketOf p x ∈ List.map fst groups)) eqn:Hmem.
        * apply in_map_iff in Hin' as ([k0 g0] & Heq & Hin0). cbn [fst snd] in Heq.
          destruct (Hg k0 g0 Hin0) as [Hg0 Hne0].
          destruct (bool_decide (bucketOf p x = k0)) eqn:Hb; injection Heq as <- <-;
            rewrite Hb.
          -- split; [now rewrite Hg0 | now destruct g0].
          -- rewrite app_nil_r. now split.
        * apply bool_decide_eq_false in Hmem.
          apply in_app_or in Hin' as [Hin0|[[= <- <-]|[]]].
          -- destruct (Hg k' g' Hin0) as [Hg0 Hne0].
             rewrite bool_decide_eq_false_2; [rewrite app_nil_r; now split|].
             intros Heq. apply Hmem. rewrite Heq.
             apply list_elem_of_In, in_map_iff. now exists (k', g').
          -- rewrite bool_decide_eq_true_2 by reflexivity. split; [|discriminate].
             rewrite filter_none; [reflexivity|].
             intros r Hr. apply bool_decide_eq_false_2. intros Heq.
             apply Hmem. rewrite <- Heq. now apply list_elem_of_In, Hcov.
      + intros r Hr. rewrite addToGroup_keys.
        apply in_app_or in Hr as [Hr|[<-|[]]].
        * destruct (bool_decide _); [now apply Hcov|]. apply in_or_app. left. now apply Hcov.
        * destruct (bool_decide (bucketOf p x ∈ List.map fst groups)) eqn:Hmem.
          -- apply bool_decide_eq_true in Hmem. now apply list_elem_of_In.
          -- apply in_or_app. right. now left. }
  intros Hin. apply (Hgen [] [] ltac:(constructor)); [intros ? ? [] | intros ? [] | exact Hin].
Qed.

(** The keys of the buckets are the buckets of the records. *)
Lemma groupByBucket_keys (D : D3Time) (p : Period) (rs : list AnalysisResult)
    (k : option Z) :
  In k (List.map fst (groupByBucket p rs)) <-> exists r, In r rs /\ bucketOf p r = k.
Proof.
  split.
  - intros Hk. apply in_map_iff in Hk as ([k' g] & <- & Hg). cbn [fst].
    destruct (groupByBucket_groups D p rs k' g Hg) as [_ Hne].
    destruct g as [|r g]; [contradiction|].
    destruct (proj1 (groupByBucket_In D p rs k' r)
                (ex_intro _ (r :: g) (conj Hg (or_introl eq_refl)))) as [Hr ->].
    now exists r.
  - intros (r & Hr & <-).
    destruct (proj2 (groupByBucket_In D p rs (bucketOf p r) r) (conj Hr eq_refl))
      as (g & Hg & _).
    apply in_map_iff. now exists (bucketOf p r, g).
Qed.

(** The keys of the chart: the values of the chosen field of the included
    records that are not empty; the series are named by them. *)
Lemma trendData_keys_spec (E : Engine) (D : D3Time) (st : Component) (td : TrendData) :
  trendData st = Some td ->
  (forall k, In k (keys td) <->
     k <> "" /\ (0 < occurrences (groupByField (trendChartGroupBy st)) (included st) k)%nat)
  /\ List.map fst (series td) = keys td.
Proof.
  intros Htd.
  destruct (trendData_Some E D st td Htd) as (_ & Hkeys & _ & _ & Hseries).
  cbv zeta in *. split.
  - intros k. rewrite Hkeys. split.
    + intros Hk. apply (Permutation_in _ (sortStrings_perm _)), dedupe_In in Hk as [Hk _].
      apply in_flat_map in Hk as (r & Hr & Hk).
      rewrite groupValues_countedValues in Hk. apply filter_In in Hk as [Hk Hne].
      split; [now apply nonEmpty_true_iff|].
      unfold occurrences. apply count_occ_In, in_flat_map. now exists r.
    + intros [Hne Hpos]. apply (Permutation_in _ (Permutation_sym (sortStrings_perm _))).
      apply dedupe_In. split; [|intros []].
      unfold occurrences in Hpos. apply count_occ_In, in_flat_map in Hpos as (r & Hr & Hk).
      apply in_flat_map. exists r. split; [exact Hr|].
      rewrite groupValues_countedValues. apply filter_In. split; [exact Hk|].
      now apply nonEmpty_true_iff.
  - rewrite Hseries, Hkeys, List.map_map. cbn [fst]. apply List.map_id.
Qed.

(** On records typed as [AnalysisResult] declares them, the records
    [trendData] works on are those with a date and a classification. *)
Lemma hasDateAndAnalysis_typed (r : AnalysisResult) :
  dateTyped r -> analysisTyped r -> hasDateAndAnalysis r = (dated r && classified r)%bool.
Proof.
  unfold dateTyped, analysisTyped, hasDateAndAnalysis, dated, classified, dateOf, get.
  destruct (r !! "date") as [[]|]; cbn; try contradiction;
    destruct (r !! "analysis") as [[| | | | |[]]|]; cbn; try contradiction; reflexivity.
Qed.

Lemma included_typed (E : Engine) (st : Component) :
  Forall dateTyped (filteredAnalysisResults st) ->
  Forall analysisTyped (filteredAnalysisResults st) ->
  included st = datedAndClassified st.
Proof.
  intros Hd Ha. unfold included, datedAndClassified.
  apply List.filter_ext_in. intros r Hr. rewrite Forall_forall in Hd, Ha.
  apply hasDateAndAnalysis_typed; [apply Hd | apply Ha]; now apply list_elem_of_In.
Qed.

Lemma bucketOf_dated (D : D3Time) (p : Period) (r : AnalysisResult) (t : Z) :
  dateOf r = Some t -> bucketOf p r = Some (timeFloor p t).
Proof.
  unfold dateOf, bucketOf, get.
  destruct (r !! "date") as [[]|]; cbn; try discriminate. now intros [= ->].
Qed.

Lemma fallsIn_bucket (D : D3Time) (p : Period) (d : Z) (r : AnalysisResult) :
  dated r = true -> bool_decide (bucketOf p r = Some d) = fallsIn p d r.
Proof.
  unfold dated, fallsIn. destruct (dateOf r) as [t|] eqn:Ht; [intros _ | discriminate].
  rewrite (bucketOf_dated D p r t Ht).
  destruct (Z.eqb_spec (timeFloor p t) d) as [->|Hne].
  - now apply bool_decide_eq_true_2.
  - apply bool_decide_eq_false_2. congruence.
Qed.

(** [C5], as amended. On filtered records whose [date] and [analysis] are
    as [AnalysisResult] declares them, the time series is built from
    exactly the records that have both a date and a classification. There
    is none without a mapped date column or without such a record.
    Otherwise its dates are the starts of the periods in which the dates of
    these records fall, and the value of a key at a date is the number of
    times the key occurs in the chosen field of those of these records
    whose date falls in that period; its keys, which name the series, are
    the values of the chosen field of these records that are not empty. A
    record that lacks the date or the classification opens no bucket, adds
    to no value and brings no key. *)
Theorem trendData_includes_dated_and_classified (E : Engine) (D : D3Time)
    (st : Component) :
  Forall dateTyped (filteredAnalysisResults st) ->
  Forall analysisTyped (filteredAnalysisResults st) ->
  let both := datedAndClassified st in
  let period := trendChartPeriod st in
  let field := groupByField (trendChartGroupBy st) in
  (mappedDateColumn st = "" \/ both = [] -> trendData st = None)
  /\ (mappedDateColumn st <> "" -> both <> [] ->
      exists td,
        trendData st = Some td
        /\ (forall d, In d (dates td) <->
              exists r t, In r both /\ dateOf r = Some t
                          /\ d = Some (timeFloor period t))
        /\ (forall key values, In (key, values) (series td) ->
              List.map fst values = dates td)
        /\ (forall key values d n,
              In (key, values) (series td) -> In (Some d, n) values ->
              n = occurrences field (List.filter (fallsIn period d) both) key)
        /\ (forall key, In key (keys td) <->
              key <> "" /\ (0 < occurrences field both key)%nat)
        /\ List.map fst (series td) = keys td).
Proof.
  intros Hd Ha both period field.
  pose proof (included_typed E st Hd Ha) as Hinc. fold both in Hinc.
  split.
  - intros [Hcol|Hnil]; apply trendData_null.
    + left. now rewrite Hcol.
    + right. now rewrite Hinc.
  - intros Hcol Hne. apply nonEmpty_true_iff in Hcol.
    destruct (trendData st) as [td|] eqn:Htd.
    2:{ exfalso. unfold trendData in Htd. rewrite Hcol, Hinc in Htd. cbn [negb] in Htd.
        destruct both; [now apply Hne | discriminate Htd]. }
    exists td. split; [reflexivity|].
    destruct (trendData_keys_spec E D st td Htd) as [Hkeyset Hnames].
    fold field in Hkeyset. rewrite Hinc in Hkeyset.
    destruct (trendData_Some E D st td Htd) as (_ & Hkeys & Hdates & _ & Hseries).
    cbv zeta in *. fold field in Hkeys, Hdates, Hseries.
    set (allKeys := sortStrings _) in *.
    set (dataByDate := List.map _ (buckets st)) in *.
    assert (Hfst : List.map fst dataByDate = List.map fst (buckets st)).
    { subst dataByDate. rewrite List.map_map. reflexivity. }
    assert (Hdated : forall r, In r both -> dated r = true).
    { intros r Hr. apply filter_In in Hr as [_ Hr]. now apply andb_true_iff in Hr as [Hr _]. }
    assert (Hbucket : forall d, In d (dates td) <-> exists g, In (d, g) (buckets st)).
    { intros d. rewrite Hdates. split.
      - intros Hin. apply (Permutation_in _ (sortKeys_perm _)) in Hin.
        rewrite Hfst in Hin. apply in_map_iff in Hin as ([d' g] & <- & Hin). now exists g.
      - intros [g Hg]. apply (Permutation_in _ (Permutation_sym (sortKeys_perm _))).
        rewrite Hfst. apply in_map_iff. now exists (d, g). }
    split; [|split; [|split; [|split; [exact Hkeyset | exact Hnames]]]].
    + intros d. rewrite Hbucket. unfold buckets. rewrite Hinc. split.
      * intros [g Hg].
        destruct (groupByBucket_groups D period both d g Hg) as [_ Hnonempty].
        destruct g as [|r g]; [contradiction|].
        destruct (proj1 (groupByBucket_In D period both d r)
                    (ex_intro _ (r :: g) (conj Hg (or_introl eq_refl)))) as [Hr ->].
        pose proof (Hdated r Hr) as Hdr. unfold dated in Hdr.
        destruct (dateOf r) as [t|] eqn:Ht; [|discriminate].
        exists r, t. split; [exact Hr|]. split; [exact Ht|].
        now apply bucketOf_dated.
      * intros (r & t & Hr & Ht & ->).
        destruct (proj2 (groupByBucket_In D period both (bucketOf period r) r)
                    (conj Hr eq_refl)) as (g & Hg & _).
        exists g. now rewrite <- (bucketOf_dated D period r t Ht).
    + intros key values Hin. rewrite Hseries in Hin.
      apply in_map_iff in Hin as (k & [= <- <-] & _).
      rewrite List.map_map, Hdates. cbn [fst]. apply List.map_id.
    + intros key values d n Hin Hval. rewrite Hseries in Hin.
      apply in_map_iff in Hin as (k & [= <- <-] & Hk).
      apply in_map_iff in Hval as (date & [= -> <-] & Hdate).
      rewrite <- Hdates in Hdate. apply Hbucket in Hdate as [g Hg].
      rewrite (lookupBucket_In (Some d) (reduceGroup field allKeys g) dataByDate).
      * rewrite (reduceGroup_countOf field allKeys g k Hk).
        unfold buckets in Hg. rewrite Hinc in Hg.
        destruct (groupByBucket_groups D period both (Some d) g Hg) as [-> _].
        f_equal. apply List.filter_ext_in. intros r Hr. now apply fallsIn_bucket, Hdated.
      * rewrite Hfst. apply groupByBucket_NoDup.
      * subst dataByDate. apply in_map_iff. now exists (Some d, g).
Qed.

Lemma trendData_includes_dated_and_classified_witness :
  Forall dateTyped (@filteredAnalysisResults utcEngine bothOfTwo)
  /\ Forall analysisTyped (@filteredAnalysisResults utcEngine bothOfTwo)
  /\ exists td,
       @trendData utcEngine utcTime bothOfTwo = Some td
       /\ (forall d, In d (dates td) <->
             exists r t, In r (@datedAndClassified utcEngine bothOfTwo)
                         /\ dateOf r = Some t
                         /\ d = Some (@timeFloor utcTime (trendChartPeriod bothOfTwo) t))
       /\ (forall key values, In (key, values) (series td) ->
             List.map fst values = dates td)
       /\ (forall key values d n,
             In (key, values) (series td) -> In (Some d, n) values ->
             n = occurrences (groupByField (trendChartGroupBy bothOfTwo))
                   (List.filter (@fallsIn utcTime (trendChartPeriod bothOfTwo) d)
                                (@datedAndClassified utcEngine bothOfTwo)) key)
       /\ (forall key, In key (keys td) <->
             key <> ""
             /\ (0 < occurrences (groupByField (trendChartGroupBy bothOfTwo))
                      (@datedAndClassified utcEngine bothOfTwo) key)%nat)
       /\ List.map fst (series td) = keys td.
Proof.
  assert (Hd : Forall dateTyped (@filteredAnalysisResults utcEngine bothOfTwo))
    by (repeat constructor).
  assert (Ha : Forall analysisTyped (@filteredAnalysisResults utcEngine bothOfTwo))
    by (repeat constructor).
  split; [exact Hd|]. split; [exact Ha|].
  apply (proj2 (trendData_includes_dated_and_classified utcEngine utcTime bothOfTwo Hd Ha)).
  - discriminate.
  - vm_compute. discriminate.
Defined.

(** *** The entries of the stacked data *)

Lemma hasKey_existsb (counts : Counts) (key : string) :
  hasKey counts key = existsb (String.eqb key) (List.map fst counts).
Proof.
  unfold hasKey. induction counts as [|[k n] rest IH]; cbn [existsb List.map fst];
    [reflexivity|].
  now rewrite IH, (String.eqb_sym k key).
Qed.

Lemma increment_keys (counts : Counts) (v : string) :
  List.map fst (increment counts v) = List.map fst counts.
Proof.
  unfold increment. destruct (hasKey counts v) eqn:Hv; [|reflexivity].
  rewrite setCount_keys, <- hasKey_existsb, Hv. reflexivity.
Qed.

Lemma reduceGroup_keys (groupBy : Field) (allKeys : list string)
    (v : list AnalysisResult) :
  List.map fst (reduceGroup groupBy allKeys v) = allKeys.
Proof.
  unfold reduceGroup.
  assert (Hgen : forall counts,
            List.map fst (fold_left (tally groupBy) v counts) = List.map fst counts).
  { induction v as [|d v IH]; intros counts; cbn [fold_left]; [reflexivity|].
    rewrite IH, tally_increments. generalize (countedValues groupBy d). intros values.
    revert counts. induction values as [|x values IHv]; intros counts; cbn [fold_left];
      [reflexivity|].
    now rewrite IHv, increment_keys. }
  rewrite Hgen, List.map_map. cbn [fst]. apply List.map_id.
Qed.

(** What an entry holds under a name: the count of the key of that name,
    whatever the name but [__proto__]; otherwise what it held before. *)
Lemma stackEntry_fold (counts : Counts) (init : gmap string StackValue) (k : string) :
  NoDup (List.map fst counts) ->
  fold_left setEntry counts init !! k
  = if (hasKey counts k && negb (String.eqb k "__proto__"))%bool
    then Some (StackCount (countOf counts k))
    else init !! k.
Proof.
  revert init. induction counts as [|[k0 n0] rest IH]; intros init Hnd;
    cbn [fold_left]; [reflexivity|].
  cbn [List.map fst] in Hnd. apply NoDup_cons in Hnd as [Hout Hnd].
  rewrite (IH _ Hnd). unfold hasKey. cbn [existsb fst countOf].
  fold (hasKey rest k).
  destruct (String.eqb k0 k) eqn:Hk.
  - apply String.eqb_eq in Hk. subst k0.
    assert (Hrest : hasKey rest k = false).
    { rewrite hasKey_existsb. destruct (existsb _ _) eqn:Hex; [|reflexivity].
      exfalso. apply Hout, list_elem_of_In. now apply existsb_eqb_In. }
    rewrite Hrest. cbn [orb andb]. unfold setEntry. cbn [fst snd].
    destruct (String.eqb k "__proto__"); cbn [negb]; [reflexivity|].
    apply lookup_insert_eq.
  - cbn [orb]. destruct (hasKey rest k && negb (String.eqb k "__proto__"))%bool;
      [reflexivity|].
    unfold setEntry. cbn [fst snd]. destruct (String.eqb k0 "__proto__"); [reflexivity|].
    apply lookup_insert_ne. intros ->. now rewrite String.eqb_refl in Hk.
Qed.

(** [X20]. The axes of the time series, on results whose [date] is a
    [Date] or missing: the keys are the values that occur in the chosen
    field of the included records and are not empty, in ascending order of
    strings, each once; the dates are the buckets in ascending order, each
    once; and every series is named by its key and has one value for every
    date, in that order. The stacked data has one entry for every date,
    which holds the value of every series at that date under the key of the
    series, except a key named [__proto__], and the date under [date],
    unless a key is named [date]: then it holds the count of that key. *)
Theorem trendData_axes (E : Engine) (D : D3Time) (st : Component) (td : TrendData) :
  trendData st = Some td ->
  Forall dateTyped (filteredAnalysisResults st) ->
  StronglySorted (fun a b => JsString.ltb a b = true) (keys td)
  /\ (forall k, In k (keys td) <->
        k <> "" /\ (0 < occurrences (groupByField (trendChartGroupBy st)) (included st) k)%nat)
  /\ (exists ds, dates td = List.map Some ds /\ StronglySorted Z.lt ds
                 /\ forall t, In t ds <->
                      exists r, In r (included st)
                                /\ bucketOf (trendChartPeriod st) r = Some t)
  /\ List.map fst (series td) = keys td
  /\ (forall key values, In (key, values) (series td) -> List.map fst values = dates td)
  /\ length (stackedData td) = length (dates td)
  /\ (forall i d entry,
        dates td !! i = Some d -> stackedData td !! i = Some entry ->
        (forall key values, In (key, values) (series td) -> key <> "__proto__" ->
           exists n, values !! i = Some (d, n) /\ entry !! key = Some (StackCount n))
        /\ (~ In "date" (keys td) -> entry !! "date" = Some (StackDate d))
        /\ (forall k, k <> "date" -> ~ In k (keys td) -> entry !! k = None)
        /\ entry !! "__proto__" = None).
Proof.
  intros Htd Htyped.
  destruct (trendData_Some E D st td Htd) as (_ & Hkeys & Hdates & Hstacked & Hseries).
  cbv zeta in *.
  set (groupBy := groupByField (trendChartGroupBy st)) in *.
  set (allKeys := sortStrings _) in *.
  set (dataByDate := List.map _ (buckets st)) in *.
  assert (Hfst : List.map fst dataByDate = List.map fst (buckets st)).
  { subst dataByDate. rewrite List.map_map. reflexivity. }
  assert (Hnd : NoDup allKeys).
  { subst allKeys. rewrite sortStrings_perm. apply dedupe_NoDup. }
  split; [|split; [|split; [|split; [|split; [|split]]]]].
  - rewrite Hkeys. subst allKeys. apply sorted_strict; [apply sortStrings_sorted|].
    rewrite sortStrings_perm. apply dedupe_NoDup.
  - intros k. rewrite Hkeys. subst allKeys. split.
    + intros Hk. apply (Permutation_in _ (sortStrings_perm _)), dedupe_In in Hk as [Hk _].
      apply in_flat_map in Hk as (r & Hr & Hk).
      rewrite groupValues_countedValues in Hk. apply filter_In in Hk as [Hk Hne].
      split; [now apply nonEmpty_true_iff|].
      unfold occurrences. apply count_occ_In, in_flat_map. now exists r.
    + intros [Hne Hpos]. apply (Permutation_in _ (Permutation_sym (sortStrings_perm _))).
      apply dedupe_In. split; [|intros []].
      unfold occurrences in Hpos. apply count_occ_In, in_flat_map in Hpos as (r & Hr & Hk).
      apply in_flat_map. exists r. split; [exact Hr|].
      rewrite groupValues_countedValues. apply filter_In. split; [exact Hk|].
      now apply nonEmpty_true_iff.
  - destruct (buckets_dated E D st Htyped) as [ds Hds].
    destruct (sortKeys_sorted ds) as (ds' & Heq & Hperm & Hsorted).
    exists ds'. rewrite Hdates, Hfst, Hds, Heq. split; [reflexivity|].
    assert (Hnd' : NoDup ds').
    { rewrite Hperm. apply (NoDup_fmap_1 Some). unfold fmap, list_fmap.
      change (NoDup (List.map Some ds)). rewrite <- Hds. apply groupByBucket_NoDup. }
    split; [now apply sorted_strict_Z|].
    intros t. unfold buckets in Hds.
    rewrite <- (groupByBucket_keys D (trendChartPeriod st) (included st) (Some t)), Hds.
    split.
    + intros Ht. apply in_map. now apply (Permutation_in _ Hperm).
    + intros Ht. apply in_map_iff in Ht as (t' & [= ->] & Ht).
      now apply (Permutation_in _ (Permutation_sym Hperm)).
  - rewrite Hseries, Hkeys, List.map_map. cbn [fst]. apply List.map_id.
  - intros key values Hin. rewrite Hseries in Hin.
    apply in_map_iff in Hin as (k & [= <- <-] & _).
    rewrite List.map_map, Hdates. cbn [fst]. apply List.map_id.
  - now rewrite Hstacked, Hdates, length_map.
  - intros i d entry Hd Hentry.
    rewrite Hstacked in Hentry. rewrite Hdates in Hd.
    change (List.map ?f ?l) with (f <$> l) in Hentry.
    rewrite list_lookup_fmap, Hd in Hentry. cbn in Hentry. injection Hentry as <-.
    assert (Hcounts : exists counts, lookupBucket d dataByDate = Some counts
                                     /\ List.map fst counts = allKeys).
    { apply list_elem_of_lookup_2, list_elem_of_In in Hd.
      apply (Permutation_in _ (sortKeys_perm _)) in Hd.
      apply in_map_iff in Hd as ([d' counts] & <- & Hin). cbn [fst].
      exists counts. split.
      - apply lookupBucket_In; [|exact Hin]. rewrite Hfst. apply groupByBucket_NoDup.
      - subst dataByDate. apply in_map_iff in Hin as ([d0 g] & [= _ <-] & _).
        apply reduceGroup_keys. }
    destruct Hcounts as (counts & Hlookup & Hck). rewrite Hlookup. cbn [default].
    assert (Hhas : forall k, hasKey counts k = true <-> In k allKeys).
    { intros k. rewrite hasKey_existsb, Hck. apply existsb_eqb_In. }
    assert (Hnone : forall k, ~ In k allKeys -> hasKey counts k = false).
    { intros k Hk. destruct (hasKey counts k) eqn:Hh; [|reflexivity].
      exfalso. now apply Hk, Hhas. }
    assert (Hndc : NoDup (List.map fst counts)) by now rewrite Hck.
    unfold stackEntry. split; [|split; [|split]].
    + intros key values Hin Hproto. rewrite Hseries in Hin.
      apply in_map_iff in Hin as (k & [= <- <-] & Hk).
      exists (countOf counts k). split.
      * change (List.map ?f ?l) with (f <$> l).
        rewrite list_lookup_fmap, Hd. cbn. now rewrite Hlookup.
      * rewrite (stackEntry_fold counts _ k Hndc), (proj2 (Hhas k) Hk).
        apply String.eqb_neq in Hproto. now rewrite Hproto.
    + intros Hdate. rewrite Hkeys in Hdate.
      rewrite (stackEntry_fold counts _ "date" Hndc), (Hnone _ Hdate). cbn [andb].
      apply lookup_singleton_eq.
    + intros k Hk Hout. rewrite Hkeys in Hout.
      rewrite (stackEntry_fold counts _ k Hndc), (Hnone _ Hout). cbn [andb].
      apply lookup_singleton_ne. congruence.
    + rewrite (stackEntry_fold counts _ "__proto__" Hndc).
      change (String.eqb "__proto__" "__proto__") with true. cbn [negb].
      rewrite andb_false_r. now apply lookup_singleton_ne.
Qed.

Lemma addToGroup_concat (k : option Z) (r : AnalysisResult)
    (groups : list (option Z * list AnalysisResult)) :
  Permutation (concat (List.map snd (addToGroup k r groups)))
              (r :: concat (List.map snd groups)).
Proof.
  induction groups as [|[k' g] rest IH]; cbn [addToGroup List.map snd concat].
  - reflexivity.
  - destruct (bool_decide (k = k')); cbn [List.map snd concat].
    + rewrite <- app_assoc. cbn [app]. symmetry. apply Permutation_middle.
    + rewrite IH. symmetry. apply Permutation_middle.
Qed.

(** The buckets hold every record once. *)
Lemma groupByBucket_concat (D : D3Time) (p : Period) (rs : list AnalysisResult) :
  Permutation (concat (List.map snd (groupByBucket p rs))) rs.
Proof.
  unfold groupByBucket.
  assert (Hgen : forall groups,
            Permutation
              (concat (List.map snd
                         (fold_left (fun gs x => addToGroup (bucketOf p x) x gs) rs groups)))
              (concat (List.map snd groups) ++ rs)).
  { induction rs as [|r rs IH]; intros groups; cbn [fold_left].
    - now rewrite app_nil_r.
    - rewrite IH, addToGroup_concat. cbn [app]. apply Permutation_middle. }
  apply Hgen.
Qed.

Lemma occurrences_concat (field : Field) (groups : list (list AnalysisResult))
    (key : string) :
  occurrences field (concat groups) key
  = list_sum (List.map (fun g => occurrences field g key) groups).
Proof.
  unfold occurrences, list_sum.
  induction groups as [|g groups IH]; [reflexivity|].
  cbn [concat List.map fold_right]. rewrite flat_map_app, count_occ_app. now rewrite IH.
Qed.

(** [X21]. Nothing is lost between the records and the series: for every
    key of the chart, the values of its series add up, over all the buckets,
    to the number of times the key occurs in the chosen field of the
    included records. *)
Theorem trendData_totals (E : Engine) (D : D3Time) (st : Component) (td : TrendData)
    (key : string) (values : list (option Z * nat)) :
  trendData st = Some td ->
  In (key, values) (series td) ->
  list_sum (List.map snd values)
  = occurrences (groupByField (trendChartGroupBy st)) (included st) key.
Proof.
  intros Htd Hin.
  destruct (trendData_Some E D st td Htd) as (_ & Hkeys & Hdates & _ & Hseries).
  cbv zeta in *.
  set (groupBy := groupByField (trendChartGroupBy st)) in *.
  set (allKeys := sortStrings _) in *.
  set (dataByDate := List.map _ (buckets st)) in *.
  rewrite Hseries in Hin. apply in_map_iff in Hin as (k & [= <- <-] & Hk).
  assert (Hfst : List.map fst dataByDate = List.map fst (buckets st)).
  { subst dataByDate. rewrite List.map_map. reflexivity. }
  assert (Hnd : NoDup (List.map fst dataByDate)).
  { rewrite Hfst. apply groupByBucket_NoDup. }
  rewrite List.map_map. cbn [snd].
  rewrite (list_sum_perm _ _ (Permutation_map _ (sortKeys_perm (List.map fst dataByDate)))).
  rewrite List.map_map.
  transitivity (list_sum (List.map (fun g => occurrences groupBy (snd g) k) (buckets st))).
  - f_equal. subst dataByDate. rewrite List.map_map. apply map_ext_in.
    intros [k0 g] Hg. cbn [fst snd].
    rewrite (lookupBucket_In k0 (reduceGroup groupBy allKeys g)).
    + now apply reduceGroup_countOf.
    + exact Hnd.
    + apply in_map_iff. now exists (k0, g).
  - rewrite <- (List.map_map snd (fun g => occurrences groupBy g k)).
    rewrite <- occurrences_concat.
    unfold occurrences. apply Permutation_count_occ, Permutation_flat_map.
    apply groupByBucket_concat.
Qed.

Lemma trendData_totals_witness :
  match @trendData utcEngine utcTime bothOfTwo with
  | Some td =>
      match series td with
      | (key, values) :: _ =>
          list_sum (List.map snd values)
          = occurrences (groupByField (trendChartGroupBy bothOfTwo))
                        (@included utcEngine bothOfTwo) key
      | [] => False
      end
  | None => False
  end.
Proof.
  destruct (@trendData utcEngine utcTime bothOfTwo) as [td|] eqn:Htd;
    [|vm_compute in Htd; discriminate Htd].
  destruct (series td) as [|[key values] rest] eqn:Hs.
  - vm_compute in Htd. injection Htd as <-. discriminate Hs.
  - apply (trendData_totals utcEngine utcTime bothOfTwo td key values Htd).
    rewrite Hs. now left.
Defined.

Lemma trendData_axes_witness :
  match @trendData utcEngine utcTime bothOfTwo with
  | Some td =>
      Forall dateTyped (@filteredAnalysisResults utcEngine bothOfTwo)
      /\ StronglySorted (fun a b => JsString.ltb a b = true) (keys td)
      /\ List.map fst (series td) = keys td
      /\ length (stackedData td) = length (dates td)
  | None => False
  end.
Proof.
  destruct (@trendData utcEngine utcTime bothOfTwo) as [td|] eqn:Htd;
    [|vm_compute in Htd; discriminate Htd].
  assert (Htyped : Forall dateTyped (@filteredAnalysisResults utcEngine bothOfTwo))
    by (repeat constructor).
  destruct (trendData_axes utcEngine utcTime bothOfTwo td Htd Htyped)
    as (Hk & _ & _ & Hs & _ & Hlen & _).
  now repeat split.
Defined.

(** ** ClassificationQueue: the ways a start can go *)



(** ** [dateToInputFormat]: the calendar date in UTC *)

Lemma DaysInYear_DayFromYear (y : Z) :
  JsDate.DayFromYear (y + 1) = JsDate.DayFromYear y + JsDate.DaysInYear y.
Proof.
  unfold JsDate.DayFromYear, JsDate.DaysInYear.
  repeat match goal with |- context [if ?b then _ else _] => destruct b eqn:? end;
    rewrite ?negb_true_iff, ?negb_false_iff, ?Z.eqb_eq, ?Z.eqb_neq in *;
    Z.div_mod_to_equations; lia.
Qed.

Lemma DaysInYear_range (y : Z) : 365 <= JsDate.DaysInYear y <= 366.
Proof.
  unfold JsDate.DaysInYear.
  repeat match goal with |- context [if ?b then _ else _] => destruct b end; lia.
Qed.

Lemma DayFromYear_mono (a b : Z) :
  a <= b -> JsDate.DayFromYear a <= JsDate.DayFromYear b.
Proof.
  intros Hab. unfold JsDate.DayFromYear. Z.div_mod_to_equations. lia.
Qed.

(** [YearFromTime] is the year ECMAScript defines. *)
Lemma YearFromTime_spec (t : Z) :
  JsDate.DayFromYear (JsIso.YearFromTime t) <= JsIso.Day t
  < JsDate.DayFromYear (JsIso.YearFromTime t + 1).
Proof.
  unfold JsIso.YearFromTime. cbv zeta.
  set (d := JsIso.Day t). set (e := 1970 + 400 * d / 146097).
  destruct (JsDate.DayFromYear (e + 1) <=? d) eqn:H1.
  - apply Z.leb_le in H1. split; [exact H1|].
    subst e. unfold JsDate.DayFromYear in *. Z.div_mod_to_equations. lia.
  - apply Z.leb_gt in H1.
    destruct (JsDate.DayFromYear e <=? d) eqn:H2.
    + apply Z.leb_le in H2. now split.
    + apply Z.leb_gt in H2. replace (e - 1 + 1) with e by lia. split; [|exact H2].
      subst e. unfold JsDate.DayFromYear in *. Z.div_mod_to_equations. lia.
Qed.

Lemma YearFromTime_unique (t y : Z) :
  JsDate.DayFromYear y <= JsIso.Day t < JsDate.DayFromYear (y + 1) ->
  JsIso.YearFromTime t = y.
Proof.
  intros Hy. pose proof (YearFromTime_spec t) as Hs.
  set (Y := JsIso.YearFromTime t) in *.
  destruct (Z.lt_trichotomy Y y) as [Hlt | [Heq | Hgt]]; [|exact Heq|].
  - pose proof (DayFromYear_mono (Y + 1) y ltac:(lia)). lia.
  - pose proof (DayFromYear_mono (y + 1) Y ltac:(lia)). lia.
Qed.

Ltac case_tests :=
  repeat (match goal with
          | |- context [?a =? ?b] => destruct (Z.eqb_spec a b)
          | |- context [?a <? ?b] => destruct (Z.ltb_spec a b)
          end; cbv iota; cbn [orb andb]; try lia).

Lemma date_parts (t y m d : Z) :
  1 <= m <= 12 -> 1 <= d <= daysInMonth y m ->
  JsIso.Day t = JsDate.MakeDay y (m - 1) d ->
  JsIso.YearFromTime t = y /\ JsIso.MonthFromTime t = m - 1 /\ JsIso.DateFromTime t = d.
Proof.
  intros Hm Hd Hday.
  assert (Hmk : JsDate.MakeDay y (m - 1) d
                = JsDate.DayFromYear y + JsDate.DayWithinYearOfMonth y (m - 1) + d - 1).
  { unfold JsDate.MakeDay. cbv zeta.
    rewrite (Z.div_small (m - 1) 12), (Z.mod_small (m - 1) 12) by lia.
    now rewrite Z.add_0_r. }
  rewrite Hmk in Hday. clear Hmk.
  pose proof (DaysInYear_DayFromYear y) as Hnext.
  assert (Hleap : JsDate.InLeapYear y = JsDate.DaysInYear y - 365).
  { unfold JsDate.InLeapYear. pose proof (DaysInYear_range y).
    destruct (JsDate.DaysInYear y =? 366) eqn:Hl;
      [apply Z.eqb_eq in Hl | apply Z.eqb_neq in Hl]; lia. }
  pose proof (DaysInYear_range y) as Hrange.
  unfold daysInMonth in Hd.
  assert (Hwithin : JsIso.YearFromTime t = y ->
            JsIso.DayWithinYear t = JsDate.DayWithinYearOfMonth y (m - 1) + d - 1).
  { intros Hyear. unfold JsIso.DayWithinYear. rewrite Hyear, Hday. lia. }
  assert (Hcases : m = 1 \/ m = 2 \/ m = 3 \/ m = 4 \/ m = 5 \/ m = 6 \/ m = 7
                   \/ m = 8 \/ m = 9 \/ m = 10 \/ m = 11 \/ m = 12) by lia.
  assert (Hyear : JsIso.YearFromTime t = y).
  { apply YearFromTime_unique. rewrite Hday, Hnext.
    unfold JsDate.DayWithinYearOfMonth. cbv zeta.
    set (leap := JsDate.InLeapYear y) in *. set (len := JsDate.DaysInYear y) in *.
    set (base := JsDate.DayFromYear y) in *. clearbody leap len base.
    clear Hday Hwithin Hnext. revert Hd.
    repeat destruct Hcases as [-> | Hcases]; try subst m; case_tests. }
  split; [exact Hyear|].
  specialize (Hwithin Hyear).
  assert (Hmonth : JsIso.MonthFromTime t = m - 1).
  { unfold JsIso.MonthFromTime. cbv zeta. rewrite Hwithin, Hyear.
    unfold JsDate.DayWithinYearOfMonth. cbv zeta.
    set (leap := JsDate.InLeapYear y) in *. set (len := JsDate.DaysInYear y) in *.
    clearbody leap len. clear Hwithin Hday Hyear Hnext. revert Hd.
    repeat destruct Hcases as [-> | Hcases]; try subst m; case_tests. }
  split; [exact Hmonth|].
  unfold JsIso.DateFromTime. rewrite Hmonth, Hyear, Hwithin. lia.
Qed.

Lemma firstPart_append (sep : ascii) (a b : string) :
  includes a sep = false -> firstPart sep (a +:+ String sep b) = a.
Proof.
  induction a as [|c a IH]; intros Ha.
  - rewrite append_nil_l. cbn [firstPart]. now rewrite Ascii.eqb_refl.
  - cbn [includes] in Ha. apply orb_false_iff in Ha as [Hc Hrest].
    rewrite append_cons. cbn [firstPart]. rewrite Hc. now rewrite IH.
Qed.

Lemma includes_zeros (k : nat) (s : string) (c : ascii) :
  c <> "0"%char -> includes (JsIso.zeros k s) c = includes s c.
Proof.
  intros Hc. induction k as [|k IH]; cbn [JsIso.zeros includes]; [reflexivity|].
  rewrite IH. destruct (Ascii.eqb_spec "0"%char c); [congruence | reflexivity].
Qed.

Lemma includes_digitsOf (fuel : nat) (n : N) (acc : string) (c : ascii) :
  isDigit c = false -> includes (digitsOf fuel n acc) c = includes acc c.
Proof.
  intros Hc. revert n acc. induction fuel as [|fuel IH]; intros n acc; [reflexivity|].
  cbn [digitsOf]. cbv zeta.
  assert (Hdigit : includes (String (ascii_of_N (48 + n mod 10)) acc) c = includes acc c).
  { cbn [includes].
    destruct (Ascii.eqb_spec (ascii_of_N (48 + n mod 10)) c) as [<-|]; [|reflexivity].
    exfalso. pose proof (N.mod_upper_bound n 10 ltac:(discriminate)) as Hlt.
    assert (Hk : exists k, (k < 10)%nat /\ (n mod 10)%N = N.of_nat k).
    { exists (N.to_nat (n mod 10)). split; [lia | now rewrite N2Nat.id]. }
    destruct Hk as (k & Hk & Heq). rewrite Heq in Hc.
    do 10 (destruct k as [|k]; [discriminate Hc|]). lia. }
  destruct (n <? 10)%N; [exact Hdigit|]. now rewrite IH.
Qed.

Lemma includes_isoDay (y m d : Z) : includes (isoDay y m d) "T" = false.
Proof.
  unfold isoDay, JsIso.yearText, JsIso.padStart, JsIso.decimal.
  rewrite !includes_append, !includes_zeros by discriminate.
  rewrite !includes_digitsOf by reflexivity.
  destruct ((0 <=? y) && (y <=? 9999))%bool.
  - rewrite includes_zeros by discriminate. now rewrite includes_digitsOf.
  - rewrite includes_append, includes_zeros by discriminate.
    rewrite includes_digitsOf by reflexivity. now destruct (y <? 0).
Qed.

Lemma dateToInputFormat_day (t y m d : Z) :
  1 <= m <= 12 -> 1 <= d <= daysInMonth y m ->
  JsIso.Day t = JsDate.MakeDay y (m - 1) d ->
  dateToInputFormat (Some t) = isoDay y m d.
Proof.
  intros Hm Hd Hday. destruct (date_parts t y m d Hm Hd Hday) as (Hy & Hmn & Hdt).
  unfold dateToInputFormat, JsIso.toISOString. rewrite Hy, Hmn, Hdt.
  replace (m - 1 + 1) with m by lia.
  pose proof (includes_isoDay y m d) as Hno. unfold isoDay in Hno |- *.
  set (rest := JsIso.padStart 2 (JsIso.decimal (JsIso.HourFromTime t)) +:+ _).
  rewrite <- !append_assoc.
  rewrite <- !append_assoc in Hno.
  rewrite (append_assoc _ "T" rest).
  change ("T" +:+ rest) with (String "T" rest).
  now apply firstPart_append.
Qed.

(** [X12]. [dateToInputFormat] gives the empty text for [null] and, for a
    date, the calendar day of its instant in UTC, as year, month and day.
    So for a date built at local midnight, as [parseDate] builds them from
    month/day/year (years from 100 on), it gives that day in UTC and in the
    zones behind it, and the day before in the zones ahead of UTC (shown
    for the days after the first of a month). *)
Theorem dateToInputFormat_utc_day (E : Engine) (y m d : Z) :
  1 <= m <= 12 -> 1 <= d <= daysInMonth y m ->
  dateToInputFormat None = ""
  /\ (forall ms, 0 <= ms < JsDate.msPerDay ->
        dateToInputFormat (Some (JsDate.MakeDate (JsDate.MakeDay y (m - 1) d) ms))
        = isoDay y m d)
  /\ (forall t, 100 <= y -> JsDate.construct y (m - 1) d = Some t ->
        let offset := LocalTZA (JsDate.MakeDate (JsDate.MakeDay y (m - 1) d) 0) in
        (- JsDate.msPerDay < offset <= 0 -> dateToInputFormat (Some t) = isoDay y m d)
        /\ (0 < offset <= JsDate.msPerDay -> 2 <= d ->
            dateToInputFormat (Some t) = isoDay y m (d - 1))).
Proof.
  intros Hm Hd. split; [reflexivity|]. split.
  - intros ms Hms. apply dateToInputFormat_day; [exact Hm | exact Hd |].
    unfold JsIso.Day, JsDate.MakeDate, JsDate.msPerDay in *.
    Z.div_mod_to_equations. lia.
  - intros t Hy Ht offset.
    unfold JsDate.construct in Ht.
    replace ((0 <=? y) && (y <=? 99))%bool with false in Ht
      by (symmetry; apply andb_false_iff; right; apply Z.leb_gt; lia).
    unfold JsDate.TimeClip in Ht.
    destruct (Z.abs _ >? _); [discriminate Ht|]. injection Ht as <-.
    unfold JsDate.UTC. fold offset. split.
    + intros Hoff. apply dateToInputFormat_day; [exact Hm | exact Hd |].
      unfold JsIso.Day, JsDate.MakeDate, JsDate.msPerDay in *.
      Z.div_mod_to_equations. lia.
    + intros Hoff Hd2. apply dateToInputFormat_day; [exact Hm | lia |].
      unfold JsIso.Day, JsDate.MakeDate, JsDate.MakeDay, JsDate.msPerDay in *.
      cbv zeta. Z.div_mod_to_equations. lia.
Qed.

Lemma dateToInputFormat_utc_day_witness :
  @JsDate.construct (zoneEngine 3600000) 2024 0 5 = Some 1704409200000
  /\ dateToInputFormat (Some 1704409200000) = "2024-01-04"
  /\ dateToInputFormat (Some 1704412800000) = "2024-01-05".
Proof.
  assert (Hm : 1 <= 1 <= 12) by lia.
  assert (Hd : 1 <= 5 <= daysInMonth 2024 1) by (vm_compute; split; discriminate).
  destruct (dateToInputFormat_utc_day (zoneEngine 3600000) 2024 1 5 Hm Hd)
    as (_ & Hutc & Hlocal).
  split; [reflexivity|]. split.
  - destruct (Hlocal 1704409200000 ltac:(lia) eq_refl) as [_ Hahead].
    exact (Hahead ltac:(vm_compute; split; [reflexivity | discriminate]) ltac:(lia)).
  - exact (Hutc 0 ltac:(vm_compute; split; [discriminate | reflexivity])).
Defined.
